(** * Immich Holiday Album Collector: calendar engine, person resolution,
      search composition and run orchestration.

    A shallow embedding of [immich_holiday_album_collector.py] and the
    properties of its specification that were checked against it.

    Layout: the model (Python library fragments the program relies on, then
    the program's own functions, in source order), followed by the lemmas
    and the theorems about them. *)

From Stdlib Require Import ZArith Lia Bool List Ascii String Permutation.
From Stdlib Require Import DecimalString Sorting.Mergesort Orders.
From stdpp Require Import base option list gmap strings.

Local Open Scope string_scope.
Local Open Scope Z_scope.

(* ===================================================================== *)
(** * Outcomes of Python computations *)
(* ===================================================================== *)

(** The exception classes the program can meet.  [ValueError] and the like
    carry the message the program (or the library) builds. *)
Inductive exn : Type :=
  | ValueError (msg : string)
  | OverflowError (msg : string)
  | TypeError (msg : string)
  | RequestException (msg : string).

(** A computation returns a value, raises, or (for the model of a [while]
    loop) exhausts the iteration budget it was given. *)
Inductive result (A : Type) : Type :=
  | Ok (a : A)
  | Raise (e : exn)
  | OutOfFuel.
Arguments Ok {A} a.
Arguments Raise {A} e.
Arguments OutOfFuel {A}.

Definition rbind {A B} (r : result A) (k : A -> result B) : result B :=
  match r with
  | Ok a => k a
  | Raise e => Raise e
  | OutOfFuel => OutOfFuel
  end.

Notation "'let?' x ':=' r 'in' k" := (rbind r (fun x => k))
  (at level 20, x pattern, r at level 100, k at level 200).

(* ===================================================================== *)
(** * Python's [datetime] module (the fragment the program uses) *)
(* ===================================================================== *)

Module PyDatetime.

Definition MINYEAR : Z := 1.
Definition MAXYEAR : Z := 9999.
(** [date(9999, 12, 31).toordinal()] *)
Definition MAXORDINAL : Z := 3652059.

Definition DI400Y : Z := 146097.
Definition DI100Y : Z := 36524.
Definition DI4Y : Z := 1461.

Definition is_leap (year : Z) : bool :=
  (year mod 4 =? 0) && (negb (year mod 100 =? 0) || (year mod 400 =? 0)).

Definition days_before_year (year : Z) : Z :=
  let y := year - 1 in y * 365 + y / 4 - y / 100 + y / 400.

(** [_DAYS_IN_MONTH], index 0 is the placeholder -1. *)
Definition DAYS_IN_MONTH (month : Z) : Z :=
  match month with
  | 1 => 31 | 2 => 28 | 3 => 31 | 4 => 30 | 5 => 31 | 6 => 30
  | 7 => 31 | 8 => 31 | 9 => 30 | 10 => 31 | 11 => 30 | 12 => 31
  | _ => -1
  end.

(** [_DAYS_BEFORE_MONTH], index 0 is the placeholder -1. *)
Definition DAYS_BEFORE_MONTH (month : Z) : Z :=
  match month with
  | 1 => 0 | 2 => 31 | 3 => 59 | 4 => 90 | 5 => 120 | 6 => 151
  | 7 => 181 | 8 => 212 | 9 => 243 | 10 => 273 | 11 => 304 | 12 => 334
  | _ => -1
  end.

Definition days_in_month (year month : Z) : Z :=
  if (month =? 2) && is_leap year then 29 else DAYS_IN_MONTH month.

Definition days_before_month (year month : Z) : Z :=
  DAYS_BEFORE_MONTH month + (if (2 <? month) && is_leap year then 1 else 0).

Definition ymd2ord (year month day : Z) : Z :=
  days_before_year year + days_before_month year month + day.

(** [_ord2ymd]: the inverse, by 400/100/4/1-year cycles and a month
    estimate that is corrected when it overshoots. *)
Definition ord2ymd (n0 : Z) : Z * Z * Z :=
  let n := n0 - 1 in
  let n400 := n / DI400Y in
  let n := n mod DI400Y in
  let year := n400 * 400 + 1 in
  let n100 := n / DI100Y in
  let n := n mod DI100Y in
  let n4 := n / DI4Y in
  let n := n mod DI4Y in
  let n1 := n / 365 in
  let n := n mod 365 in
  let year := year + n100 * 100 + n4 * 4 + n1 in
  if (n1 =? 4) || (n100 =? 4) then (year - 1, 12, 31)
  else
    let leapyear := (n1 =? 3) && (negb (n4 =? 24) || (n100 =? 3)) in
    let month := Z.shiftr (n + 50) 5 in
    let preceding :=
      DAYS_BEFORE_MONTH month + (if (2 <? month) && leapyear then 1 else 0) in
    if n <? preceding then
      let month := month - 1 in
      let preceding :=
        preceding
        - (DAYS_IN_MONTH month + (if (month =? 2) && leapyear then 1 else 0)) in
      (year, month, n - preceding + 1)
    else (year, month, n - preceding + 1).

(** A [datetime] value (naive: the program never attaches a time zone). *)
Record datetime : Type := mk_datetime {
  year : Z; month : Z; day : Z;
  hour : Z; minute : Z; second : Z; microsecond : Z
}.

(** The invariant every constructed [datetime] satisfies. *)
Definition valid_date (y m d : Z) : bool :=
  (MINYEAR <=? y) && (y <=? MAXYEAR) && (1 <=? m) && (m <=? 12)
  && (1 <=? d) && (d <=? days_in_month y m).

Definition valid_time (h mi s us : Z) : bool :=
  (0 <=? h) && (h <? 24) && (0 <=? mi) && (mi <? 60)
  && (0 <=? s) && (s <? 60) && (0 <=? us) && (us <? 1000000).

Definition wf_datetime (d : datetime) : bool :=
  valid_date (year d) (month d) (day d)
  && valid_time (hour d) (minute d) (second d) (microsecond d).

(** [datetime(year, month, day)]: midnight of that day, or [ValueError]. *)
Definition datetime_ymd (y m d : Z) : result datetime :=
  if negb ((MINYEAR <=? y) && (y <=? MAXYEAR)) then
    Raise (ValueError "year is out of range")
  else if negb ((1 <=? m) && (m <=? 12)) then
    Raise (ValueError "month must be in 1..12")
  else if negb ((1 <=? d) && (d <=? days_in_month y m)) then
    Raise (ValueError "day is out of range for month")
  else Ok (mk_datetime y m d 0 0 0 0).

Definition toordinal (d : datetime) : Z := ymd2ord (year d) (month d) (day d).

(** [d.weekday()]: Monday is 0, Sunday is 6. *)
Definition weekday (d : datetime) : Z := (toordinal d + 6) mod 7.

(** [timedelta(days=n)] refuses magnitudes above 999999999 days. *)
Definition timedelta_days (n : Z) : result Z :=
  if Z.abs n <=? 999999999 then Ok n
  else Raise (OverflowError "days must have magnitude <= 999999999").

(** [d + timedelta(days=n)]: the time of day is kept, the date moves by
    [n] days, and a date outside years 1..9999 is an [OverflowError]. *)
Definition add_days (d : datetime) (n : Z) : result datetime :=
  rbind (timedelta_days n) (fun n =>
    let o := toordinal d + n in
    if (0 <? o) && (o <=? MAXORDINAL) then
      let '(y, m, dd) := ord2ymd o in
      Ok (mk_datetime y m dd (hour d) (minute d) (second d) (microsecond d))
    else Raise (OverflowError "date value out of range")).

Definition sub_days (d : datetime) (n : Z) : result datetime :=
  rbind (timedelta_days n) (fun n => add_days d (- n)).

(** [d.replace(year=y)]: same fields, re-validated. *)
Definition replace_year (d : datetime) (y : Z) : result datetime :=
  rbind (datetime_ymd y (month d) (day d)) (fun d' =>
    Ok (mk_datetime (year d') (month d') (day d')
                    (hour d) (minute d) (second d) (microsecond d))).

(** A normalised [timedelta]: [0 <= seconds < 86400],
    [0 <= microseconds < 1000000]. *)
Record timedelta : Type := mk_timedelta {
  td_days : Z; td_seconds : Z; td_microseconds : Z
}.

Definition seconds_of_day (d : datetime) : Z :=
  second d + minute d * 60 + hour d * 3600.

(** [timedelta(days, seconds, microseconds)] with the carries Python
    performs. *)
Definition timedelta_norm (days secs us : Z) : timedelta :=
  let secs := secs + us / 1000000 in
  let us := us mod 1000000 in
  let days := days + secs / 86400 in
  let secs := secs mod 86400 in
  mk_timedelta days secs us.

(** [a - b] on two datetimes. *)
Definition datetime_sub (a b : datetime) : timedelta :=
  timedelta_norm (toordinal a - toordinal b)
                 (seconds_of_day a - seconds_of_day b)
                 (microsecond a - microsecond b).

(** [a < b] on two datetimes (field-wise lexicographic order). *)
Definition datetime_ltb (a b : datetime) : bool :=
  let key d :=
    [year d; month d; day d; hour d; minute d; second d; microsecond d] in
  (fix lt (xs ys : list Z) : bool :=
     match xs, ys with
     | x :: xs', y :: ys' => (x <? y) || ((x =? y) && lt xs' ys')
     | _, _ => false
     end) (key a) (key b).

(** [calendar.monthrange(year, month)[1]] *)
Definition monthrange_days (y m : Z) : result Z :=
  if negb ((1 <=? m) && (m <=? 12)) then
    Raise (ValueError "bad month number; must be 1-12")
  else Ok (days_in_month y m).

End PyDatetime.

(* ===================================================================== *)
(** * Date calculation helpers *)
(* ===================================================================== *)

Import PyDatetime.

Definition DEFAULT_HOLIDAYS : list string :=
  [ "New Year's Day"; "Martin Luther King Jr. Day"; "Presidents' Day";
    "Easter"; "Memorial Day"; "Juneteenth"; "Independence Day"; "Labor Day";
    "Columbus Day"; "Halloween"; "Veterans Day"; "Thanksgiving"; "Christmas" ].

Definition get_fixed_date (year month day : Z) : result datetime :=
  datetime_ymd year month day.

(** [while d.weekday() != weekday: d += timedelta(days=1)].  One unit of
    [fuel] is spent per iteration of the loop body. *)
Fixpoint step_forward_to_weekday (fuel : nat) (d : datetime) (wd : Z)
  : result datetime :=
  if negb (weekday d =? wd) then
    match fuel with
    | O => OutOfFuel
    | S fuel' =>
        let? d' := add_days d 1 in step_forward_to_weekday fuel' d' wd
    end
  else Ok d.

(** [while d.weekday() != weekday: d -= timedelta(days=1)]. *)
Fixpoint step_back_to_weekday (fuel : nat) (d : datetime) (wd : Z)
  : result datetime :=
  if negb (weekday d =? wd) then
    match fuel with
    | O => OutOfFuel
    | S fuel' =>
        let? d' := sub_days d 1 in step_back_to_weekday fuel' d' wd
    end
  else Ok d.

Definition get_nth_weekday_of_month (fuel : nat) (year month wd nth : Z)
  : result datetime :=
  let? d := datetime_ymd year month 1 in
  let? d := step_forward_to_weekday fuel d wd in
  (* timedelta(weeks=nth-1) *)
  add_days d (7 * (nth - 1)).

Definition get_last_weekday_of_month (fuel : nat) (year month wd : Z)
  : result datetime :=
  let? days_in_month := monthrange_days year month in
  let? d := datetime_ymd year month days_in_month in
  step_back_to_weekday fuel d wd.

Definition get_easter_date (year : Z) : result datetime :=
  let a := year mod 19 in
  let b := year / 100 in
  let c := year mod 100 in
  let d := b / 4 in
  let e := b mod 4 in
  let f := (b + 8) / 25 in
  let g := (b - f + 1) / 3 in
  let h := (19 * a + b - d - g + 15) mod 30 in
  let i := c / 4 in
  let k := c mod 4 in
  let l := (32 + 2 * e + 2 * i - h - k) mod 7 in
  let m := (a + 11 * h + 22 * l) / 451 in
  let month := (h + l - 7 * m + 114) / 31 in
  let day := ((h + l - 7 * m + 114) mod 31) + 1 in
  datetime_ymd year month day.

Definition get_holiday_date (fuel : nat) (year : Z) (holiday_name : string)
  : result datetime :=
  if (holiday_name =? "New Year's Day")%string then
    get_fixed_date year 1 1
  else if (holiday_name =? "Martin Luther King Jr. Day")%string then
    get_nth_weekday_of_month fuel year 1 0 3
  else if (holiday_name =? "Presidents' Day")%string then
    get_nth_weekday_of_month fuel year 2 0 3
  else if (holiday_name =? "Easter")%string then
    get_easter_date year
  else if (holiday_name =? "Memorial Day")%string then
    get_last_weekday_of_month fuel year 5 0
  else if (holiday_name =? "Juneteenth")%string then
    get_fixed_date year 6 19
  else if (holiday_name =? "Independence Day")%string then
    get_fixed_date year 7 4
  else if (holiday_name =? "Labor Day")%string then
    get_nth_weekday_of_month fuel year 9 0 1
  else if (holiday_name =? "Columbus Day")%string then
    get_nth_weekday_of_month fuel year 10 0 2
  else if (holiday_name =? "Halloween")%string then
    get_fixed_date year 10 31
  else if (holiday_name =? "Veterans Day")%string then
    get_fixed_date year 11 11
  else if (holiday_name =? "Thanksgiving")%string then
    get_nth_weekday_of_month fuel year 11 3 4
  else if (holiday_name =? "Christmas")%string then
    get_fixed_date year 12 25
  else
    Raise (ValueError ("Unknown holiday: " ++ holiday_name)).

(** The helper nested in [run_search]. *)
Definition get_date_range (base_date : datetime) (delta : Z)
  : result (datetime * datetime) :=
  if delta =? 0 then
    let? day_start :=
      datetime_ymd (year base_date) (month base_date) (day base_date) in
    let? day_end := add_days day_start 1 in
    Ok (day_start, day_end)
  else
    let? lo := sub_days base_date delta in
    let? hi := add_days base_date delta in
    Ok (lo, hi).

(** ** The ecclesiastical definition of Easter, for comparison

    Easter Sunday is the first Sunday strictly after the Paschal full moon,
    the ecclesiastical full moon falling on or after 21 March.  The moon's
    age comes from the golden number and the epact with the Gregorian solar
    and lunar corrections; the Sunday is found on the calendar itself. *)
Definition paschal_full_moon (year : Z) : Z :=
  let golden := year mod 19 + 1 in
  let century := year / 100 + 1 in
  let solar := 3 * century / 4 - 12 in
  let lunar := (8 * century + 5) / 25 - 5 in
  let epact0 := (11 * golden + 20 + lunar - solar) mod 30 in
  let epact :=
    if ((epact0 =? 25) && (11 <? golden)) || (epact0 =? 24)
    then epact0 + 1 else epact0 in
  let n := 44 - epact in
  (* day of March, running into April when above 31 *)
  if n <? 21 then n + 30 else n.

Definition easter_sunday (year : Z) : Z * Z * Z :=
  let moon := ymd2ord year 3 1 + (paschal_full_moon year - 1) in
  (* ordinals divisible by 7 are Sundays *)
  ord2ymd (moon + 7 - moon mod 7).

(** Easter dates as published, for years whose date is a matter of record. *)
Definition PUBLISHED_EASTER : list (Z * (Z * Z)) :=
  [ (1818, (3, 22)); (1886, (4, 25)); (1943, (4, 25)); (1954, (4, 18));
    (1961, (4, 2));  (1981, (4, 19)); (2000, (4, 23)); (2008, (3, 23));
    (2011, (4, 24)); (2016, (3, 27)); (2019, (4, 21)); (2020, (4, 12));
    (2021, (4, 4));  (2022, (4, 17)); (2023, (4, 9));  (2024, (3, 31));
    (2025, (4, 20)); (2038, (4, 25)) ].

(** A bounded universal check: [p] holds at [lo], [lo+1], ..., [n] values. *)
Fixpoint forall_from (n : nat) (lo : Z) (p : Z -> bool) : bool :=
  match n with
  | O => true
  | S n' => p lo && forall_from n' (lo + 1) p
  end.

(** What [get_easter_date] is compared with, year by year. *)
Definition easter_agrees (year : Z) : bool :=
  match get_easter_date year with
  | Ok d =>
      let '(y, m, dd) := easter_sunday year in
      (PyDatetime.year d =? y) && (month d =? m) && (day d =? dd)
      && (PyDatetime.year d =? year)
      && (hour d =? 0) && (minute d =? 0) && (second d =? 0)
      && (microsecond d =? 0)
      && wf_datetime d && (weekday d =? 6)
  | _ => false
  end.

(** ** Auxiliary definitions for the calendar proofs *)

(** The tail of [ord2ymd]: month and day from the 0-based day of the year. *)
Definition month_day_of (leapyear : bool) (n : Z) : Z * Z :=
  let month := Z.shiftr (n + 50) 5 in
  let preceding :=
    DAYS_BEFORE_MONTH month + (if (2 <? month) && leapyear then 1 else 0) in
  if n <? preceding then
    let month := month - 1 in
    let preceding :=
      preceding
      - (DAYS_IN_MONTH month + (if (month =? 2) && leapyear then 1 else 0)) in
    (month, n - preceding + 1)
  else (month, n - preceding + 1).

Definition month_day_ok (leapyear : bool) (n : Z) : bool :=
  let '(m, d) := month_day_of leapyear n in
  (1 <=? m) && (m <=? 12) && (1 <=? d)
  && (d <=? (if (m =? 2) && leapyear then 29 else DAYS_IN_MONTH m))
  && (DAYS_BEFORE_MONTH m + (if (2 <? m) && leapyear then 1 else 0) + d
      =? n + 1).

(* ===================================================================== *)
(** * Python's [str] methods, [re] patterns and [urllib.parse] (fragments)

    Strings are sequences of 8-bit characters; case mapping and white
    space follow Python on the ASCII range. *)
(* ===================================================================== *)

Module PyStr.
Local Open Scope nat_scope.

Definition code (c : ascii) : nat := nat_of_ascii c.

(** [c.isspace()] on ASCII: TAB, LF, VT, FF, CR, FS, GS, RS, US and space. *)
Definition is_space (c : ascii) : bool :=
  let n := code c in
  ((9 <=? n) && (n <=? 13)) || ((28 <=? n) && (n <=? 32)).

Definition is_digit (c : ascii) : bool :=
  let n := code c in (48 <=? n) && (n <=? 57).
Definition is_upper (c : ascii) : bool :=
  let n := code c in (65 <=? n) && (n <=? 90).
Definition is_lower (c : ascii) : bool :=
  let n := code c in (97 <=? n) && (n <=? 122).
Definition is_alpha (c : ascii) : bool := is_upper c || is_lower c.

(** The character class [[0-9a-fA-F]]. *)
Definition is_hex (c : ascii) : bool :=
  let n := code c in
  is_digit c || ((97 <=? n) && (n <=? 102)) || ((65 <=? n) && (n <=? 70)).

Definition lower_char (c : ascii) : ascii :=
  if is_upper c then ascii_of_nat (code c + 32) else c.

(** [s.lower()] *)
Fixpoint lower (s : string) : string :=
  match s with
  | EmptyString => EmptyString
  | String c s' => String (lower_char c) (lower s')
  end.

(** [s.lstrip(chars)], the characters to drop given as a predicate. *)
Fixpoint lstrip_with (p : ascii -> bool) (s : string) : string :=
  match s with
  | EmptyString => EmptyString
  | String c s' => if p c then lstrip_with p s' else s
  end.

(** [s.rstrip(chars)] *)
Fixpoint rstrip_with (p : ascii -> bool) (s : string) : string :=
  match s with
  | EmptyString => EmptyString
  | String c s' =>
      match rstrip_with p s' with
      | EmptyString => if p c then EmptyString else String c EmptyString
      | r => String c r
      end
  end.

(** [s.strip()] *)
Definition strip (s : string) : string :=
  rstrip_with is_space (lstrip_with is_space s).

(** [s.rstrip("/")] *)
Definition rstrip_slash (s : string) : string :=
  rstrip_with (Ascii.eqb "/") s.

(** [s.replace(a, b)] for single characters [a] and [b]. *)
Fixpoint replace_char (a b : ascii) (s : string) : string :=
  match s with
  | EmptyString => EmptyString
  | String c s' =>
      String (if Ascii.eqb c a then b else c) (replace_char a b s')
  end.

(** [s.replace(a, "")] over a class of characters. *)
Fixpoint remove_chars (p : ascii -> bool) (s : string) : string :=
  match s with
  | EmptyString => EmptyString
  | String c s' =>
      if p c then remove_chars p s' else String c (remove_chars p s')
  end.

(** [s.split(sep)] for a single character [sep]: never empty. *)
Fixpoint split_on (sep : ascii) (s : string) : list string :=
  match s with
  | EmptyString => [EmptyString]
  | String c s' =>
      if Ascii.eqb c sep then EmptyString :: split_on sep s'
      else match split_on sep s' with
           | h :: t => String c h :: t
           | [] => [String c EmptyString]
           end
  end.

(** The text before the first character in the class [p], and the text
    from that character on (empty when there is none). *)
Fixpoint break_at (p : ascii -> bool) (s : string) : string * string :=
  match s with
  | EmptyString => (EmptyString, EmptyString)
  | String c s' =>
      if p c then (EmptyString, s)
      else let '(a, b) := break_at p s' in (String c a, b)
  end.

Fixpoint all_chars (p : ascii -> bool) (s : string) : bool :=
  match s with
  | EmptyString => true
  | String c s' => p c && all_chars p s'
  end.

Fixpoint any_char (p : ascii -> bool) (s : string) : bool :=
  match s with
  | EmptyString => false
  | String c s' => p c || any_char p s'
  end.

(** [s[:n]] and [s[n:]] *)
Fixpoint take (n : nat) (s : string) : string :=
  match n, s with
  | S n', String c s' => String c (take n' s')
  | _, _ => EmptyString
  end.

Fixpoint drop (n : nat) (s : string) : string :=
  match n, s with
  | S n', String _ s' => drop n' s'
  | _, _ => s
  end.

(** Truthiness of a string. *)
Definition nonempty (s : string) : bool :=
  match s with EmptyString => false | _ => true end.

(** [sep.join(l)] *)
Definition join (sep : string) (l : list string) : string :=
  String.concat sep l.

(** [str(n)] for an integer. *)
Definition str_of_Z (n : Z) : string :=
  DecimalString.NilZero.string_of_int (Z.to_int n).

(** ["%0<w>d" % n] for a non-negative [n]. *)
Definition zero_pad (w : nat) (n : Z) : string :=
  let s := str_of_Z n in
  String.concat EmptyString (repeat "0"%string (w - String.length s)) ++ s.

End PyStr.

(** ** Regular expressions of the program *)

Module PyRe.
Import PyStr.

(** An item of a pattern made of single-character classes. *)
Inductive item := Hex | Hyphen.

Definition item_matches (i : item) (c : ascii) : bool :=
  match i with
  | Hex => is_hex c
  | Hyphen => Ascii.eqb c "-"
  end.

(** Match a sequence of items at the start of [s]; the remainder. *)
Fixpoint match_items (pat : list item) (s : string) : option string :=
  match pat with
  | [] => Some s
  | i :: pat' =>
      match s with
      | String c s' => if item_matches i c then match_items pat' s' else None
      | EmptyString => None
      end
  end.

(** [[0-9a-fA-F]{8}-[0-9a-fA-F]{4}-[0-9a-fA-F]{4}-[0-9a-fA-F]{4}-[0-9a-fA-F]{12}] *)
Definition UUID_ITEMS : list item :=
  repeat Hex 8 ++ [Hyphen] ++ repeat Hex 4 ++ [Hyphen] ++ repeat Hex 4
  ++ [Hyphen] ++ repeat Hex 4 ++ [Hyphen] ++ repeat Hex 12.

(** [$] matches at the end of the string and also just before a newline
    that ends the string. *)
Definition at_dollar (rest : string) : bool :=
  match rest with
  | EmptyString => true
  | String c EmptyString => Ascii.eqb c "010"
  | _ => false
  end.

(** [re.match(r"^([0-9a-fA-F-]{36})", s)]: group 1 when it matches. *)
Definition match_uuid_prefix (s : string) : option string :=
  let g := take 36 s in
  if (String.length g =? 36)%nat
     && all_chars (fun c => is_hex c || Ascii.eqb c "-") g
  then Some g else None.

End PyRe.

(** [UUID_PATTERN.match(s)] as a truth value. *)
Definition UUID_PATTERN_match (s : string) : bool :=
  match PyRe.match_items PyRe.UUID_ITEMS s with
  | Some rest => PyRe.at_dollar rest
  | None => false
  end.

(** ** [urllib.parse.urlsplit] and [urlunsplit]

    After CPython 3.12.  The validation of a bracketed host and the NFKC
    check of the netloc, which raise [ValueError] and depend only on the
    netloc, are the parameter [netloc_ok]. *)

Module PyUrl.
Import PyStr.
Local Open Scope nat_scope.

Record SplitResult : Type := mk_split {
  scheme : string; netloc : string; path : string;
  query : string; fragment : string
}.

(** [_WHATWG_C0_CONTROL_OR_SPACE] *)
Definition is_c0_or_space (c : ascii) : bool := code c <=? 32.

(** [_UNSAFE_URL_BYTES_TO_REMOVE]: TAB, CR, LF *)
Definition is_unsafe (c : ascii) : bool :=
  let n := code c in (n =? 9) || (n =? 13) || (n =? 10).

(** [scheme_chars]: letters, digits and [+-.] *)
Definition is_scheme_char (c : ascii) : bool :=
  is_alpha c || is_digit c
  || Ascii.eqb c "+" || Ascii.eqb c "-" || Ascii.eqb c ".".

Definition is_netloc_delim (c : ascii) : bool :=
  Ascii.eqb c "/" || Ascii.eqb c "?" || Ascii.eqb c "#".

(** The scheme, when the text before the first colon is one. *)
Definition split_scheme (url : string) : string * string :=
  let '(pre, rest) := break_at (Ascii.eqb ":") url in
  match pre, rest with
  | String c0 _, String _ after =>
      if is_alpha c0 && all_chars is_scheme_char pre
      then (lower pre, after) else (EmptyString, url)
  | _, _ => (EmptyString, url)
  end.

Definition brackets_unbalanced (netloc : string) : bool :=
  let has_open := any_char (Ascii.eqb "[") netloc in
  let has_close := any_char (Ascii.eqb "]") netloc in
  (has_open && negb has_close) || (has_close && negb has_open).

(** [url.split(c, 1)] when [c] occurs in [url]. *)
Definition split_once (c : ascii) (url : string) : string * string :=
  let '(a, b) := break_at (Ascii.eqb c) url in
  match b with
  | String _ b' => (a, b')
  | EmptyString => (a, EmptyString)
  end.

Definition urlsplit (netloc_ok : string -> bool) (url : string)
  : result SplitResult :=
  let url := lstrip_with is_c0_or_space url in
  let url := remove_chars is_unsafe url in
  let '(scheme, url) := split_scheme url in
  let finish (netloc url : string) : result SplitResult :=
    let '(url, fragment) := split_once "#" url in
    let '(url, query) := split_once "?" url in
    if netloc_ok netloc then Ok (mk_split scheme netloc url query fragment)
    else Raise (ValueError "netloc contains invalid characters") in
  match url with
  | String "/" (String "/" after) =>
      let '(netloc, url) := break_at is_netloc_delim after in
      if brackets_unbalanced netloc then
        Raise (ValueError "Invalid IPv6 URL")
      else finish netloc url
  | _ => finish EmptyString url
  end.

(** The schemes of [uses_netloc]. *)
Definition uses_netloc : list string :=
  [ ""; "ftp"; "http"; "gopher"; "nntp"; "telnet"; "imap"; "wais"; "file";
    "mms"; "https"; "shttp"; "snews"; "prospero"; "rtsp"; "rtsps"; "rtspu";
    "rsync"; "svn"; "svn+ssh"; "sftp"; "nfs"; "git"; "git+ssh"; "ws";
    "wss"; "itms-services" ]%string.

Definition starts_with_two_slashes (s : string) : bool :=
  match s with
  | String "/" (String "/" _) => true
  | _ => false
  end.

Definition urlunsplit (p : SplitResult) : string :=
  let url := path p in
  let url :=
    if nonempty (netloc p)
       || (nonempty (scheme p)
           && existsb (String.eqb (scheme p)) uses_netloc
           && negb (starts_with_two_slashes url))
    then
      let url :=
        match url with
        | String "/" _ | EmptyString => url
        | _ => String "/" url
        end in
      ("//" ++ netloc p ++ url)%string
    else url in
  let url :=
    if nonempty (scheme p) then (scheme p ++ ":" ++ url)%string else url in
  let url :=
    if nonempty (query p) then (url ++ "?" ++ query p)%string else url in
  if nonempty (fragment p) then (url ++ "#" ++ fragment p)%string else url.

End PyUrl.

(* ===================================================================== *)
(** * JSON values *)
(* ===================================================================== *)

#[warnings="-register-all"]
Inductive json : Type :=
  | JNull
  | JBool (b : bool)
  | JNum (n : Z)
  | JStr (s : string)
  | JList (l : list json)
  | JObj (fields : list (string * json)).

(* ===================================================================== *)
(** * App config helpers *)
(* ===================================================================== *)

Import PyStr.

Definition _normalize_api_base_url (netloc_ok : string -> bool) (value : json)
  : string :=
  match value with
  | JStr value =>
      let url := strip value in
      if negb (nonempty url) then ""
      else
        let url := rstrip_slash url in
        match PyUrl.urlsplit netloc_ok url with
        | Raise (ValueError _) => url
        | Ok parts =>
            if ((PyUrl.scheme parts =? "http")%string
                || (PyUrl.scheme parts =? "https")%string)
               && nonempty (PyUrl.netloc parts)
            then
              let path := rstrip_slash (PyUrl.path parts) in
              if (path =? "")%string || (path =? "/")%string then
                rstrip_slash
                  (PyUrl.urlunsplit
                     (PyUrl.mk_split (PyUrl.scheme parts) (PyUrl.netloc parts)
                                     "/api" "" ""))
              else url
            else url
        | _ => url
        end
  | _ => ""
  end.

(** Character classes used to describe what [urlsplit] returns. *)
Definition safe_char (c : ascii) : bool := negb (PyUrl.is_unsafe c).
Definition host_char (c : ascii) : bool := negb (PyUrl.is_netloc_delim c).

(** The part of [_normalize_api_base_url] that follows the trimming, as a
    function of the trimmed URL. *)
Definition normalize_trimmed (netloc_ok : string -> bool) (url : string)
  : string :=
  match PyUrl.urlsplit netloc_ok url with
  | Raise (ValueError _) => url
  | Ok parts =>
      if ((PyUrl.scheme parts =? "http")%string
          || (PyUrl.scheme parts =? "https")%string)
         && nonempty (PyUrl.netloc parts)
      then
        let path := rstrip_slash (PyUrl.path parts) in
        if (path =? "")%string || (path =? "/")%string then
          rstrip_slash
            (PyUrl.urlunsplit
               (PyUrl.mk_split (PyUrl.scheme parts) (PyUrl.netloc parts)
                               "/api" "" ""))
        else url
      else url
  | _ => url
  end.

(** [d.isoformat(sep)] *)
Definition datetime_isoformat (sep : string) (d : datetime) : string :=
  (zero_pad 4 (year d) ++ "-" ++ zero_pad 2 (month d) ++ "-"
   ++ zero_pad 2 (day d) ++ sep
   ++ zero_pad 2 (hour d) ++ ":" ++ zero_pad 2 (minute d) ++ ":"
   ++ zero_pad 2 (second d)
   ++ (if (microsecond d =? 0)%Z then ""
       else "." ++ zero_pad 6 (microsecond d)))%string.

(** [range(lo, hi)] *)
Definition py_range (lo hi : Z) : list Z :=
  map (fun i => lo + Z.of_nat i) (seq 0 (Z.to_nat (hi - lo))).

(** [sorted] on strings. *)
Module StringOrder <: TotalLeBool.
Definition t := string.
Definition leb := String.leb.
Definition leb_total := String.leb_total.
End StringOrder.

Module StringSort := Sort StringOrder.

(* ===================================================================== *)
(** * The asset repository and the world the worker runs in *)
(* ===================================================================== *)

(** Objects of the repository API, with the fields the program reads.  A
    field the program reads with [.get] may be missing. *)
Record person : Type := mk_person {
  person_id : option string;
  person_name : option string
}.

Record album : Type := mk_album {
  album_id : string;
  album_albumName : option string
}.

(** The requests the program issues. *)
Inductive request : Type :=
  | GetAlbums (url : string)
  | PostAlbum (url : string) (albumName : string)
  | PutAlbumAssets (url : string) (ids : list string)
  | GetSearchPerson (url : string) (name : string) (withHidden : bool)
  | PostSearchMetadata (url : string) (payload : gmap string json).

(** A call either fails ([requests.RequestException], transport errors and
    the non-2xx statuses [raise_for_status] rejects) or answers. *)
Inductive http_result (A : Type) : Type :=
  | HttpOk (status : Z) (body : A)
  | HttpError (msg : string).
Arguments HttpOk {A} status body.
Arguments HttpError {A} msg.

(** What surrounds the worker: the repository (a state machine answering
    each kind of request), the cancellation flag as the other thread sets
    it (its value after [n] requests have completed; [run_search] clears it
    on entry), the configured base URL, and the library functions the
    program calls on text. *)
Record Env : Type := mk_env {
  srv : Type;
  list_albums : srv -> srv * http_result (list album);
  create_album : srv -> string -> srv * http_result album;
  put_album_assets : srv -> string -> list string -> srv * http_result unit;
  search_person : srv -> string -> bool -> srv * http_result (list person);
  search_metadata : srv -> gmap string json -> srv * http_result (list string);
  stop_flag : nat -> bool;
  API_BASE_URL : string;
  json_loads : string -> string + json;
  json_dumps : json -> string;
  strptime_ymd : string -> result datetime
}.

(** What the worker does that the outside can observe.  A request records
    whether the cancellation flag was set when it was issued. *)
Inductive event : Type :=
  | EvRequest (flag_set : bool) (req : request)
  | EvLog (text : string)
  | EvStatus (text : string)
  | EvProgress (value max_value : Z).

Record world (E : Env) : Type := mk_world {
  server : srv E;
  clock : nat;
  trace : list event
}.
Arguments mk_world {E} server clock trace.
Arguments server {E} w.
Arguments clock {E} w.
Arguments trace {E} w.

(** Computations of the worker: state passing over the world, with the
    outcomes of [result]. *)
Definition M (E : Env) (A : Type) : Type := world E -> result A * world E.

Definition ret {E A} (a : A) : M E A := fun w => (Ok a, w).

Definition bind {E A B} (m : M E A) (k : A -> M E B) : M E B :=
  fun w =>
    match m w with
    | (Ok a, w') => k a w'
    | (Raise e, w') => (Raise e, w')
    | (OutOfFuel, w') => (OutOfFuel, w')
    end.

Notation "'let!' x ':=' m 'in' k" := (bind m (fun x => k))
  (at level 20, x pattern, m at level 100, k at level 200).
Notation "m ';;' k" := (bind m (fun _ => k))
  (at level 100, k at level 200, right associativity).

Definition raise {E A} (e : exn) : M E A := fun w => (Raise e, w).

Definition out_of_fuel {E A} : M E A := fun w => (OutOfFuel, w).

Definition lift {E A} (r : result A) : M E A := fun w => (r, w).

(** [try: m  except <class> as e: h e] for the classes [catches] accepts. *)
Definition try_except {E A} (catches : exn -> bool) (m : M E A)
  (h : exn -> M E A) : M E A :=
  fun w =>
    match m w with
    | (Raise e, w') => if catches e then h e w' else (Raise e, w')
    | r => r
    end.

(** [try: m  finally: f] *)
Definition try_finally {E A} (m : M E A) (f : M E unit) : M E A :=
  fun w =>
    let '(r, w') := m w in
    match f w' with
    | (Ok _, w'') => (r, w'')
    | (Raise e, w'') => (Raise e, w'')
    | (OutOfFuel, w'') => (OutOfFuel, w'')
    end.

Definition emit {E} (ev : event) : M E unit :=
  fun w => (Ok tt, mk_world (server w) (clock w) (trace w ++ [ev])%list).

(** [stop_event.is_set()] *)
Definition stop_event_is_set {E} : M E bool :=
  fun w => (Ok (stop_flag E (clock w)), w).

(** One HTTP exchange: the request is issued, the repository answers and
    moves on, and the worker has waited for one request. *)
Definition http {E A} (req : request)
  (handler : srv E -> srv E * http_result A) : M E (http_result A) :=
  fun w =>
    let '(s', r) := handler (server w) in
    (Ok r,
     mk_world s' (S (clock w))
              (trace w ++ [EvRequest (stop_flag E (clock w)) req])%list).

Definition str_of_exn (e : exn) : string :=
  match e with
  | ValueError msg | OverflowError msg | TypeError msg
  | RequestException msg => msg
  end.

Definition is_ValueError (e : exn) : bool :=
  match e with ValueError _ => true | _ => false end.

(* ===================================================================== *)
(** * Logging and status functions *)
(* ===================================================================== *)

Definition log_message {E} (message : string) : M E unit :=
  emit (EvLog message).

Definition set_status {E} (text : string) : M E unit :=
  emit (EvStatus text).

Definition set_progress {E} (value max_value : Z) : M E unit :=
  emit (EvProgress value max_value).

(* ===================================================================== *)
(** * API interaction functions *)
(* ===================================================================== *)

(** The [except requests.RequestException] clause every call site has. *)
Definition request_failed {E A} (what msg : string) : M E A :=
  let error_msg := (what ++ msg)%string in
  log_message error_msg ;;
  set_status error_msg ;;
  raise (RequestException msg).

Definition find_or_create_album {E} (album_name : string) : M E string :=
  let url := (API_BASE_URL E ++ "/albums")%string in
  log_message ("GET " ++ url) ;;
  let! r := http (GetAlbums url) (list_albums E) in
  match r with
  | HttpError msg => request_failed "Failed to fetch albums: " msg
  | HttpOk status albums =>
      log_message ("Response: " ++ str_of_Z status) ;;
      match
        find (fun a =>
                match album_albumName a with
                | Some n => (n =? album_name)%string
                | None => false
                end) albums
      with
      | Some a =>
          log_message ("Found existing album for " ++ album_name ++ ": "
                       ++ album_id a) ;;
          ret (album_id a)
      | None =>
          let payload :=
            JObj [("albumName", JStr album_name); ("assetIds", JList [])] in
          log_message ("POST " ++ url ++ " with payload: "
                       ++ json_dumps E payload) ;;
          let! r := http (PostAlbum url album_name)
                         (fun s => create_album E s album_name) in
          match r with
          | HttpError msg => request_failed "Failed to create album: " msg
          | HttpOk _ new_album =>
              log_message ("Created new album for " ++ album_name ++ ": "
                           ++ album_id new_album) ;;
              ret (album_id new_album)
          end
      end
  end.

Definition search_people_by_name {E} (name : string) (with_hidden : bool)
  : M E (list person) :=
  let url := (API_BASE_URL E ++ "/search/person")%string in
  log_message ("GET " ++ url ++ " (person search)") ;;
  let! r := http (GetSearchPerson url name with_hidden)
                 (fun s => search_person E s name with_hidden) in
  match r with
  | HttpError msg => request_failed "Failed to search people: " msg
  | HttpOk _ people => ret people
  end.

(** The request payload of one page of the metadata search: the defaults,
    then the caller's filters, then the engine's keys. *)
Definition metadata_payload (additional_filters : gmap string json)
  (start_date end_date : datetime) (page_size current_page : Z)
  : gmap string json :=
  let payload : gmap string json := {[ "withDeleted" := JBool false ]} in
  let payload := additional_filters ∪ payload in
  <[ "page" := JNum current_page ]>
    (<[ "size" := JNum page_size ]>
       (<[ "takenBefore" := JStr (datetime_isoformat "T" end_date) ]>
          (<[ "takenAfter" := JStr (datetime_isoformat "T" start_date) ]>
             payload))).

(** The [while True] loop of [search_assets_by_date_range]; one unit of
    [fuel] per page requested. *)
Fixpoint search_pages {E} (fuel : nat) (start_date end_date : datetime)
  (additional_filters : gmap string json) (page_size current_page : Z)
  (all_asset_ids : list string) : M E (option (list string)) :=
  let! stop := stop_event_is_set in
  if stop then
    log_message "Search interrupted by user." ;;
    ret None
  else
    match fuel with
    | O => out_of_fuel
    | S fuel' =>
        let payload :=
          metadata_payload additional_filters start_date end_date
                           page_size current_page in
        let url := (API_BASE_URL E ++ "/search/metadata")%string in
        log_message ("POST " ++ url ++ " with payload: "
                     ++ json_dumps E (JObj (map_to_list payload))) ;;
        let! r := http (PostSearchMetadata url payload)
                       (fun s => search_metadata E s payload) in
        match r with
        | HttpError msg => request_failed "Failed to search assets: " msg
        | HttpOk status assets =>
            log_message ("Response: " ++ str_of_Z status) ;;
            match assets with
            | [] => ret (Some all_asset_ids)
            | _ =>
                let all_asset_ids := (all_asset_ids ++ assets)%list in
                if Z.of_nat (length assets) <? page_size then
                  ret (Some all_asset_ids)
                else
                  search_pages fuel' start_date end_date additional_filters
                               page_size (current_page + 1) all_asset_ids
            end
        end
    end.

Definition search_assets_by_date_range {E} (fuel : nat)
  (start_date end_date : datetime) (additional_filters : gmap string json)
  : M E (list string) :=
  let page_size := 100 in
  let current_page := 1 in
  let! found := search_pages fuel start_date end_date additional_filters
                             page_size current_page [] in
  match found with
  | None => ret []
  | Some all_asset_ids =>
      log_message ("Found " ++ str_of_Z (Z.of_nat (length all_asset_ids))
                   ++ " total assets in the date range "
                   ++ datetime_isoformat " " start_date ++ " - "
                   ++ datetime_isoformat " " end_date) ;;
      ret all_asset_ids
  end.

Definition add_assets_to_album {E} (album_id : string)
  (asset_ids : list string) : M E Z :=
  match asset_ids with
  | [] => log_message "No assets to add to album." ;; ret 0
  | _ =>
      let payload := JObj [("ids", JList (map JStr asset_ids))] in
      let url := (API_BASE_URL E ++ "/albums/" ++ album_id ++ "/assets")%string in
      log_message ("PUT " ++ url ++ " with payload: " ++ json_dumps E payload) ;;
      let! r := http (PutAlbumAssets url asset_ids)
                     (fun s => put_album_assets E s album_id asset_ids) in
      match r with
      | HttpError msg => request_failed "Failed to add assets to album: " msg
      | HttpOk _ _ =>
          log_message ("Added " ++ str_of_Z (Z.of_nat (length asset_ids))
                       ++ " assets to album " ++ album_id ++ ".") ;;
          ret (Z.of_nat (length asset_ids))
      end
  end.

(* ===================================================================== *)
(** * Advanced search helpers *)
(* ===================================================================== *)

(** The double quote character, as a string. *)
Definition dquote : string := String (ascii_of_nat 34) EmptyString.

(** Returns the filters and an error message, one of them empty. *)
Definition parse_additional_filters_json (E : Env) (filters_text : string)
  : gmap string json * option string :=
  if negb (nonempty filters_text) || negb (nonempty (strip filters_text))
  then (∅, None)
  else
    match json_loads E filters_text with
    | inl e => (∅, Some ("Invalid JSON for additional filters: " ++ e)%string)
    | inr (JObj fields) =>
        (* a later duplicate of a key replaces an earlier one *)
        (list_to_map (rev fields), None)
    | inr _ =>
        (∅, Some ("Additional filters must be a JSON object (e.g. {"
                  ++ dquote ++ "isFavorite" ++ dquote ++ ": true}).")%string)
    end.

(** The body of the loop over [parts]: the token a part contributes. *)
Definition token_of_part (part : string) : option string :=
  if negb (nonempty part) then None
  else
    let candidate := strip (fst (break_at (Ascii.eqb "#") part)) in
    if negb (nonempty candidate) then None
    else
      match PyRe.match_uuid_prefix candidate with
      | Some possible_uuid =>
          if UUID_PATTERN_match possible_uuid then Some possible_uuid
          else Some candidate
      | None => Some candidate
      end.

Definition parse_people_input (people_text : string) : list string :=
  if negb (nonempty people_text) then []
  else
    let normalized := replace_char "010" "," people_text in
    let parts := map strip (split_on "," normalized) in
    omap token_of_part parts.

(** [str(p.get("name", "")).strip().lower() == token_lower] *)
Definition is_exact_match (token_lower : string) (p : person) : bool :=
  (lower (strip (default "" (person_name p))) =? token_lower)%string.

(** [sorted({p.get("name", "") for p in matches if p.get("name")})] *)
Definition match_names_of (matches : list person) : list string :=
  let names : gset string :=
    list_to_set
      (omap (fun p =>
               match person_name p with
               | Some n => if nonempty n then Some n else None
               | None => None
               end) matches) in
  StringSort.sort (elements names).

(** Lines 434-456: the person a name token stands for, given the
    candidates the name search returned. *)
Definition choose_person (token : string) (matches : list person)
  : result person :=
  match matches with
  | [] => Raise (ValueError ("No person found matching '" ++ token ++ "'."))
  | _ =>
      let token_lower := lower token in
      let exact_matches := filter (fun p => is_exact_match token_lower p = true)
                                  matches in
      match exact_matches, matches with
      | [person], _ => Ok person
      | _, [person] => Ok person
      | _, _ =>
          let match_names := join ", " (match_names_of matches) in
          Raise (ValueError
                   ("Person name '" ++ token ++ "' is ambiguous. Matches: "
                    ++ match_names
                    ++ ". Use a more specific name or paste the person UUID."))
      end
  end.

(** The loop of [resolve_person_ids] over the tokens. *)
Fixpoint resolve_tokens {E} (with_hidden : bool) (tokens : list string)
  (resolved_ids : list string) (seen : gset string) : M E (list string) :=
  match tokens with
  | [] => ret resolved_ids
  | token :: tokens' =>
      let! stop := stop_event_is_set in
      if stop then ret []
      else if UUID_PATTERN_match token then
        let person_id := token in
        if decide (person_id ∈ seen) then
          resolve_tokens with_hidden tokens' resolved_ids seen
        else
          resolve_tokens with_hidden tokens' (resolved_ids ++ [person_id])%list
                         ({[ person_id ]} ∪ seen)
      else
        let! matches := search_people_by_name token with_hidden in
        let! person := lift (choose_person token matches) in
        match person_id person with
        | Some (String c s) =>
            let person_id := String c s in
            if decide (person_id ∈ seen) then
              resolve_tokens with_hidden tokens' resolved_ids seen
            else
              resolve_tokens with_hidden tokens'
                             (resolved_ids ++ [person_id])%list
                             ({[ person_id ]} ∪ seen)
        | _ =>
            raise (ValueError ("Person search result missing id for '"
                               ++ token ++ "'."))
        end
  end.

Definition resolve_person_ids {E} (people_text : string) (with_hidden : bool)
  : M E (list string) :=
  let tokens := parse_people_input people_text in
  match tokens with
  | [] => ret []
  | _ => resolve_tokens with_hidden tokens [] ∅
  end.

(** [filters = dict(additional_filters or {}); filters["personIds"] = [id]] *)
Definition with_person (additional_filters : gmap string json)
  (person_id : string) : gmap string json :=
  <[ "personIds" := JList [JStr person_id] ]> additional_filters.

(** The loop of the "all" branch; [None] is the early [return []]. *)
Fixpoint intersect_people {E} (fuel : nat) (start_date end_date : datetime)
  (additional_filters : gmap string json) (person_ids : list string)
  (intersection : option (gset string)) : M E (option (option (gset string))) :=
  match person_ids with
  | [] => ret (Some intersection)
  | person_id :: person_ids' =>
      let! stop := stop_event_is_set in
      if stop then ret None
      else
        let filters := with_person additional_filters person_id in
        let! found := search_assets_by_date_range fuel start_date end_date
                                                  filters in
        let ids : gset string := list_to_set found in
        let intersection :=
          match intersection with
          | None => ids
          | Some acc => acc ∩ ids
          end in
        intersect_people fuel start_date end_date additional_filters
                         person_ids' (Some intersection)
  end.

(** The loop of the "any" branch; [None] is the early [return []]. *)
Fixpoint unite_people {E} (fuel : nat) (start_date end_date : datetime)
  (additional_filters : gmap string json) (person_ids : list string)
  (union : gset string) : M E (option (gset string)) :=
  match person_ids with
  | [] => ret (Some union)
  | person_id :: person_ids' =>
      let! stop := stop_event_is_set in
      if stop then ret None
      else
        let filters := with_person additional_filters person_id in
        let! found := search_assets_by_date_range fuel start_date end_date
                                                  filters in
        unite_people fuel start_date end_date additional_filters person_ids'
                     (union ∪ list_to_set found)
  end.

Definition search_assets_for_date_range {E} (fuel : nat)
  (start_date end_date : datetime) (additional_filters : gmap string json)
  (person_ids : list string) (people_match_mode : string)
  : M E (list string) :=
  let! stop := stop_event_is_set in
  if stop then ret []
  else
    match person_ids with
    | [] =>
        search_assets_by_date_range fuel start_date end_date additional_filters
    | [person_id] =>
        search_assets_by_date_range fuel start_date end_date
                                    (with_person additional_filters person_id)
    | _ =>
        if (people_match_mode =? "all")%string then
          let! r := intersect_people fuel start_date end_date
                                     additional_filters person_ids None in
          match r with
          | None => ret []
          | Some intersection => ret (elements (default ∅ intersection))
          end
        else
          let! r := unite_people fuel start_date end_date additional_filters
                                 person_ids ∅ in
          match r with
          | None => ret []
          | Some union => ret (elements union)
          end
    end.

(* ===================================================================== *)
(** * Main logic function *)
(* ===================================================================== *)

(** [for person_id in ids: if person_id not in seen: ...] *)
Fixpoint extend_unique (ids : list string)
  (acc : list string * gset string) : list string * gset string :=
  match ids with
  | [] => acc
  | person_id :: ids' =>
      let '(combined, seen) := acc in
      if decide (person_id ∈ seen) then extend_unique ids' acc
      else extend_unique ids' ((combined ++ [person_id])%list,
                               {[ person_id ]} ∪ seen)
  end.

(** [isinstance(v, list) and all(isinstance(p, str) for p in v)] *)
Definition list_of_strings (v : json) : option (list string) :=
  match v with
  | JList l =>
      mapM (fun j => match j with JStr s => Some s | _ => None end) l
  | _ => None
  end.

(** How a loop iteration ends: it falls through with the loop's variables,
    or the function returns. *)
Inductive flow (A : Type) : Type :=
  | Next (a : A)
  | Return.
Arguments Next {A} a.
Arguments Return {A}.

(** The block that follows each cancellation check (lines 606-619,
    624-636 and 647-660): build the window, search, add to the album and
    advance the progress.  [counters] are [total_assets_added] and
    [current_progress]. *)
Definition collect {E} (fuel : nat) (status : string) (base_date : datetime)
  (delta_days : Z) (album_id : string) (additional_filters : gmap string json)
  (combined_person_ids : list string) (people_match_mode : string)
  (total_tasks : Z) (counters : Z * Z) : M E (Z * Z) :=
  let '(total_assets_added, current_progress) := counters in
  let! window := lift (get_date_range base_date delta_days) in
  let '(start_search_date, end_search_date) := window in
  set_status status ;;
  let! asset_ids :=
    search_assets_for_date_range fuel start_search_date end_search_date
                                 additional_filters combined_person_ids
                                 people_match_mode in
  let! added := add_assets_to_album album_id asset_ids in
  let total_assets_added := total_assets_added + added in
  let current_progress := current_progress + 1 in
  set_progress current_progress total_tasks ;;
  ret (total_assets_added, current_progress).

(** [for year in range(start_year, end_year + 1)] over a date that depends
    on the year. *)
Fixpoint year_loop {E} (fuel : nat) (years : list Z)
  (date_of : Z -> result datetime) (status_of : Z -> string)
  (delta_days : Z) (album_id : string) (additional_filters : gmap string json)
  (combined_person_ids : list string) (people_match_mode : string)
  (total_tasks : Z) (counters : Z * Z) : M E (flow (Z * Z)) :=
  match years with
  | [] => ret (Next counters)
  | y :: years' =>
      let! stop := stop_event_is_set in
      if stop then set_status "Operation Cancelled" ;; ret Return
      else
        let! base_date := lift (date_of y) in
        let! counters :=
          collect fuel (status_of y) base_date delta_days album_id
                  additional_filters combined_person_ids people_match_mode
                  total_tasks counters in
        year_loop fuel years' date_of status_of delta_days album_id
                  additional_filters combined_person_ids people_match_mode
                  total_tasks counters
  end.

(** [for holiday_name, album_name in selected_items.items()] *)
Fixpoint holiday_loop {E} (fuel : nat) (items : list (string * string))
  (years : list Z) (delta_days : Z) (additional_filters : gmap string json)
  (combined_person_ids : list string) (people_match_mode : string)
  (total_tasks : Z) (counters : Z * Z) : M E (flow (Z * Z)) :=
  match items with
  | [] => ret (Next counters)
  | (holiday_name, album_name) :: items' =>
      if (holiday_name =? "Specific Date")%string then
        holiday_loop fuel items' years delta_days additional_filters
                     combined_person_ids people_match_mode total_tasks counters
      else
        let! album_id := find_or_create_album album_name in
        let! r :=
          year_loop fuel years
                    (fun y => get_holiday_date fuel y holiday_name)
                    (fun y => "Searching " ++ holiday_name ++ " for "
                              ++ str_of_Z y ++ "...")%string
                    delta_days album_id additional_filters
                    combined_person_ids people_match_mode total_tasks
                    counters in
        match r with
        | Return => ret Return
        | Next counters =>
            holiday_loop fuel items' years delta_days additional_filters
                         combined_person_ids people_match_mode total_tasks
                         counters
        end
  end.

Definition has_key (k : string) (items : list (string * string)) : bool :=
  existsb (fun kv => (fst kv =? k)%string) items.

(** The task count shown by the progress bar. *)
Definition count_tasks (selected_items : list (string * string))
  (start_year end_year : Z) (specific_date_all_years : bool) : Z :=
  let total_tasks := 0 in
  let total_tasks :=
    if has_key "Specific Date" selected_items then
      if specific_date_all_years then total_tasks + (end_year - start_year + 1)
      else total_tasks + 1
    else total_tasks in
  fold_left (fun total kv =>
               if (fst kv =? "Specific Date")%string then total
               else total + (end_year - start_year + 1))
            selected_items total_tasks.

(** The body of the [try] block of [run_search]. *)
Definition run_tasks {E} (fuel : nat) (delta_days start_year end_year : Z)
  (selected_items : list (string * string))
  (specific_date_str specific_date_album_name : string)
  (specific_date_all_years : bool) (additional_filters : gmap string json)
  (combined_person_ids : list string) (people_match_mode : string)
  (total_tasks : Z) : M E unit :=
  let years := py_range start_year (end_year + 1) in
  let counters := (0, 0) in
  let! r :=
    if has_key "Specific Date" selected_items then
      let! specific_date := lift (strptime_ymd E specific_date_str) in
      let album_name := specific_date_album_name in
      let! album_id := find_or_create_album album_name in
      if specific_date_all_years then
        year_loop fuel years
                  (fun y => replace_year specific_date y)
                  (fun y => "Searching " ++ album_name ++ " for "
                            ++ str_of_Z y ++ "...")%string
                  delta_days album_id additional_filters combined_person_ids
                  people_match_mode total_tasks counters
      else
        let! stop := stop_event_is_set in
        if stop then set_status "Operation Cancelled" ;; ret Return
        else
          let! counters :=
            collect fuel ("Searching " ++ album_name ++ "...")%string
                    specific_date delta_days album_id additional_filters
                    combined_person_ids people_match_mode total_tasks
                    counters in
          ret (Next counters)
    else ret (Next counters) in
  match r with
  | Return => ret tt
  | Next counters =>
      let! r :=
        holiday_loop fuel selected_items years delta_days additional_filters
                     combined_person_ids people_match_mode total_tasks
                     counters in
      match r with
      | Return => ret tt
      | Next (total_assets_added, _) =>
          let done :=
            ("Completed: Added " ++ str_of_Z total_assets_added
             ++ " assets to "
             ++ str_of_Z (Z.of_nat (length selected_items))
             ++ " albums")%string in
          set_status done ;;
          log_message done
      end
  end.

Definition APP_CONFIG_FILE : string := "app_config.json".

(** [(people_match_mode or "any").strip().lower()], defaulting to "any". *)
Definition normalize_match_mode (people_match_mode : string) : string :=
  let m :=
    lower (strip (if nonempty people_match_mode then people_match_mode
                  else "any")) in
  if (m =? "any")%string || (m =? "all")%string then m else "any".

Definition run_search {E} (fuel : nat) (api_key : string)
  (delta_days start_year end_year : Z)
  (selected_items : list (string * string))
  (specific_date_str specific_date_album_name : string)
  (specific_date_all_years : bool)
  (people_text people_match_mode additional_filters_text : string)
  (people_with_hidden : bool) : M E unit :=
  (* stop_event.clear(): the flag of [Env] is read from here on *)
  if negb (nonempty (API_BASE_URL E)) then
    let error_msg :=
      ("API base URL is not configured. Set `api_base_url` in "
       ++ APP_CONFIG_FILE ++ ".")%string in
    set_status error_msg ;;
    log_message error_msg
  else
    set_status "Starting asset collection..." ;;
    log_message "Starting asset collection..." ;;
    let '(additional_filters, filters_error) :=
      parse_additional_filters_json E additional_filters_text in
    match filters_error with
    | Some filters_error =>
        set_status ("Error: " ++ filters_error) ;;
        log_message filters_error
    | None =>
        let people_match_mode := normalize_match_mode people_match_mode in
        let person_ids_from_filters := additional_filters !! "personIds" in
        let additional_filters := delete "personIds" additional_filters in
        let from_filters : option (list string * gset string) :=
          match person_ids_from_filters with
          | None | Some JNull => Some ([], ∅)
          | Some v =>
              match list_of_strings v with
              | Some ids => Some (extend_unique ids ([], ∅))
              | None => None
              end
          end in
        match from_filters with
        | None =>
            set_status
              "Error: additional_filters.personIds must be a list of UUID strings." ;;
            log_message
              "Invalid additional_filters: personIds must be a list of UUID strings."
        | Some acc =>
            let! resolved :=
              if nonempty people_text && nonempty (strip people_text) then
                try_except is_ValueError
                  (set_status "Resolving people filter..." ;;
                   let! resolved_ids :=
                     resolve_person_ids people_text people_with_hidden in
                   ret (Some resolved_ids))
                  (fun e =>
                     set_status ("Error: " ++ str_of_exn e) ;;
                     log_message (str_of_exn e) ;;
                     ret None)
              else ret (Some []) in
            match resolved with
            | None => ret tt
            | Some resolved_ids =>
                let '(combined_person_ids, _) :=
                  extend_unique resolved_ids acc in
                let total_tasks :=
                  count_tasks selected_items start_year end_year
                              specific_date_all_years in
                set_progress 0 total_tasks ;;
                try_finally
                  (try_except (fun _ => true)
                     (run_tasks fuel delta_days start_year end_year
                                selected_items specific_date_str
                                specific_date_album_name
                                specific_date_all_years additional_filters
                                combined_person_ids people_match_mode
                                total_tasks)
                     (fun e =>
                        set_status ("Error: " ++ str_of_exn e) ;;
                        log_message ("Error occurred: " ++ str_of_exn e)))
                  (set_progress 0 0)
            end
        end
    end.

(* ===================================================================== *)
(** * Notions of the specification *)
(* ===================================================================== *)

(** The textual form of a UUID: 36 characters, hyphens at offsets 8, 13,
    18 and 23, hexadecimal digits elsewhere. *)
Definition uuid_char_ok (s : string) (i : nat) : bool :=
  match String.get i s with
  | Some c =>
      if existsb (Nat.eqb i) [8; 13; 18; 23]%nat then Ascii.eqb c "-"
      else is_hex c
  | None => false
  end.

Definition is_uuid_text (s : string) : bool :=
  (String.length s =? 36)%nat && forallb (uuid_char_ok s) (seq 0 36).

(** The textual form of a version 4 UUID: as above, with the version digit
    4 at offset 14 and a variant digit among 8, 9, a, b at offset 19. *)
Definition is_uuid_v4_text (s : string) : bool :=
  is_uuid_text s
  && match String.get 14 s with
     | Some c => Ascii.eqb c "4"
     | None => false
     end
  && match String.get 19 s with
     | Some c => existsb (Ascii.eqb c) ["8"; "9"; "a"; "b"; "A"; "B"]%char
     | None => false
     end.

(** Keep the first occurrence of every element, in order. *)
Fixpoint dedup_first (l : list string) : list string :=
  match l with
  | [] => []
  | x :: l' => x :: filter (fun y => y <> x) (dedup_first l')
  end.

(** The text of the ambiguity error for a token and the names it lists. *)
Definition ambiguous_message (token : string) (names : list string)
  : string :=
  ("Person name '" ++ token ++ "' is ambiguous. Matches: "
   ++ join ", " names
   ++ ". Use a more specific name or paste the person UUID.")%string.

(* ===================================================================== *)
(** * An example repository *)
(* ===================================================================== *)

(** A repository without albums, where every name search returns the two
    people Jo and Jo Ann and every metadata search returns two assets; the
    cancellation flag follows [stop]. *)
Definition example_env (stop : nat -> bool) : Env :=
  {| srv := unit;
     list_albums := fun s => (s, HttpOk 200 []);
     create_album := fun s n =>
       (s, HttpOk 201 (mk_album ("album-" ++ n)%string (Some n)));
     put_album_assets := fun s _ _ => (s, HttpOk 200 tt);
     search_person := fun s _ _ =>
       (s, HttpOk 200 [mk_person (Some "p-jo") (Some "Jo");
                       mk_person (Some "p-ann") (Some "Jo Ann")]);
     search_metadata := fun s _ => (s, HttpOk 200 ["asset-1"; "asset-2"]);
     stop_flag := stop;
     API_BASE_URL := "http://immich.local/api";
     json_loads := fun _ => inl "Expecting value";
     json_dumps := fun _ => "{}";
     strptime_ymd := fun _ => Raise (ValueError "time data does not match format") |}.

(** The characters a UUID text is made of. *)
Definition uuid_class (c : ascii) : bool := is_hex c || Ascii.eqb c "-".

(** The result of the search for one person, taken in the world [w0]. *)
Definition results_for {E : Env} (fuel : nat) (start_date end_date : datetime)
  (additional_filters : gmap string json) (w0 : world E) (person_id : string)
  : result (list string) :=
  fst (search_assets_by_date_range
         fuel start_date end_date
         (with_person additional_filters person_id) w0).

(** ** What a computation sends

    [sends ok m]: whatever the world, the events [m] adds to the trace are
    appended to it, and every request among them satisfies [ok]. *)
Definition event_ok (ok : request -> Prop) (ev : event) : Prop :=
  match ev with
  | EvRequest _ req => ok req
  | _ => True
  end.

Definition sends {E A} (ok : request -> Prop) (m : M E A) : Prop :=
  forall w : world E,
    exists evs, trace (snd (m w)) = (trace w ++ evs)%list
                /\ Forall (event_ok ok) evs.

(** The person ids a caller put in the filters under [personIds]. *)
Definition filter_person_ids (filters : gmap string json) : list string :=
  match filters !! "personIds" with
  | Some v => default [] (list_of_strings v)
  | None => []
  end.

(** A metadata-search payload composed by the engine for the base filters
    [base] and the person ids [combined]: the engine's keys over the base
    filters, with at most one person id injected. *)
Definition composed_payload (base : gmap string json)
  (combined : list string) (payload : gmap string json) : Prop :=
  exists start_date end_date page filters,
    payload = metadata_payload filters start_date end_date 100 page
    /\ ((combined = [] /\ filters = base)
        \/ exists p, p ∈ combined /\ filters = with_person base p).

Definition search_request_ok (base : gmap string json)
  (combined : list string) (req : request) : Prop :=
  match req with
  | PostSearchMetadata _ payload => composed_payload base combined payload
  | _ => True
  end.

Definition not_a_search (req : request) : Prop :=
  match req with
  | PostSearchMetadata _ _ => False
  | _ => True
  end.

Definition RESERVED_KEYS : list string :=
  ["takenAfter"; "takenBefore"; "page"; "size"].

(** [sends_some ok m]: as [sends], for a parameter of [ok] that the run
    determines (the person ids it resolved). *)
Definition sends_some {E A X} (ok : X -> request -> Prop) (m : M E A) : Prop :=
  forall w : world E,
    exists x evs, trace (snd (m w)) = (trace w ++ evs)%list
                  /\ Forall (event_ok (ok x)) evs.

(** The requests of a trace that were issued while the cancellation flag
    was set, and the status texts of a trace. *)
Definition requests_after_cancel (tr : list event) : list request :=
  omap (fun ev =>
          match ev with
          | EvRequest true req => Some req
          | _ => None
          end) tr.

Definition statuses (tr : list event) : list string :=
  omap (fun ev =>
          match ev with
          | EvStatus text => Some text
          | _ => None
          end) tr.

(** The run of the example: Christmas and Easter over 2020-2021 with a
    one-day delta, no person filter, no extra filters. *)
Definition example_run (stop : nat -> bool) (end_year : Z)
  (selected_items : list (string * string))
  : world (example_env stop) :=
  snd (run_search (E := example_env stop) 6 "key" 1 2020 end_year
                  selected_items "" "" false "" "any" "" false
                  (mk_world (E := example_env stop) tt 0%nat [])).

(* ===================================================================== *)
(** * Notions used by the further properties *)
(* ===================================================================== *)

(** A string that does not begin with a character of the class [p]. *)
Definition starts_outside (p : ascii -> bool) (s : string) : bool :=
  match s with
  | EmptyString => true
  | String c _ => negb (p c)
  end.

(** The characters a person token never contains: the two separators of
    the people text and the comment sign. *)
Definition token_char (c : ascii) : bool :=
  negb (Ascii.eqb c ",") && negb (Ascii.eqb c "010")
  && negb (Ascii.eqb c "#").

(** ** What a computation emits

    [emits P m]: whatever the world, the events [m] adds to the trace are
    appended to it, and each of them satisfies [P].  [emits_unset P m] is
    the same for the worlds in which the cancellation flag is not set. *)
Definition emits {E A} (P : event -> Prop) (m : M E A) : Prop :=
  forall w : world E,
    exists evs, trace (snd (m w)) = (trace w ++ evs)%list /\ Forall P evs.

Definition emits_unset {E A} (P : event -> Prop) (m : M E A) : Prop :=
  forall w : world E,
    stop_flag E (clock w) = false ->
    exists evs, trace (snd (m w)) = (trace w ++ evs)%list /\ Forall P evs.

(** The requests of a trace, in the order they were issued. *)
Definition requests_of (tr : list event) : list request :=
  omap (fun ev =>
          match ev with
          | EvRequest _ req => Some req
          | _ => None
          end) tr.

Definition is_progress (ev : event) : Prop :=
  match ev with
  | EvProgress _ _ => True
  | _ => False
  end.

(** The names of the albums a run works on: the album of the specific
    date when one is selected, and the album of every selected holiday. *)
Definition run_album_names (selected_items : list (string * string))
  (specific_date_album_name : string) : list string :=
  ((if has_key "Specific Date" selected_items
    then [specific_date_album_name] else [])
   ++ map snd
        (List.filter (fun kv => negb (fst kv =? "Specific Date")%string)
                     selected_items))%list.

(** The form of the requests of a run: the endpoint under the configured
    base URL and what is sent to it. *)
Definition request_shape (E : Env) (album_names tokens : list string)
  (req : request) : Prop :=
  match req with
  | GetAlbums url => url = (API_BASE_URL E ++ "/albums")%string
  | PostAlbum url album_name =>
      url = (API_BASE_URL E ++ "/albums")%string /\ album_name ∈ album_names
  | PutAlbumAssets url ids =>
      ids <> []
      /\ exists album_id,
          url = (API_BASE_URL E ++ "/albums/" ++ album_id ++ "/assets")%string
  | GetSearchPerson url name _ =>
      url = (API_BASE_URL E ++ "/search/person")%string
      /\ name ∈ tokens /\ UUID_PATTERN_match name = false
  | PostSearchMetadata url payload =>
      url = (API_BASE_URL E ++ "/search/metadata")%string
      /\ payload !! "size" = Some (JNum 100)
      /\ exists page, 1 <= page /\ payload !! "page" = Some (JNum page)
  end.

(** A request for a page of search results or for a person is issued
    while the cancellation flag is not set. *)
Definition checked_event (ev : event) : Prop :=
  match ev with
  | EvRequest flag_set (GetSearchPerson _ _ _)
  | EvRequest flag_set (PostSearchMetadata _ _) => flag_set = false
  | _ => True
  end.

(** The events of a run either report no progress at all, or end with the
    progress set back to zero of zero. *)
Definition silent_or_reset (evs : list event) : Prop :=
  Forall (fun ev => ~ is_progress ev) evs
  \/ exists evs', evs = (evs' ++ [EvProgress 0 0])%list.

(** ** A repository that follows a script

    The album listing is [albums], the name search answers [people name],
    page [p] of every metadata search is [pages p], and album creation
    and asset addition succeed. *)
Definition scripted_env (base : string) (loads : string -> string + json)
  (albums : list album) (people : string -> http_result (list person))
  (pages : Z -> list string) (stop : nat -> bool) : Env :=
  {| srv := unit;
     list_albums := fun s => (s, HttpOk 200 albums);
     create_album := fun s n =>
       (s, HttpOk 201 (mk_album ("album-" ++ n)%string (Some n)));
     put_album_assets := fun s _ _ => (s, HttpOk 200 tt);
     search_person := fun s name _ => (s, people name);
     search_metadata := fun s payload =>
       (s, HttpOk 200 match payload !! "page" with
                      | Some (JNum p) => pages p
                      | _ => []
                      end);
     stop_flag := stop;
     API_BASE_URL := base;
     json_loads := loads;
     json_dumps := fun _ => "{}";
     strptime_ymd := fun _ =>
       Raise (ValueError "time data does not match format") |}.

(** The inputs [run_search] refuses before it contacts the repository: no
    base URL, a filters text that is not a JSON object, or [personIds]
    filters that are not a list of strings. *)
Definition input_rejected (E : Env) (additional_filters_text : string)
  : Prop :=
  API_BASE_URL E = ""
  \/ (exists err,
        snd (parse_additional_filters_json E additional_filters_text)
        = Some err)
  \/ (exists v,
        fst (parse_additional_filters_json E additional_filters_text)
          !! "personIds" = Some v
        /\ v <> JNull /\ list_of_strings v = None).

Definition is_status_or_log (ev : event) : Prop :=
  match ev with
  | EvStatus _ | EvLog _ => True
  | _ => False
  end.

(** The line the people picker adds to the people text for a person
    ([add_selected], line 1135). *)
Definition picker_line (person_id name : string) : string :=
  (person_id ++ "  # " ++ name)%string.

(** A text without a comma and without a newline. *)
Definition one_line (s : string) : bool :=
  all_chars (fun c => negb (Ascii.eqb c ",") && negb (Ascii.eqb c "010")) s.

(* ===================================================================== *)
(** * The people list of the picker *)
(* ===================================================================== *)

(** One page of the people listing, with the fields [get_all_people]
    reads: the people (empty when the field is missing or null),
    [hasNextPage] (absent when missing or null) and [total] (present when
    it is an integer). *)
Record people_page : Type := mk_people_page {
  page_people : list person;
  page_hasNextPage : option bool;
  page_total : option Z
}.

(** An HTTP exchange outside a run: the repository answers and moves on,
    and the worker has waited for one request.  The requests of type
    [request] are those of a run; the listing of the picker shows in the
    trace by the log line written before it. *)
Definition exchange {E A} (handler : srv E -> srv E * http_result A)
  : M E (http_result A) :=
  fun w =>
    let '(s', r) := handler (server w) in
    (Ok r, mk_world s' (S (clock w)) (trace w)).

(** The [while True] loop of [get_all_people]; one unit of [fuel] per page
    requested.  [list_people s page size with_hidden] is the repository's
    answer to the listing. *)
Fixpoint people_pages {E}
  (list_people : srv E -> Z -> Z -> bool -> srv E * http_result people_page)
  (fuel : nat) (with_hidden : bool) (page_size page : Z)
  (people : list person) : M E (list person) :=
  let! stop := stop_event_is_set in
  if stop then ret []
  else
    match fuel with
    | O => out_of_fuel
    | S fuel' =>
        let url := (API_BASE_URL E ++ "/people")%string in
        log_message ("GET " ++ url ++ " (people list page "
                     ++ str_of_Z page ++ ")") ;;
        let! r := exchange (fun s => list_people s page page_size with_hidden) in
        match r with
        | HttpError msg => request_failed "Failed to fetch people: " msg
        | HttpOk _ data =>
            match page_people data with
            | [] => ret people
            | _ =>
                let people := (people ++ page_people data)%list in
                let has_next_page := page_hasNextPage data in
                let total := page_total data in
                if match has_next_page with
                   | Some false => true
                   | _ => false
                   end
                then ret people
                else if match total with
                        | Some total => total <=? Z.of_nat (length people)
                        | None => false
                        end
                then ret people
                else if match has_next_page with
                        | None =>
                            Z.of_nat (length (page_people data)) <? page_size
                        | Some _ => false
                        end
                then ret people
                else people_pages list_people fuel' with_hidden page_size
                                  (page + 1) people
            end
        end
    end.

Definition get_all_people {E}
  (list_people : srv E -> Z -> Z -> bool -> srv E * http_result people_page)
  (fuel : nat) (with_hidden : bool) : M E (list person) :=
  let page_size := 1000 in
  let page := 1 in
  people_pages list_people fuel with_hidden page_size page [].

(** Whether the listing goes on after a page, [collected] being the
    number of people collected up to and including it: the page is not
    empty and none of the three stopping rules applies. *)
Definition listing_continues (data : people_page) (collected : Z) : bool :=
  match page_people data with
  | [] => false
  | _ =>
      negb match page_hasNextPage data with
           | Some false => true
           | _ => false
           end
      && negb match page_total data with
              | Some total => total <=? collected
              | None => false
              end
      && negb match page_hasNextPage data with
              | None => Z.of_nat (length (page_people data)) <? 1000
              | Some _ => false
              end
  end.

(** The people of the pages [1] to [k] of a listing, in order. *)
Definition people_through (pages : Z -> people_page) (first : Z) (k : nat)
  : list person :=
  concat (map (fun p => page_people (pages p))
              (py_range first (first + Z.of_nat k))).

(* ===================================================================== *)
(** * Properties *)
(* ===================================================================== *)

Ltac zdiv := Z.to_euclidean_division_equations; lia.

Lemma forall_from_spec (p : Z -> bool) (n : nat) (lo : Z) :
  forall_from n lo p = true ->
  forall z, lo <= z < lo + Z.of_nat n -> p z = true.
Proof.
  revert lo. induction n as [|n IH]; intros lo H z Hz.
  - simpl in Hz. lia.
  - simpl in H. apply andb_prop in H as [Hlo Hrest].
    destruct (Z.eq_dec z lo) as [->|Hne]; [exact Hlo|].
    apply (IH (lo + 1) Hrest). lia.
Qed.

Lemma rbind_Ok {A B} (r : result A) (k : A -> result B) (b : B) :
  rbind r k = Ok b -> exists a, r = Ok a /\ k a = Ok b.
Proof. destruct r; simpl; intros H; try discriminate. eauto. Qed.

(** ** The calendar: ordinals and dates *)

Lemma month_cases (m : Z) :
  1 <= m <= 12 ->
  m = 1 \/ m = 2 \/ m = 3 \/ m = 4 \/ m = 5 \/ m = 6
  \/ m = 7 \/ m = 8 \/ m = 9 \/ m = 10 \/ m = 11 \/ m = 12.
Proof. lia. Qed.

Ltac each_month m H :=
  destruct (month_cases m H) as
    [-> | [-> | [-> | [-> | [-> | [-> | [-> | [-> | [-> | [-> | [-> | -> ]]]]]]]]]]].

Section Calendar.

Lemma month_day_ok_common :
  forall_from 365 0 (month_day_ok false) = true.
Proof. vm_compute. reflexivity. Qed.

Lemma month_day_ok_leap :
  forall_from 366 0 (month_day_ok true) = true.
Proof. vm_compute. reflexivity. Qed.

Lemma month_day_of_spec (leap : bool) (n : Z) :
  0 <= n < 365 + (if leap then 1 else 0) ->
  month_day_ok leap n = true.
Proof.
  intros H. destruct leap.
  - apply (forall_from_spec _ _ _ month_day_ok_leap). lia.
  - apply (forall_from_spec _ _ _ month_day_ok_common). lia.
Qed.

Lemma is_leap_true y :
  is_leap y = true <->
  y mod 4 = 0 /\ (y mod 100 <> 0 \/ y mod 400 = 0).
Proof.
  unfold is_leap.
  rewrite andb_true_iff, orb_true_iff, negb_true_iff, !Z.eqb_eq, Z.eqb_neq.
  tauto.
Qed.

(** The year part of [ord2ymd]: ordinal [n0] is day [doy] (0-based) of
    year [y]. *)
Lemma ord2ymd_decompose (n0 : Z) :
  1 <= n0 <= MAXORDINAL ->
  exists y doy,
    MINYEAR <= y <= MAXYEAR
    /\ 0 <= doy < 365 + (if is_leap y then 1 else 0)
    /\ n0 = days_before_year y + doy + 1
    /\ ord2ymd n0 =
       let '(m, d) := month_day_of (is_leap y) doy in (y, m, d).
Proof.
  unfold MAXORDINAL, MINYEAR, MAXYEAR. intros Hn.
  unfold ord2ymd, DI400Y, DI100Y, DI4Y. cbv zeta.
  set (n := n0 - 1).
  pose proof (Z.div_mod n 146097 ltac:(lia)) as E400.
  pose proof (Z.mod_pos_bound n 146097 ltac:(lia)) as B400.
  set (n400 := n / 146097) in *. set (r400 := n mod 146097) in *.
  pose proof (Z.div_mod r400 36524 ltac:(lia)) as E100.
  pose proof (Z.mod_pos_bound r400 36524 ltac:(lia)) as B100.
  set (n100 := r400 / 36524) in *. set (r100 := r400 mod 36524) in *.
  pose proof (Z.div_mod r100 1461 ltac:(lia)) as E4.
  pose proof (Z.mod_pos_bound r100 1461 ltac:(lia)) as B4.
  set (n4 := r100 / 1461) in *. set (r4 := r100 mod 1461) in *.
  pose proof (Z.div_mod r4 365 ltac:(lia)) as E1.
  pose proof (Z.mod_pos_bound r4 365 ltac:(lia)) as B1.
  set (n1 := r4 / 365) in *. set (r1 := r4 mod 365) in *.
  assert (Hn400 : 0 <= n400 <= 24) by (subst n; lia).
  assert (Hn100 : 0 <= n100 <= 4) by lia.
  assert (Hn4 : 0 <= n4 <= 24) by lia.
  assert (Hn1 : 0 <= n1 <= 4) by lia.
  assert (Hlast : n4 = 24 -> n1 <= 3) by lia.
  assert (Hlast' : n100 = 4 -> n4 = 0 /\ n1 = 0) by lia.
  destruct ((n1 =? 4) || (n100 =? 4)) eqn:Hedge.
  - (* the last day of a leap year ending a 4- or 400-year cycle *)
    exists (n400 * 400 + 1 + n100 * 100 + n4 * 4 + n1 - 1), 365.
    apply orb_true_iff in Hedge. rewrite !Z.eqb_eq in Hedge.
    assert (Hleap : is_leap (n400 * 400 + 1 + n100 * 100 + n4 * 4 + n1 - 1)
                    = true).
    { apply is_leap_true. zdiv. }
    rewrite Hleap. unfold days_before_year.
    split; [subst n; zdiv|]. split; [lia|]. split; [subst n; zdiv|].
    reflexivity.
  - apply orb_false_iff in Hedge. rewrite !Z.eqb_neq in Hedge.
    exists (n400 * 400 + 1 + n100 * 100 + n4 * 4 + n1), r1.
    assert (Hleap : is_leap (n400 * 400 + 1 + n100 * 100 + n4 * 4 + n1)
                    = (n1 =? 3) && (negb (n4 =? 24) || (n100 =? 3))).
    { apply eq_true_iff_eq. rewrite is_leap_true.
      rewrite andb_true_iff, orb_true_iff, negb_true_iff, !Z.eqb_eq,
        Z.eqb_neq. zdiv. }
    rewrite Hleap. unfold days_before_year.
    split; [subst n; zdiv|].
    split.
    { destruct ((n1 =? 3) && (negb (n4 =? 24) || (n100 =? 3))) eqn:E;
        [lia|].
      apply andb_false_iff in E. rewrite orb_false_iff, negb_false_iff in E.
      rewrite !Z.eqb_eq, Z.eqb_neq in E. lia. }
    split; [subst n; zdiv|].
    unfold month_day_of. cbv zeta.
    repeat match goal with
           | |- context [if ?c then _ else _] => destruct c
           end; reflexivity.
Qed.

Lemma valid_date_inv y m d :
  valid_date y m d = true ->
  MINYEAR <= y <= MAXYEAR /\ 1 <= m <= 12 /\ 1 <= d <= days_in_month y m.
Proof.
  unfold valid_date. rewrite !andb_true_iff, !Z.leb_le. tauto.
Qed.

Lemma valid_date_intro y m d :
  MINYEAR <= y <= MAXYEAR -> 1 <= m <= 12 -> 1 <= d <= days_in_month y m ->
  valid_date y m d = true.
Proof.
  unfold valid_date. rewrite !andb_true_iff, !Z.leb_le. tauto.
Qed.

(** Within a year, the day number of a valid date. *)
Lemma day_of_year_bounds y m d :
  1 <= m <= 12 -> 1 <= d <= days_in_month y m ->
  1 <= days_before_month y m + d <= 365 + (if is_leap y then 1 else 0).
Proof.
  intros Hm. unfold days_in_month, days_before_month.
  each_month m Hm; destruct (is_leap y); simpl; lia.
Qed.

Lemma day_of_year_month_mono y m1 d1 m2 d2 :
  1 <= m1 <= 12 -> 1 <= m2 <= 12 ->
  1 <= d1 <= days_in_month y m1 -> 1 <= d2 <= days_in_month y m2 ->
  m1 < m2 ->
  days_before_month y m1 + d1 < days_before_month y m2 + d2.
Proof.
  intros Hm1 Hm2. unfold days_in_month, days_before_month.
  each_month m1 Hm1; each_month m2 Hm2; destruct (is_leap y); simpl; lia.
Qed.

Lemma days_before_year_succ y :
  days_before_year (y + 1)
  = days_before_year y + 365 + (if is_leap y then 1 else 0).
Proof.
  destruct (is_leap y) eqn:E.
  - apply is_leap_true in E. unfold days_before_year. zdiv.
  - assert (H : ~ (y mod 4 = 0 /\ (y mod 100 <> 0 \/ y mod 400 = 0))).
    { rewrite <- is_leap_true. congruence. }
    unfold days_before_year. zdiv.
Qed.

Lemma days_before_year_mono y1 y2 :
  y1 <= y2 -> days_before_year y1 <= days_before_year y2.
Proof. unfold days_before_year. intros H. zdiv. Qed.

Lemma ymd2ord_range y m d :
  valid_date y m d = true -> 1 <= ymd2ord y m d <= MAXORDINAL.
Proof.
  intros H. apply valid_date_inv in H as (Hy & Hm & Hd).
  pose proof (day_of_year_bounds y m d Hm Hd) as Hdoy.
  pose proof (days_before_year_succ y) as Hs.
  unfold MINYEAR, MAXYEAR in Hy.
  pose proof (days_before_year_mono 1 y ltac:(lia)) as H1.
  pose proof (days_before_year_mono (y + 1) 10000 ltac:(lia)) as H2.
  change (days_before_year 1) with 0 in H1.
  change (days_before_year 10000) with 3652059 in H2.
  unfold ymd2ord, MAXORDINAL. lia.
Qed.

(** [ord2ymd] is a right inverse of [ymd2ord] and yields valid dates. *)
Lemma ord2ymd_spec (n : Z) :
  1 <= n <= MAXORDINAL ->
  exists y m d,
    ord2ymd n = (y, m, d) /\ valid_date y m d = true /\ ymd2ord y m d = n.
Proof.
  intros Hn.
  destruct (ord2ymd_decompose n Hn) as (y & doy & Hy & Hdoy & Hdec & ->).
  pose proof (month_day_of_spec (is_leap y) doy Hdoy) as Hok.
  unfold month_day_ok in Hok.
  destruct (month_day_of (is_leap y) doy) as [m d].
  exists y, m, d. split; [reflexivity|].
  rewrite !andb_true_iff, !Z.leb_le, Z.eqb_eq in Hok.
  destruct Hok as ((((Hm1 & Hm2) & Hd1) & Hd2) & Hsum).
  split.
  - apply valid_date_intro; [exact Hy|lia|].
    unfold days_in_month. lia.
  - unfold ymd2ord, days_before_month. lia.
Qed.

(** [ymd2ord] is strictly monotone for the lexicographic order on valid
    dates, stated contrapositively. *)
Lemma ymd2ord_lt_lex y1 m1 d1 y2 m2 d2 :
  valid_date y1 m1 d1 = true -> valid_date y2 m2 d2 = true ->
  ymd2ord y1 m1 d1 < ymd2ord y2 m2 d2 ->
  y1 < y2 \/ (y1 = y2 /\ (m1 < m2 \/ (m1 = m2 /\ d1 < d2))).
Proof.
  intros H1 H2 Hlt.
  apply valid_date_inv in H1 as (Hy1 & Hm1 & Hd1).
  apply valid_date_inv in H2 as (Hy2 & Hm2 & Hd2).
  unfold ymd2ord in Hlt.
  destruct (Z_lt_le_dec y1 y2) as [|Hy]; [left; assumption|right].
  destruct (Z.eq_dec y1 y2) as [->|Hne].
  - split; [reflexivity|].
    destruct (Z_lt_le_dec m1 m2) as [|Hm]; [left; assumption|right].
    destruct (Z.eq_dec m1 m2) as [->|Hmne]; [lia|].
    pose proof (day_of_year_month_mono y2 m2 d2 m1 d1 Hm2 Hm1 Hd2 Hd1
                  ltac:(lia)).
    lia.
  - exfalso.
    pose proof (day_of_year_bounds y1 m1 d1 Hm1 Hd1).
    pose proof (day_of_year_bounds y2 m2 d2 Hm2 Hd2).
    pose proof (days_before_year_succ y2).
    pose proof (days_before_year_mono (y2 + 1) y1 ltac:(lia)).
    lia.
Qed.

Lemma wf_datetime_inv d :
  wf_datetime d = true ->
  valid_date (year d) (month d) (day d) = true
  /\ valid_time (hour d) (minute d) (second d) (microsecond d) = true.
Proof. unfold wf_datetime. apply andb_prop. Qed.

Lemma timedelta_days_ok n :
  Z.abs n <= 999999999 -> timedelta_days n = Ok n.
Proof.
  intros H. unfold timedelta_days.
  destruct (Z.leb_spec (Z.abs n) 999999999); [reflexivity|lia].
Qed.

(** Adding days to a well-formed datetime, when the target is in range. *)
Lemma add_days_spec d n :
  wf_datetime d = true ->
  1 <= toordinal d + n <= MAXORDINAL ->
  exists d',
    add_days d n = Ok d'
    /\ wf_datetime d' = true
    /\ toordinal d' = toordinal d + n
    /\ (hour d', minute d', second d', microsecond d')
       = (hour d, minute d, second d, microsecond d).
Proof.
  intros Hwf Hr. apply wf_datetime_inv in Hwf as [Hdate Htime].
  pose proof (ymd2ord_range _ _ _ Hdate) as Ho.
  fold (toordinal d) in Ho. unfold MAXORDINAL in *.
  unfold add_days. rewrite timedelta_days_ok by lia. simpl.
  destruct (Z.ltb_spec 0 (toordinal d + n)); [|lia].
  destruct (Z.leb_spec (toordinal d + n) PyDatetime.MAXORDINAL);
    [|unfold MAXORDINAL in *; lia].
  simpl.
  destruct (ord2ymd_spec (toordinal d + n)) as (y & m & dd & E & Hv & Hord);
    [unfold MAXORDINAL; lia|].
  rewrite E. eexists. split; [reflexivity|].
  unfold wf_datetime, toordinal. simpl. rewrite Hv, Htime. auto.
Qed.

Lemma sub_days_spec d n :
  wf_datetime d = true ->
  1 <= toordinal d - n <= MAXORDINAL ->
  exists d',
    sub_days d n = Ok d'
    /\ wf_datetime d' = true
    /\ toordinal d' = toordinal d - n
    /\ (hour d', minute d', second d', microsecond d')
       = (hour d, minute d, second d, microsecond d).
Proof.
  intros Hwf Hr.
  pose proof (proj1 (wf_datetime_inv _ Hwf)) as Hdate.
  pose proof (ymd2ord_range _ _ _ Hdate) as Ho.
  fold (toordinal d) in Ho. unfold MAXORDINAL in *.
  unfold sub_days. rewrite timedelta_days_ok by lia. simpl.
  apply add_days_spec; [exact Hwf|unfold MAXORDINAL; lia].
Qed.

(** Out of range, the addition raises. *)
Lemma add_days_overflow d n :
  ~ (1 <= toordinal d + n <= MAXORDINAL) ->
  exists msg, add_days d n = Raise (OverflowError msg).
Proof.
  intros H. unfold add_days, timedelta_days.
  destruct (Z.abs n <=? 999999999); simpl; [|eauto].
  destruct (Z.ltb_spec 0 (toordinal d + n)); simpl; [|eauto].
  destruct (Z.leb_spec (toordinal d + n) MAXORDINAL); simpl; [|eauto].
  lia.
Qed.

(** Datetimes on different days compare by their ordinals. *)
Lemma datetime_ltb_ordinal a b :
  wf_datetime a = true -> wf_datetime b = true ->
  toordinal a < toordinal b -> datetime_ltb a b = true.
Proof.
  intros Ha Hb Hlt.
  apply wf_datetime_inv in Ha as [Ha _]. apply wf_datetime_inv in Hb as [Hb _].
  pose proof (ymd2ord_lt_lex _ _ _ _ _ _ Ha Hb Hlt) as H.
  unfold datetime_ltb.
  destruct H as [H|[Hy [H|[Hm H]]]].
  - apply orb_true_iff. left. apply Z.ltb_lt. exact H.
  - rewrite Hy, Z.ltb_irrefl, Z.eqb_refl. simpl.
    apply orb_true_iff. left. apply Z.ltb_lt. exact H.
  - rewrite Hy, Hm, !Z.ltb_irrefl, !Z.eqb_refl. simpl.
    apply orb_true_iff. left. apply Z.ltb_lt. exact H.
Qed.

End Calendar.

(** ** Easter *)

Section Easter.

Lemma easter_agrees_all :
  forall_from (Z.to_nat 9999) 1 easter_agrees = true.
Proof. vm_compute. reflexivity. Qed.

(** C1.  For every year the calendar admits (1..9999),
    [get_easter_date] returns midnight of a date of that year that is a
    Sunday and is the Sunday following the Paschal full moon of the
    Gregorian computus; it returns 2024-03-31 for 2024 and 2025-04-20 for
    2025, and the published date for each year of [PUBLISHED_EASTER].
    All arithmetic is on integers. *)
Theorem get_easter_date_computus (y : Z) :
  MINYEAR <= y <= MAXYEAR ->
  (exists d,
      get_easter_date y = Ok d
      /\ (year d, month d, day d) = easter_sunday y
      /\ year d = y
      /\ (hour d, minute d, second d, microsecond d) = (0, 0, 0, 0)
      /\ wf_datetime d = true
      /\ weekday d = 6)
  /\ get_easter_date 2024 = Ok (mk_datetime 2024 3 31 0 0 0 0)
  /\ get_easter_date 2025 = Ok (mk_datetime 2025 4 20 0 0 0 0)
  /\ Forall (fun '(py, (pm, pd)) =>
               get_easter_date py = Ok (mk_datetime py pm pd 0 0 0 0))
            PUBLISHED_EASTER.
Proof.
  intros Hy. split; [|split; [reflexivity|split; [reflexivity|]]].
  - pose proof (forall_from_spec _ _ _ easter_agrees_all y) as H.
    unfold MINYEAR, MAXYEAR in Hy.
    specialize (H ltac:(lia)). unfold easter_agrees in H.
    destruct (get_easter_date y) as [d| |]; try discriminate.
    exists d. destruct (easter_sunday y) as [[ey em] ed].
    repeat (apply andb_prop in H as [H ?]).
    repeat match goal with
           | E : (_ =? _) = true |- _ => apply Z.eqb_eq in E
           end.
    repeat split; try congruence.
  - repeat constructor.
Qed.

Lemma get_easter_date_computus_witness :
  MINYEAR <= 2000 <= MAXYEAR
  /\ exists d, get_easter_date 2000 = Ok d /\ weekday d = 6.
Proof.
  assert (Hy : MINYEAR <= 2000 <= MAXYEAR) by (unfold MINYEAR, MAXYEAR; lia).
  split; [exact Hy|].
  destruct (get_easter_date_computus 2000 Hy) as [[d H] _].
  exists d. tauto.
Defined.

End Easter.

(** ** The date window builder *)

Section DateWindow.

Lemma datetime_ymd_of_wf d :
  wf_datetime d = true ->
  datetime_ymd (year d) (month d) (day d)
  = Ok (mk_datetime (year d) (month d) (day d) 0 0 0 0).
Proof.
  intros H. apply wf_datetime_inv in H as [H _].
  apply valid_date_inv in H as ((Hy1 & Hy2) & (Hm1 & Hm2) & (Hd1 & Hd2)).
  unfold datetime_ymd.
  apply Z.leb_le in Hy1, Hy2, Hm1, Hm2, Hd1, Hd2.
  rewrite Hy1, Hy2, Hm1, Hm2, Hd1, Hd2. reflexivity.
Qed.

Lemma datetime_sub_days a b :
  seconds_of_day a = seconds_of_day b -> microsecond a = microsecond b ->
  datetime_sub a b = mk_timedelta (toordinal a - toordinal b) 0 0.
Proof.
  intros Hs Hu. unfold datetime_sub, timedelta_norm.
  rewrite Hs, Hu, !Z.sub_diag.
  change (0 mod 1000000) with 0. change (0 / 1000000) with 0.
  change ((0 + 0) mod 86400) with 0. change ((0 + 0) / 86400) with 0.
  f_equal. lia.
Qed.

Lemma same_time_fields (a b : datetime) :
  (hour a, minute a, second a, microsecond a)
  = (hour b, minute b, second b, microsecond b) ->
  seconds_of_day a = seconds_of_day b /\ microsecond a = microsecond b.
Proof.
  intros H. injection H as Hh Hm Hs Hu. unfold seconds_of_day.
  rewrite Hh, Hm, Hs. auto.
Qed.

(** C2 (as the code has it).  For a well-formed base date [d] and a
    [delta >= 0] whose window stays within the dates Python can represent:
    with [delta = 0] the window is the calendar day of [d], from its
    midnight to the next midnight (width one day); with [delta > 0] the
    window is [d - delta, d + delta], whose width is [2 * delta] days
    with [d] at its centre; in both cases the start is strictly before
    the end. *)
Theorem get_date_range_window (d : datetime) (delta : Z) :
  wf_datetime d = true ->
  0 <= delta ->
  1 <= toordinal d - delta ->
  toordinal d + Z.max delta 1 <= MAXORDINAL ->
  exists lo hi,
    get_date_range d delta = Ok (lo, hi)
    /\ datetime_ltb lo hi = true
    /\ (delta = 0 ->
        lo = mk_datetime (year d) (month d) (day d) 0 0 0 0
        /\ (hour hi, minute hi, second hi, microsecond hi) = (0, 0, 0, 0)
        /\ toordinal hi = toordinal d + 1
        /\ datetime_sub hi lo = mk_timedelta 1 0 0)
    /\ (0 < delta ->
        datetime_sub hi lo = mk_timedelta (2 * delta) 0 0
        /\ datetime_sub d lo = mk_timedelta delta 0 0
        /\ datetime_sub hi d = mk_timedelta delta 0 0).
Proof.
  intros Hwf Hdelta Hlo Hhi. unfold get_date_range.
  destruct (Z.eqb_spec delta 0) as [->|Hne].
  - rewrite (datetime_ymd_of_wf d Hwf). simpl.
    set (s := mk_datetime (year d) (month d) (day d) 0 0 0 0).
    assert (Hs : wf_datetime s = true).
    { apply wf_datetime_inv in Hwf as [Hv _].
      unfold wf_datetime, s. simpl. rewrite Hv. reflexivity. }
    assert (Hso : toordinal s = toordinal d) by reflexivity.
    destruct (add_days_spec s 1 Hs) as (e & He & Hewf & Heo & Het).
    { rewrite Hso.
      pose proof (ymd2ord_range _ _ _ (proj1 (wf_datetime_inv _ Hwf))) as Hr.
      fold (toordinal d) in Hr. lia. }
    rewrite He. simpl. exists s, e. split; [reflexivity|].
    split; [apply datetime_ltb_ordinal; auto; lia|].
    split; [|intros; lia].
    intros _. split; [reflexivity|]. split; [exact Het|].
    split; [lia|].
    destruct (same_time_fields _ _ Het) as [Hsec Hus].
    rewrite (datetime_sub_days e s Hsec Hus). f_equal. lia.
  - assert (Hpos : 0 < delta) by lia.
    pose proof (ymd2ord_range _ _ _ (proj1 (wf_datetime_inv _ Hwf))) as Hr.
    fold (toordinal d) in Hr.
    destruct (sub_days_spec d delta Hwf) as (s & Hsd & Hswf & Hso & Hst);
      [lia|].
    destruct (add_days_spec d delta Hwf) as (e & Hed & Hewf & Heo & Het);
      [lia|].
    rewrite Hsd. simpl. rewrite Hed. simpl.
    exists s, e. split; [reflexivity|].
    split; [apply datetime_ltb_ordinal; auto; lia|].
    split; [intros; lia|]. intros _.
    destruct (same_time_fields _ _ Hst) as [Hs1 Hs2].
    destruct (same_time_fields _ _ Het) as [He1 He2].
    rewrite (datetime_sub_days e s), (datetime_sub_days d s),
      (datetime_sub_days e d) by congruence.
    repeat split; f_equal; lia.
Qed.

Lemma get_date_range_window_witness :
  wf_datetime (mk_datetime 2024 12 25 0 0 0 0) = true
  /\ 0 <= 1
  /\ exists lo hi,
      get_date_range (mk_datetime 2024 12 25 0 0 0 0) 1 = Ok (lo, hi)
      /\ datetime_ltb lo hi = true.
Proof.
  assert (Hwf : wf_datetime (mk_datetime 2024 12 25 0 0 0 0) = true)
    by reflexivity.
  assert (H0 : 0 <= 1) by lia.
  split; [exact Hwf|]. split; [exact H0|].
  destruct (get_date_range_window (mk_datetime 2024 12 25 0 0 0 0) 1 Hwf H0)
    as (lo & hi & Hr & Hlt & _).
  - vm_compute. discriminate.
  - vm_compute. discriminate.
  - exists lo, hi. auto.
Defined.

(** C2 as stated fails: the window for delta 7 around 2024-12-25 runs from
    2024-12-18 to 2025-01-01, fourteen days and not fifteen (and on the
    calendar's last day even the delta 0 window cannot be built). *)
Lemma get_date_range_not_15_days :
  (exists lo hi,
      get_date_range (mk_datetime 2024 12 25 0 0 0 0) 7 = Ok (lo, hi)
      /\ lo = mk_datetime 2024 12 18 0 0 0 0
      /\ hi = mk_datetime 2025 1 1 0 0 0 0
      /\ datetime_sub hi lo = mk_timedelta 14 0 0
      /\ datetime_sub hi lo <> mk_timedelta (2 * 7 + 1) 0 0)
  /\ get_date_range (mk_datetime 9999 12 31 0 0 0 0) 0
     = Raise (OverflowError "date value out of range").
Proof.
  split; [|reflexivity].
  eexists _, _. split; [reflexivity|].
  repeat split. discriminate.
Qed.

End DateWindow.

(** ** The holiday resolver *)

Section HolidayResolver.

Lemma weekday_range d : 0 <= weekday d < 7.
Proof. unfold weekday. apply Z.mod_pos_bound. lia. Qed.

(** The forward loop stops after [k] steps, [k] being the distance to the
    wanted weekday, provided the calendar does not end first. *)
Lemma step_forward_to_weekday_ok (fuel : nat) :
  forall (k : Z) (d : datetime) (wd : Z),
    wf_datetime d = true ->
    0 <= k <= Z.of_nat fuel ->
    (weekday d + k) mod 7 = wd ->
    toordinal d + k <= MAXORDINAL ->
    exists d',
      step_forward_to_weekday fuel d wd = Ok d'
      /\ wf_datetime d' = true
      /\ weekday d' = wd
      /\ toordinal d <= toordinal d' <= toordinal d + k
      /\ (hour d', minute d', second d', microsecond d')
         = (hour d, minute d, second d, microsecond d).
Proof.
  induction fuel as [|fuel IH]; intros k d wd Hwf Hk Hwd Hmax.
  - assert (k = 0) by lia. subst k. rewrite Z.add_0_r in Hwd.
    pose proof (weekday_range d) as Hr.
    rewrite Z.mod_small in Hwd by exact Hr.
    simpl. rewrite Hwd, Z.eqb_refl. simpl.
    exists d. repeat split; try assumption; lia.
  - simpl. destruct (Z.eqb_spec (weekday d) wd) as [E|E]; simpl.
    + exists d. repeat split; try assumption; try lia.
    + assert (Hk1 : 1 <= k).
      { destruct (Z.eq_dec k 0) as [->|]; [|lia].
        rewrite Z.add_0_r, Z.mod_small in Hwd by apply weekday_range.
        contradiction. }
      pose proof (ymd2ord_range _ _ _ (proj1 (wf_datetime_inv _ Hwf))) as Hr.
      fold (toordinal d) in Hr.
      destruct (add_days_spec d 1 Hwf) as (d1 & Hd1 & Hwf1 & Ho1 & Ht1);
        [lia|].
      rewrite Hd1. simpl.
      destruct (IH (k - 1) d1 wd Hwf1) as (d' & Hd' & Hwf' & Hw' & Ho' & Ht');
        [lia| |lia|].
      * unfold weekday in *. rewrite Ho1. rewrite <- Hwd. zdiv.
      * exists d'. repeat split; try assumption; try lia. congruence.
Qed.

Lemma step_back_to_weekday_ok (fuel : nat) :
  forall (k : Z) (d : datetime) (wd : Z),
    wf_datetime d = true ->
    0 <= k <= Z.of_nat fuel ->
    (weekday d - k) mod 7 = wd ->
    1 <= toordinal d - k ->
    exists d',
      step_back_to_weekday fuel d wd = Ok d'
      /\ wf_datetime d' = true
      /\ weekday d' = wd
      /\ toordinal d - k <= toordinal d' <= toordinal d
      /\ (hour d', minute d', second d', microsecond d')
         = (hour d, minute d, second d, microsecond d).
Proof.
  induction fuel as [|fuel IH]; intros k d wd Hwf Hk Hwd Hmin.
  - assert (k = 0) by lia. subst k. rewrite Z.sub_0_r in Hwd.
    pose proof (weekday_range d) as Hr.
    rewrite Z.mod_small in Hwd by exact Hr.
    simpl. rewrite Hwd, Z.eqb_refl. simpl.
    exists d. repeat split; try assumption; lia.
  - simpl. destruct (Z.eqb_spec (weekday d) wd) as [E|E]; simpl.
    + exists d. repeat split; try assumption; try lia.
    + assert (Hk1 : 1 <= k).
      { destruct (Z.eq_dec k 0) as [->|]; [|lia].
        rewrite Z.sub_0_r, Z.mod_small in Hwd by apply weekday_range.
        contradiction. }
      pose proof (ymd2ord_range _ _ _ (proj1 (wf_datetime_inv _ Hwf))) as Hr.
      fold (toordinal d) in Hr.
      destruct (sub_days_spec d 1 Hwf) as (d1 & Hd1 & Hwf1 & Ho1 & Ht1);
        [lia|].
      rewrite Hd1. simpl.
      destruct (IH (k - 1) d1 wd Hwf1) as (d' & Hd' & Hwf' & Hw' & Ho' & Ht');
        [lia| |lia|].
      * unfold weekday in *. rewrite Ho1. rewrite <- Hwd. zdiv.
      * exists d'. repeat split; try assumption; try lia. congruence.
Qed.

Lemma datetime_ymd_ok y m d :
  valid_date y m d = true ->
  datetime_ymd y m d = Ok (mk_datetime y m d 0 0 0 0).
Proof.
  intros H.
  apply valid_date_inv in H as ((Hy1 & Hy2) & (Hm1 & Hm2) & (Hd1 & Hd2)).
  unfold datetime_ymd.
  apply Z.leb_le in Hy1, Hy2, Hm1, Hm2, Hd1, Hd2.
  rewrite Hy1, Hy2, Hm1, Hm2, Hd1, Hd2. reflexivity.
Qed.

Lemma wf_midnight y m d :
  valid_date y m d = true -> wf_datetime (mk_datetime y m d 0 0 0 0) = true.
Proof. intros H. unfold wf_datetime. simpl. rewrite H. reflexivity. Qed.

(** A valid date whose ordinal lies within month [m] of year [y] is a
    date of that month. *)
Lemma ordinal_in_month y m d' :
  MINYEAR <= y <= MAXYEAR -> 1 <= m <= 12 ->
  wf_datetime d' = true ->
  ymd2ord y m 1 <= toordinal d' <= ymd2ord y m (days_in_month y m) ->
  year d' = y /\ month d' = m.
Proof.
  intros Hy Hm Hwf Hr.
  pose proof (proj1 (wf_datetime_inv _ Hwf)) as Hv'.
  assert (Hdim : 1 <= days_in_month y m).
  { unfold days_in_month. each_month m Hm; destruct (is_leap y); simpl; lia. }
  assert (Hv1 : valid_date y m 1 = true)
    by (apply valid_date_intro; lia).
  assert (Hv2 : valid_date y m (days_in_month y m) = true)
    by (apply valid_date_intro; lia).
  apply valid_date_inv in Hv' as Hb. destruct Hb as (_ & _ & Hd').
  unfold toordinal in Hr.
  destruct (Z_lt_le_dec (ymd2ord y m 1) (ymd2ord (year d') (month d') (day d')))
    as [Hlt|Hge].
  - pose proof (ymd2ord_lt_lex _ _ _ _ _ _ Hv1 Hv' Hlt) as H1.
    destruct (Z_lt_le_dec (ymd2ord (year d') (month d') (day d'))
                          (ymd2ord y m (days_in_month y m))) as [Hlt2|Hge2].
    + pose proof (ymd2ord_lt_lex _ _ _ _ _ _ Hv' Hv2 Hlt2) as H2. lia.
    + assert (Heq : ymd2ord (year d') (month d') (day d')
                    = ymd2ord y m (days_in_month y m)) by lia.
      destruct (Z.eq_dec (year d') y) as [Ey|Ey].
      * split; [exact Ey|]. destruct (Z.eq_dec (month d') m); [assumption|].
        exfalso. rewrite Ey in *.
        destruct H1 as [|[_ [H1|H1]]]; try lia.
        apply valid_date_inv in Hv' as (_ & Hm' & _).
        pose proof (day_of_year_month_mono y m (days_in_month y m)
                      (month d') (day d') Hm Hm' ltac:(lia) Hd' H1).
        unfold ymd2ord in Heq. lia.
      * exfalso. destruct H1 as [H1|]; [|lia].
        apply valid_date_inv in Hv' as (_ & Hm' & _).
        pose proof (day_of_year_bounds y m (days_in_month y m) Hm ltac:(lia)).
        pose proof (day_of_year_bounds (year d') (month d') (day d') Hm' Hd').
        pose proof (days_before_year_succ y).
        pose proof (days_before_year_mono (y + 1) (year d') ltac:(lia)).
        unfold ymd2ord in Heq. lia.
  - assert (Heq : ymd2ord (year d') (month d') (day d') = ymd2ord y m 1)
      by lia.
    apply valid_date_inv in Hv' as (_ & Hm' & _).
    destruct (Z.lt_trichotomy (year d') y) as [Ey|[Ey|Ey]].
    + exfalso.
      pose proof (day_of_year_bounds y m 1 Hm ltac:(lia)).
      pose proof (day_of_year_bounds (year d') (month d') (day d') Hm' Hd').
      pose proof (days_before_year_succ (year d')).
      pose proof (days_before_year_mono (year d' + 1) y ltac:(lia)).
      unfold ymd2ord in Heq. lia.
    + split; [exact Ey|]. rewrite Ey in *.
      destruct (Z.lt_trichotomy (month d') m) as [Em|[Em|Em]];
        [exfalso|exact Em|exfalso].
      * pose proof (day_of_year_month_mono y (month d') (day d') m 1
                      Hm' Hm Hd' ltac:(lia) Em).
        unfold ymd2ord in Heq. lia.
      * pose proof (day_of_year_month_mono y m 1 (month d') (day d')
                      Hm Hm' ltac:(lia) Hd' Em).
        unfold ymd2ord in Heq. lia.
    + exfalso.
      pose proof (day_of_year_bounds y m 1 Hm ltac:(lia)).
      pose proof (day_of_year_bounds (year d') (month d') (day d') Hm' Hd').
      pose proof (days_before_year_succ y).
      pose proof (days_before_year_mono (y + 1) (year d') ltac:(lia)).
      unfold ymd2ord in Heq. lia.
Qed.

Lemma days_in_month_ge_28 y m : 1 <= m <= 12 -> 28 <= days_in_month y m <= 31.
Proof.
  intros Hm. unfold days_in_month.
  each_month m Hm; destruct (is_leap y); simpl; lia.
Qed.

(** The n-th weekday of a month, for [nth] in 1..4: always there. *)
Lemma get_nth_weekday_of_month_ok fuel y m wd nth :
  MINYEAR <= y <= MAXYEAR -> 1 <= m <= 12 -> 0 <= wd < 7 ->
  1 <= nth <= 4 -> (6 <= fuel)%nat ->
  exists d,
    get_nth_weekday_of_month fuel y m wd nth = Ok d
    /\ wf_datetime d = true /\ year d = y /\ month d = m
    /\ weekday d = wd
    /\ 7 * (nth - 1) < day d <= 7 * nth.
Proof.
  intros Hy Hm Hwd Hnth Hfuel.
  pose proof (days_in_month_ge_28 y m Hm) as Hdim.
  assert (Hv1 : valid_date y m 1 = true) by (apply valid_date_intro; lia).
  assert (Hvl : valid_date y m (days_in_month y m) = true)
    by (apply valid_date_intro; lia).
  pose proof (ymd2ord_range _ _ _ Hvl) as Hrl.
  pose proof (ymd2ord_range _ _ _ Hv1) as Hr1.
  unfold get_nth_weekday_of_month.
  rewrite (datetime_ymd_ok _ _ _ Hv1). simpl.
  set (d0 := mk_datetime y m 1 0 0 0 0).
  assert (Hwf0 : wf_datetime d0 = true) by (apply wf_midnight; exact Hv1).
  assert (Ho0 : toordinal d0 = ymd2ord y m 1) by reflexivity.
  assert (Hlast : ymd2ord y m (days_in_month y m)
                  = ymd2ord y m 1 + days_in_month y m - 1)
    by (unfold ymd2ord; lia).
  pose proof (weekday_range d0) as Hw0.
  destruct (step_forward_to_weekday_ok fuel ((wd - weekday d0) mod 7) d0 wd
              Hwf0) as (d1 & Hd1 & Hwf1 & Hw1 & Ho1 & Ht1).
  { pose proof (Z.mod_pos_bound (wd - weekday d0) 7 ltac:(lia)). lia. }
  { zdiv. }
  { pose proof (Z.mod_pos_bound (wd - weekday d0) 7 ltac:(lia)). lia. }
  rewrite Hd1. simpl.
  assert (Hk : 0 <= (wd - weekday d0) mod 7 < 7)
    by (apply Z.mod_pos_bound; lia).
  destruct (add_days_spec d1 (7 * (nth - 1)) Hwf1)
    as (d2 & Hd2 & Hwf2 & Ho2 & Ht2); [lia|].
  exists d2. split; [exact Hd2|]. split; [exact Hwf2|].
  destruct (ordinal_in_month y m d2 Hy Hm Hwf2 ltac:(lia)) as [Ey Em].
  split; [exact Ey|]. split; [exact Em|].
  split.
  - unfold weekday in *. rewrite Ho2. rewrite <- Hw1. zdiv.
  - unfold toordinal in Ho2 at 1. rewrite Ey, Em in Ho2.
    unfold ymd2ord in Ho2, Ho0. lia.
Qed.

Lemma get_last_weekday_of_month_ok fuel y m wd :
  MINYEAR <= y <= MAXYEAR -> 1 <= m <= 12 -> 0 <= wd < 7 ->
  (6 <= fuel)%nat ->
  exists d,
    get_last_weekday_of_month fuel y m wd = Ok d
    /\ wf_datetime d = true /\ year d = y /\ month d = m
    /\ weekday d = wd
    /\ days_in_month y m - 7 < day d <= days_in_month y m.
Proof.
  intros Hy Hm Hwd Hfuel.
  pose proof (days_in_month_ge_28 y m Hm) as Hdim.
  assert (Hv1 : valid_date y m 1 = true) by (apply valid_date_intro; lia).
  assert (Hvl : valid_date y m (days_in_month y m) = true)
    by (apply valid_date_intro; lia).
  pose proof (ymd2ord_range _ _ _ Hvl) as Hrl.
  pose proof (ymd2ord_range _ _ _ Hv1) as Hr1.
  unfold get_last_weekday_of_month, monthrange_days.
  destruct (Z.leb_spec 1 m); [|lia]. destruct (Z.leb_spec m 12); [|lia].
  simpl. rewrite (datetime_ymd_ok _ _ _ Hvl). simpl.
  set (d0 := mk_datetime y m (days_in_month y m) 0 0 0 0).
  assert (Hwf0 : wf_datetime d0 = true) by (apply wf_midnight; exact Hvl).
  assert (Ho0 : toordinal d0 = ymd2ord y m (days_in_month y m))
    by reflexivity.
  assert (Hlast : ymd2ord y m (days_in_month y m)
                  = ymd2ord y m 1 + days_in_month y m - 1)
    by (unfold ymd2ord; lia).
  pose proof (weekday_range d0) as Hw0.
  assert (Hk : 0 <= (weekday d0 - wd) mod 7 < 7)
    by (apply Z.mod_pos_bound; lia).
  destruct (step_back_to_weekday_ok fuel ((weekday d0 - wd) mod 7) d0 wd
              Hwf0) as (d1 & Hd1 & Hwf1 & Hw1 & Ho1 & Ht1);
    [lia|zdiv|lia|].
  exists d1. split; [exact Hd1|]. split; [exact Hwf1|].
  destruct (ordinal_in_month y m d1 Hy Hm Hwf1 ltac:(lia)) as [Ey Em].
  split; [exact Ey|]. split; [exact Em|]. split; [exact Hw1|].
  assert (Hod : toordinal d1 = ymd2ord y m (day d1))
    by (unfold toordinal; rewrite Ey, Em; reflexivity).
  rewrite Hod, Ho0 in Ho1. unfold ymd2ord in Ho1. lia.
Qed.

Lemma get_fixed_date_ok y m d :
  MINYEAR <= y <= MAXYEAR -> 1 <= m <= 12 -> 1 <= d <= days_in_month y m ->
  exists dt, get_fixed_date y m d = Ok dt
             /\ wf_datetime dt = true /\ year dt = y.
Proof.
  intros Hy Hm Hd.
  assert (Hv : valid_date y m d = true) by (apply valid_date_intro; lia).
  unfold get_fixed_date. rewrite (datetime_ymd_ok _ _ _ Hv).
  eexists. split; [reflexivity|]. split; [apply wf_midnight; exact Hv|].
  reflexivity.
Qed.

Lemma get_easter_date_ok y :
  MINYEAR <= y <= MAXYEAR ->
  exists d, get_easter_date y = Ok d /\ wf_datetime d = true /\ year d = y.
Proof.
  unfold MINYEAR, MAXYEAR. intros Hy.
  pose proof (forall_from_spec _ _ _ easter_agrees_all y ltac:(lia)) as H.
  unfold easter_agrees in H.
  destruct (get_easter_date y) as [d| |]; try discriminate.
  exists d. destruct (easter_sunday y) as [[ey em] ed].
  rewrite !andb_true_iff, !Z.eqb_eq in H. intuition.
Qed.

Lemma unknown_holiday_raises fuel y name :
  ~ In name DEFAULT_HOLIDAYS ->
  get_holiday_date fuel y name
  = Raise (ValueError ("Unknown holiday: " ++ name)).
Proof.
  intros Hnot. unfold get_holiday_date.
  repeat match goal with
         | |- context [if (?a =? ?b)%string then _ else _] =>
             destruct (String.eqb_spec a b) as [->|_];
             [exfalso; apply Hnot; simpl; tauto|]
         end.
  reflexivity.
Qed.

(** C8.  An unrecognised holiday name makes [get_holiday_date] raise a
    [ValueError] whose message ends with the offending name; for each of
    the thirteen recognised names and every year 1..9999 it returns a
    well-formed date of that year (six iterations of the weekday loops
    are always enough), so the unknown name is the only error. *)
Theorem get_holiday_date_only_error (fuel : nat) (y : Z) (name : string) :
  (~ In name DEFAULT_HOLIDAYS ->
   get_holiday_date fuel y name
   = Raise (ValueError ("Unknown holiday: " ++ name)))
  /\ (In name DEFAULT_HOLIDAYS -> MINYEAR <= y <= MAXYEAR ->
      (6 <= fuel)%nat ->
      exists d, get_holiday_date fuel y name = Ok d
                /\ wf_datetime d = true /\ year d = y).
Proof.
  split; [apply unknown_holiday_raises|].
  intros Hin Hy Hfuel.
  assert (Hnth : forall m wd nth,
             1 <= m <= 12 -> 0 <= wd < 7 -> 1 <= nth <= 4 ->
             exists d, get_nth_weekday_of_month fuel y m wd nth = Ok d
                       /\ wf_datetime d = true /\ year d = y).
  { intros m wd nth Hm Hwd Hn.
    destruct (get_nth_weekday_of_month_ok fuel y m wd nth Hy Hm Hwd Hn Hfuel)
      as (d & ? & ? & ? & _). eauto. }
  assert (Hlast : forall m wd,
             1 <= m <= 12 -> 0 <= wd < 7 ->
             exists d, get_last_weekday_of_month fuel y m wd = Ok d
                       /\ wf_datetime d = true /\ year d = y).
  { intros m wd Hm Hwd.
    destruct (get_last_weekday_of_month_ok fuel y m wd Hy Hm Hwd Hfuel)
      as (d & ? & ? & ? & _). eauto. }
  assert (Hfix : forall m d,
             1 <= m <= 12 -> 1 <= d <= DAYS_IN_MONTH m ->
             exists dt, get_fixed_date y m d = Ok dt
                        /\ wf_datetime dt = true /\ year dt = y).
  { intros m d Hm Hd. apply get_fixed_date_ok; [exact Hy|exact Hm|].
    unfold days_in_month.
    destruct (Z.eqb_spec m 2) as [->|_]; simpl; [|exact Hd].
    destruct (is_leap y); simpl in *; lia. }
  simpl in Hin.
  repeat (destruct Hin as [<-|Hin];
          [first [ apply Hfix; simpl; lia
                 | apply Hnth; lia
                 | apply Hlast; lia
                 | apply get_easter_date_ok; exact Hy ]|]).
  contradiction.
Qed.

Lemma get_holiday_date_only_error_witness :
  In "Thanksgiving" DEFAULT_HOLIDAYS /\ MINYEAR <= 2024 <= MAXYEAR
  /\ (6 <= 7)%nat
  /\ ~ In "Boxing Day" DEFAULT_HOLIDAYS
  /\ get_holiday_date 7 2024 "Boxing Day"
     = Raise (ValueError "Unknown holiday: Boxing Day")
  /\ exists d, get_holiday_date 7 2024 "Thanksgiving" = Ok d.
Proof.
  assert (Hin : In "Thanksgiving" DEFAULT_HOLIDAYS) by (simpl; tauto).
  assert (Hy : MINYEAR <= 2024 <= MAXYEAR) by (unfold MINYEAR, MAXYEAR; lia).
  assert (Hf : (6 <= 7)%nat) by lia.
  assert (Hnot : ~ In "Boxing Day" DEFAULT_HOLIDAYS).
  { simpl. intros H. repeat (destruct H as [H|H]; [discriminate H|]). exact H. }
  split; [exact Hin|]. split; [exact Hy|]. split; [exact Hf|].
  split; [exact Hnot|]. split.
  - exact (proj1 (get_holiday_date_only_error 7 2024 "Boxing Day") Hnot).
  - destruct (proj2 (get_holiday_date_only_error 7 2024 "Thanksgiving")
                    Hin Hy Hf) as (d & Hd & _).
    exists d. exact Hd.
Defined.

End HolidayResolver.

(** ** String helpers *)

Lemma append_cons (c : ascii) (a b : string) :
  (String c a ++ b)%string = String c (a ++ b)%string.
Proof. reflexivity. Qed.

Lemma append_nil (b : string) : (EmptyString ++ b)%string = b.
Proof. reflexivity. Qed.

Lemma string_app_assoc (a b c : string) :
  ((a ++ b) ++ c)%string = (a ++ b ++ c)%string.
Proof.
  induction a as [|x a IH]; [reflexivity|].
  rewrite !append_cons, IH. reflexivity.
Qed.

Section StringLemmas.

Variable p : ascii -> bool.

Lemma rstrip_with_app_keep (a b : string) :
  rstrip_with p b <> EmptyString ->
  rstrip_with p (a ++ b) = (a ++ rstrip_with p b)%string.
Proof.
  intros Hb. induction a as [|c a IH]; [reflexivity|].
  rewrite !append_cons. simpl. rewrite IH.
  destruct (a ++ rstrip_with p b)%string eqn:E; [|reflexivity].
  destruct a; [contradiction|discriminate].
Qed.

Lemma rstrip_with_idem (s : string) :
  rstrip_with p (rstrip_with p s) = rstrip_with p s.
Proof.
  induction s as [|c s IH]; simpl; [reflexivity|].
  destruct (rstrip_with p s) as [|c' r] eqn:E.
  - destruct (p c) eqn:Ec; simpl; [reflexivity|]. rewrite Ec. reflexivity.
  - simpl in *. rewrite IH. reflexivity.
Qed.

Lemma rstrip_with_empty_inv (s : string) :
  rstrip_with p s = EmptyString -> all_chars p s = true.
Proof.
  induction s as [|c s IH]; simpl; [reflexivity|].
  destruct (rstrip_with p s) eqn:E; [|discriminate].
  destruct (p c); [intros _; apply IH; reflexivity|discriminate].
Qed.

Lemma all_chars_app (a b : string) :
  all_chars p (a ++ b) = all_chars p a && all_chars p b.
Proof.
  induction a as [|c a IH]; [reflexivity|].
  rewrite append_cons. simpl. rewrite IH. apply andb_assoc.
Qed.

Lemma remove_chars_none (s : string) :
  all_chars (fun c => negb (p c)) s = true -> remove_chars p s = s.
Proof.
  induction s as [|c s IH]; simpl; [reflexivity|].
  intros H. apply andb_prop in H as [Hc Hs].
  apply negb_true_iff in Hc. rewrite Hc, IH by exact Hs. reflexivity.
Qed.

Lemma remove_chars_clean (s : string) :
  all_chars (fun c => negb (p c)) (remove_chars p s) = true.
Proof.
  induction s as [|c s IH]; simpl; [reflexivity|].
  destruct (p c) eqn:E; [exact IH|]. simpl. rewrite E, IH. reflexivity.
Qed.

Lemma break_at_app_clean (a b : string) (c : ascii) :
  all_chars (fun x => negb (p x)) a = true -> p c = true ->
  break_at p (a ++ String c b) = (a, String c b).
Proof.
  intros Ha Hc. induction a as [|x a IH];
    [change (EmptyString ++ String c b)%string with (String c b)
    |rewrite append_cons]; simpl.
  - rewrite Hc. reflexivity.
  - simpl in Ha. apply andb_prop in Ha as [Hx Ha].
    apply negb_true_iff in Hx. rewrite Hx, IH by exact Ha. reflexivity.
Qed.

Lemma break_at_fst_clean (s : string) :
  all_chars (fun x => negb (p x)) (fst (break_at p s)) = true.
Proof.
  induction s as [|c s IH]; simpl; [reflexivity|].
  destruct (p c) eqn:E; [reflexivity|].
  destruct (break_at p s) as [a b]. simpl in *. rewrite E, IH. reflexivity.
Qed.

(** Both pieces of [break_at] keep any property all characters had. *)
Lemma break_at_all_chars (q : ascii -> bool) (s : string) :
  all_chars q s = true ->
  all_chars q (fst (break_at p s)) = true
  /\ all_chars q (snd (break_at p s)) = true.
Proof.
  induction s as [|c s IH]; simpl; [auto|].
  intros H. apply andb_prop in H as [Hc Hs].
  destruct (p c); simpl; [rewrite Hc, Hs; auto|].
  destruct (break_at p s) as [a b]. simpl in *.
  destruct (IH Hs) as [Ha Hb]. rewrite Hc, Ha, Hb. auto.
Qed.

Lemma lstrip_with_all_chars (q : ascii -> bool) (s : string) :
  all_chars q s = true -> all_chars q (lstrip_with p s) = true.
Proof.
  induction s as [|c s IH]; simpl; [auto|].
  intros H. destruct (p c); [|exact H].
  apply andb_prop in H as [_ Hs]. auto.
Qed.

End StringLemmas.

(** ** The API base URL *)

Section NormalizeUrl.

Variable netloc_ok : string -> bool.

Local Abbreviation normalize := (_normalize_api_base_url netloc_ok).

Lemma split_scheme_all_chars (q : ascii -> bool) (url : string) :
  all_chars q url = true ->
  all_chars q (snd (PyUrl.split_scheme url)) = true.
Proof.
  intros H. unfold PyUrl.split_scheme.
  pose proof (break_at_all_chars (Ascii.eqb ":") q url H) as [_ Hb].
  destruct (break_at (Ascii.eqb ":") url) as [pre rest]. simpl in Hb.
  destruct pre as [|c0 pre]; [exact H|].
  destruct rest as [|c rest]; [exact H|].
  destruct (is_alpha c0 && all_chars PyUrl.is_scheme_char (String c0 pre));
    [|exact H].
  simpl in *. apply andb_prop in Hb as [_ Hb]. exact Hb.
Qed.

(** What a successful [urlsplit] guarantees about a non-empty netloc. *)
Lemma urlsplit_netloc_inv (url : string) (parts : PyUrl.SplitResult) :
  PyUrl.urlsplit netloc_ok url = Ok parts ->
  nonempty (PyUrl.netloc parts) = true ->
  PyUrl.brackets_unbalanced (PyUrl.netloc parts) = false
  /\ netloc_ok (PyUrl.netloc parts) = true
  /\ all_chars host_char (PyUrl.netloc parts) = true
  /\ all_chars safe_char (PyUrl.netloc parts) = true.
Proof.
  unfold PyUrl.urlsplit.
  set (u0 := remove_chars PyUrl.is_unsafe
               (lstrip_with PyUrl.is_c0_or_space url)).
  assert (Hsafe0 : all_chars safe_char u0 = true)
    by apply remove_chars_clean.
  pose proof (split_scheme_all_chars safe_char u0 Hsafe0) as Hsafe1.
  destruct (PyUrl.split_scheme u0) as [sch u1]. simpl in Hsafe1.
  assert (Hfinish : forall n u,
             (let '(url0, fragment) := PyUrl.split_once "#" u in
              let '(url1, query) := PyUrl.split_once "?" url0 in
              if netloc_ok n
              then Ok (PyUrl.mk_split sch n url1 query fragment)
              else Raise (ValueError "netloc contains invalid characters"))
             = Ok parts ->
             PyUrl.netloc parts = n /\ netloc_ok n = true).
  { intros n u. destruct (PyUrl.split_once "#" u) as [a b].
    destruct (PyUrl.split_once "?" a) as [a' c].
    destruct (netloc_ok n) eqn:E; [|discriminate].
    intros [= <-]. auto. }
  assert (Hempty : forall u,
             (let '(url0, fragment) := PyUrl.split_once "#" u in
              let '(url1, query) := PyUrl.split_once "?" url0 in
              if netloc_ok ""
              then Ok (PyUrl.mk_split sch "" url1 query fragment)
              else Raise (ValueError "netloc contains invalid characters"))
             = Ok parts ->
             nonempty (PyUrl.netloc parts) = true -> False).
  { intros u H Hne. apply Hfinish in H as [Hn _]. rewrite Hn in Hne.
    discriminate. }
  destruct u1 as [|c1 u1]; [intros H Hne; exfalso; eauto|].
  destruct (Ascii.eqb_spec c1 "/") as [->|Hc1].
  2:{ intros H Hne. exfalso. apply (Hempty (String c1 u1)); [|exact Hne].
      rewrite <- H. clear -Hc1.
      destruct c1 as [[] [] [] [] [] [] [] []]; try reflexivity.
      contradiction. }
  destruct u1 as [|c2 u1]; [intros H Hne; exfalso; eauto|].
  destruct (Ascii.eqb_spec c2 "/") as [->|Hc2].
  2:{ intros H Hne. exfalso.
      apply (Hempty (String "/" (String c2 u1))); [|exact Hne].
      rewrite <- H. clear -Hc2.
      destruct c2 as [[] [] [] [] [] [] [] []]; try reflexivity.
      contradiction. }
  simpl in Hsafe1.
  pose proof (break_at_fst_clean PyUrl.is_netloc_delim u1) as Hhost.
  pose proof (break_at_all_chars PyUrl.is_netloc_delim safe_char u1 Hsafe1)
    as [Hsafe2 _].
  destruct (break_at PyUrl.is_netloc_delim u1) as [n u2]. simpl in *.
  destruct (PyUrl.brackets_unbalanced n) eqn:Hbr; [discriminate|].
  intros H _. apply Hfinish in H as [Hn Hok]. rewrite Hn. auto.
Qed.

(** Re-splitting the URL the normaliser builds for a bare host. *)
Lemma urlsplit_api (sch n : string) :
  sch = "http" \/ sch = "https" ->
  nonempty n = true ->
  PyUrl.brackets_unbalanced n = false -> netloc_ok n = true ->
  all_chars host_char n = true -> all_chars safe_char n = true ->
  PyUrl.urlsplit netloc_ok (sch ++ "://" ++ n ++ "/api")%string
  = Ok (PyUrl.mk_split sch n "/api" "" "").
Proof.
  intros Hsch Hne Hbr Hok Hhost Hsafe.
  assert (Hclean : remove_chars PyUrl.is_unsafe (n ++ "/api")%string
                   = (n ++ "/api")%string).
  { apply remove_chars_none. rewrite all_chars_app.
    fold safe_char. rewrite Hsafe. reflexivity. }
  assert (Hbreak : break_at PyUrl.is_netloc_delim (n ++ "/api")%string
                   = (n, "/api")).
  { apply break_at_app_clean; [exact Hhost|reflexivity]. }
  unfold PyUrl.urlsplit.
  destruct Hsch as [-> | ->];
    rewrite !append_cons, !append_nil; simpl;
    rewrite Hclean; unfold PyUrl.split_scheme; simpl;
    rewrite Hbreak, Hbr; simpl; rewrite Hok; reflexivity.
Qed.

Lemma strip_api (sch n : string) :
  sch = "http" \/ sch = "https" ->
  strip (sch ++ "://" ++ n ++ "/api")%string
  = (sch ++ "://" ++ n ++ "/api")%string.
Proof.
  intros Hsch. unfold strip.
  assert (Hl : lstrip_with is_space (sch ++ "://" ++ n ++ "/api")%string
               = (sch ++ "://" ++ n ++ "/api")%string)
    by (destruct Hsch as [-> | ->]; reflexivity).
  rewrite Hl.
  replace (sch ++ "://" ++ n ++ "/api")%string
    with ((sch ++ "://" ++ n) ++ "/api")%string
    by (rewrite <- !string_app_assoc; reflexivity).
  rewrite rstrip_with_app_keep; [reflexivity|discriminate].
Qed.

Lemma rstrip_slash_api (sch n : string) :
  rstrip_slash (sch ++ "://" ++ n ++ "/api")%string
  = (sch ++ "://" ++ n ++ "/api")%string.
Proof.
  unfold rstrip_slash.
  replace (sch ++ "://" ++ n ++ "/api")%string
    with ((sch ++ "://" ++ n) ++ "/api")%string
    by (rewrite <- !string_app_assoc; reflexivity).
  rewrite rstrip_with_app_keep; [reflexivity|discriminate].
Qed.

Lemma nonempty_app_r (a b : string) :
  nonempty b = true -> nonempty (a ++ b)%string = true.
Proof. destruct a; [auto|reflexivity]. Qed.

(** The URL built for a bare host is a fixed point. *)
Lemma normalize_api (sch n : string) :
  sch = "http" \/ sch = "https" ->
  nonempty n = true ->
  PyUrl.brackets_unbalanced n = false -> netloc_ok n = true ->
  all_chars host_char n = true -> all_chars safe_char n = true ->
  normalize (JStr (sch ++ "://" ++ n ++ "/api")%string)
  = (sch ++ "://" ++ n ++ "/api")%string.
Proof.
  intros Hsch Hne Hbr Hok Hhost Hsafe.
  unfold _normalize_api_base_url.
  rewrite (strip_api sch n Hsch), rstrip_slash_api.
  rewrite (urlsplit_api sch n Hsch Hne Hbr Hok Hhost Hsafe). simpl.
  assert (Hn : nonempty (sch ++ "://" ++ n ++ "/api")%string = true)
    by (destruct Hsch as [-> | ->]; reflexivity).
  rewrite Hn, Hne. simpl.
  destruct Hsch as [-> | ->]; reflexivity.
Qed.

Lemma urlunsplit_api (sch n : string) :
  sch = "http" \/ sch = "https" -> nonempty n = true ->
  rstrip_slash (PyUrl.urlunsplit (PyUrl.mk_split sch n "/api" "" ""))
  = (sch ++ "://" ++ n ++ "/api")%string.
Proof.
  intros Hsch Hne. unfold PyUrl.urlunsplit. simpl. rewrite Hne. simpl.
  assert (Hs : nonempty sch = true) by (destruct Hsch as [-> | ->]; reflexivity).
  rewrite Hs.
  change (sch ++ ":" ++ "//" ++ n ++ "/api")%string
    with (sch ++ "://" ++ n ++ "/api")%string.
  apply rstrip_slash_api.
Qed.

Lemma normalize_unfold (v : string) :
  normalize (JStr v)
  = if negb (nonempty (strip v)) then ""
    else normalize_trimmed netloc_ok (rstrip_slash (strip v)).
Proof. reflexivity. Qed.

(** The trimmed URL is either kept or replaced by [scheme://netloc/api]. *)
Lemma normalize_trimmed_cases (url : string) :
  normalize_trimmed netloc_ok url = url
  \/ exists sch n,
      (sch = "http" \/ sch = "https")
      /\ nonempty n = true
      /\ PyUrl.brackets_unbalanced n = false /\ netloc_ok n = true
      /\ all_chars host_char n = true /\ all_chars safe_char n = true
      /\ normalize_trimmed netloc_ok url
         = (sch ++ "://" ++ n ++ "/api")%string.
Proof.
  unfold normalize_trimmed.
  destruct (PyUrl.urlsplit netloc_ok url) as [parts|e|] eqn:Hsplit;
    [|destruct e; auto|auto].
  destruct (((PyUrl.scheme parts =? "http")%string
             || (PyUrl.scheme parts =? "https")%string)
            && nonempty (PyUrl.netloc parts)) eqn:Hhttp; [|auto].
  destruct ((rstrip_slash (PyUrl.path parts) =? "")%string
            || (rstrip_slash (PyUrl.path parts) =? "/")%string); [|auto].
  right. apply andb_prop in Hhttp as [Hsch Hne].
  assert (Hsch' : PyUrl.scheme parts = "http"
                  \/ PyUrl.scheme parts = "https").
  { apply orb_prop in Hsch as [H|H]; apply String.eqb_eq in H; auto. }
  destruct (urlsplit_netloc_inv url parts Hsplit Hne)
    as (Hbr & Hok & Hhost & Hsafe).
  exists (PyUrl.scheme parts), (PyUrl.netloc parts).
  rewrite (urlunsplit_api _ _ Hsch' Hne). auto 10.
Qed.

(** C10 (as the code has it).  Normalising again leaves a normalised URL
    unchanged whenever the normalised URL has no white space at its ends,
    that is whenever [strip] keeps it. *)
Theorem normalize_api_base_url_idempotent (value : json) :
  strip (normalize value) = normalize value ->
  normalize (JStr (normalize value)) = normalize value.
Proof.
  destruct value as [| | |v| |]; try (intros _; reflexivity).
  destruct (nonempty (strip v)) eqn:Hv.
  2:{ assert (Hr : normalize (JStr v) = "")
        by (rewrite normalize_unfold, Hv; reflexivity).
      rewrite Hr. intros _. reflexivity. }
  set (url := rstrip_slash (strip v)).
  assert (Hr : normalize (JStr v) = normalize_trimmed netloc_ok url)
    by (rewrite normalize_unfold, Hv; reflexivity).
  rewrite Hr. clear Hr.
  destruct (normalize_trimmed_cases url)
    as [Hkeep|(sch & n & Hsch & Hne & Hbr & Hok & Hhost & Hsafe & Hapi)].
  - rewrite Hkeep. intros Hs. rewrite normalize_unfold, Hs.
    destruct (nonempty url) eqn:Hu;
      [|destruct url; [reflexivity|discriminate]].
    change (negb true) with false. cbv iota.
    unfold url at 1. unfold rstrip_slash. rewrite rstrip_with_idem.
    exact Hkeep.
  - rewrite Hapi. intros _. apply normalize_api; assumption.
Qed.

End NormalizeUrl.

Lemma normalize_api_base_url_idempotent_witness :
  let normalize := _normalize_api_base_url (fun _ => true) in
  let r := normalize (JStr "  https://immich.example.com/// ") in
  r = "https://immich.example.com/api"
  /\ strip r = r /\ normalize (JStr r) = r.
Proof.
  assert (Hs : strip (_normalize_api_base_url (fun _ => true)
                        (JStr "  https://immich.example.com/// "))
               = _normalize_api_base_url (fun _ => true)
                   (JStr "  https://immich.example.com/// "))
    by reflexivity.
  split; [reflexivity|]. split; [exact Hs|].
  exact (normalize_api_base_url_idempotent (fun _ => true) _ Hs).
Defined.

(** Whatever the netloc validation, ["/ /"] normalises to ["/ "] and that
    to the empty string. *)
Lemma normalize_slash_space_slash (netloc_ok : string -> bool) :
  _normalize_api_base_url netloc_ok (JStr "/ /") = "/ "
  /\ _normalize_api_base_url netloc_ok (JStr "/ ") = "".
Proof.
  split; unfold _normalize_api_base_url, PyUrl.urlsplit; simpl;
    destruct (netloc_ok ""); reflexivity.
Qed.

(** C10 as stated fails: ["/ /"] normalises to ["/ "], a slash and a space,
    which normalises to the empty string. *)
Lemma normalize_api_base_url_not_idempotent :
  let normalize := _normalize_api_base_url (fun _ => true) in
  normalize (JStr "/ /") = "/ "
  /\ normalize (JStr (normalize (JStr "/ /"))) = ""
  /\ normalize (JStr (normalize (JStr "/ /"))) <> normalize (JStr "/ /").
Proof.
  cbv zeta.
  destruct (normalize_slash_space_slash (fun _ => true)) as [H1 H2].
  rewrite H1, H2. split; [reflexivity|]. split; [reflexivity|discriminate].
Qed.

(** ** Person tokens *)

Section PersonTokens.

Lemma rstrip_with_last (p : ascii -> bool) (s u : string) (c : ascii) :
  rstrip_with p s = (u ++ String c EmptyString)%string -> p c = false.
Proof.
  revert u. induction s as [|x s IH]; intros u H; simpl in H.
  - destruct u; discriminate.
  - destruct (rstrip_with p s) as [|y r] eqn:E.
    + destruct (p x) eqn:Ex; [destruct u; discriminate|].
      destruct u as [|z u]; [injection H as <-; exact Ex|].
      rewrite append_cons in H. injection H as _ H. destruct u; discriminate.
    + destruct u as [|z u].
      * rewrite append_nil in H. discriminate.
      * rewrite append_cons in H. injection H as _ H. eapply IH. exact H.
Qed.

Lemma strip_no_trailing_newline (s u : string) :
  strip s <> (u ++ String "010" EmptyString)%string.
Proof.
  intros H. apply rstrip_with_last in H. discriminate.
Qed.

(** A string [UUID_PATTERN] matches is a UUID text, unless it is one
    followed by the newline that [$] tolerates. *)
Lemma UUID_PATTERN_match_inv (t : string) :
  UUID_PATTERN_match t = true ->
  is_uuid_text t = true
  \/ exists u, t = (u ++ String "010" EmptyString)%string.
Proof.
  unfold UUID_PATTERN_match, PyRe.UUID_ITEMS. simpl. intros H.
  do 36 (destruct t as [|? t]; [discriminate H|];
         match type of H with
         | (match (if ?c then _ else _) with _ => _ end) = true =>
             let E := fresh "E" in
             destruct c eqn:E; [|discriminate H]
         end).
  destruct t as [|c t].
  - left. unfold is_uuid_text, uuid_char_ok. simpl.
    repeat match goal with
           | E : _ = true |- _ => rewrite E; clear E
           end.
    reflexivity.
  - right. simpl in H. destruct t; [|discriminate H].
    apply Ascii.eqb_eq in H. subst c.
    eexists (String _ (String _ (String _ (String _ (String _ (String _
            (String _ (String _ (String _ (String _ (String _ (String _
            (String _ (String _ (String _ (String _ (String _ (String _
            (String _ (String _ (String _ (String _ (String _ (String _
            (String _ (String _ (String _ (String _ (String _ (String _
            (String _ (String _ (String _ (String _ (String _ (String _
            EmptyString)))))))))))))))))))))))))))))))))))).
    reflexivity.
Qed.

Lemma match_uuid_prefix_inv (s g : string) :
  PyRe.match_uuid_prefix s = Some g ->
  all_chars (fun c => is_hex c || Ascii.eqb c "-") g = true.
Proof.
  unfold PyRe.match_uuid_prefix.
  destruct ((String.length (take 36 s) =? 36)%nat) eqn:El; simpl;
    [|discriminate].
  match goal with
  | |- context [all_chars ?q ?x] => destruct (all_chars q x) eqn:Ea
  end; [|discriminate].
  intros [= <-]. exact Ea.
Qed.

Lemma token_of_part_uuid (part token : string) :
  token_of_part part = Some token ->
  UUID_PATTERN_match token = true ->
  is_uuid_text token = true.
Proof.
  unfold token_of_part.
  destruct (nonempty part); simpl; [|discriminate].
  set (candidate := strip (fst (break_at (Ascii.eqb "#") part))).
  destruct (nonempty candidate); simpl; [|discriminate].
  assert (Hcand : UUID_PATTERN_match candidate = true ->
                  is_uuid_text candidate = true).
  { intros Hm. destruct (UUID_PATTERN_match_inv _ Hm) as [|[u Hu]]; [auto|].
    exfalso. exact (strip_no_trailing_newline _ _ Hu). }
  destruct (PyRe.match_uuid_prefix candidate) as [g|] eqn:Eg.
  - destruct (UUID_PATTERN_match g) eqn:Em.
    + intros [= <-] _.
      destruct (UUID_PATTERN_match_inv _ Em) as [|[u Hu]]; [auto|].
      exfalso. apply match_uuid_prefix_inv in Eg.
      rewrite Hu, all_chars_app in Eg. simpl in Eg.
      rewrite andb_false_r in Eg. discriminate.
    + intros [= <-]. exact Hcand.
  - intros [= <-]. exact Hcand.
Qed.

Lemma parse_people_input_tokens (text token : string) :
  token ∈ parse_people_input text ->
  exists part, token_of_part part = Some token.
Proof.
  unfold parse_people_input.
  destruct (nonempty text); simpl; [|intros H; inversion H].
  intros H. apply list_elem_of_omap in H as (part & _ & Hp). eauto.
Qed.

(** C9 (as the code has it).  Every token of the people input that is
    accepted as a literal identifier, that is every token
    [UUID_PATTERN] matches, has the textual form of a UUID: 36
    characters in groups of 8-4-4-4-12 hexadecimal digits, whatever the
    version and variant digits. *)
Theorem passthrough_token_is_uuid_text (people_text token : string) :
  token ∈ parse_people_input people_text ->
  UUID_PATTERN_match token = true ->
  is_uuid_text token = true.
Proof.
  intros Hin Hm.
  destruct (parse_people_input_tokens _ _ Hin) as [part Hp].
  exact (token_of_part_uuid part token Hp Hm).
Qed.

Lemma passthrough_token_is_uuid_text_witness :
  let text := "Jo, 123e4567-e89b-42d3-a456-426614174000 # Ann" in
  let token := "123e4567-e89b-42d3-a456-426614174000" in
  token ∈ parse_people_input text
  /\ UUID_PATTERN_match token = true
  /\ is_uuid_text token = true.
Proof.
  cbv zeta.
  assert (Hin : "123e4567-e89b-42d3-a456-426614174000"
                ∈ parse_people_input
                    "Jo, 123e4567-e89b-42d3-a456-426614174000 # Ann").
  { vm_compute. apply list_elem_of_In. simpl. auto. }
  assert (Hm : UUID_PATTERN_match "123e4567-e89b-42d3-a456-426614174000"
               = true) by reflexivity.
  split; [exact Hin|]. split; [exact Hm|].
  exact (passthrough_token_is_uuid_text _ _ Hin Hm).
Defined.

(** C9 as stated fails: the nil UUID is taken as a literal identifier
    although it is not a version 4 UUID. *)
Lemma passthrough_token_not_v4 :
  let token := "00000000-0000-0000-0000-000000000000" in
  parse_people_input token = [token]
  /\ UUID_PATTERN_match token = true
  /\ is_uuid_text token = true
  /\ is_uuid_v4_text token = false.
Proof. vm_compute. auto. Qed.

End PersonTokens.

(** ** Resolving a name token *)

Section NameTokens.

Context {E : Env}.

Lemma match_names_of_spec (matches : list person) :
  NoDup (match_names_of matches)
  /\ forall n, n ∈ match_names_of matches <->
               n <> EmptyString
               /\ exists p, p ∈ matches /\ person_name p = Some n.
Proof.
  unfold match_names_of.
  set (names := omap _ matches).
  pose proof (StringSort.Permuted_sort (elements (list_to_set names
                                                    : gset string))) as Hp.
  split.
  - rewrite <- Hp. apply NoDup_elements.
  - intros n. rewrite <- Hp, elem_of_elements, elem_of_list_to_set.
    unfold names. rewrite list_elem_of_omap. split.
    + intros (p & Hin & Hn).
      destruct (person_name p) as [m|] eqn:Em; [|discriminate].
      destruct m as [|c m]; simpl in Hn; [discriminate|].
      injection Hn as <-. split; [discriminate|]. eauto.
    + intros (Hne & p & Hin & Hn). exists p. split; [exact Hin|].
      rewrite Hn. destruct n; [contradiction|reflexivity].
Qed.

Lemma choose_person_exact (token : string) (matches : list person) p :
  filter (fun q => is_exact_match (lower token) q = true) matches = [p] ->
  choose_person token matches = Ok p.
Proof.
  intros H. unfold choose_person.
  destruct matches as [|m ms]; [discriminate H|].
  rewrite H. reflexivity.
Qed.

Lemma choose_person_single (token : string) p :
  choose_person token [p] = Ok p.
Proof.
  unfold choose_person.
  rewrite filter_singleton; [|exact []].
  destruct (decide _); reflexivity.
Qed.

Lemma choose_person_ambiguous (token : string) (matches : list person) :
  length (filter (fun q => is_exact_match (lower token) q = true) matches)
  <> 1%nat ->
  length matches <> 1%nat ->
  matches <> [] ->
  choose_person token matches
  = Raise (ValueError (ambiguous_message token (match_names_of matches))).
Proof.
  intros Hex Hlen Hne. unfold choose_person.
  destruct matches as [|m ms]; [contradiction|].
  destruct (filter _ (m :: ms)) as [|q [|q' l]]; simpl in Hex; try lia;
    destruct ms; simpl in Hlen; try lia; reflexivity.
Qed.

(** One name lookup that the repository answers. *)
Lemma search_people_by_name_answered (name : string) (with_hidden : bool)
  (w : world E) s' status matches :
  search_person E (server w) name with_hidden = (s', HttpOk status matches) ->
  exists w',
    search_people_by_name name with_hidden w = (Ok matches, w')
    /\ clock w' = S (clock w).
Proof.
  intros Hs. unfold search_people_by_name, bind, log_message, emit, http.
  simpl. rewrite Hs. eexists. split; reflexivity.
Qed.

(** A text holding one name token, looked up successfully. *)
Lemma resolve_person_ids_one_name (text token : string) (with_hidden : bool)
  (w : world E) s' status matches :
  parse_people_input text = [token] ->
  UUID_PATTERN_match token = false ->
  stop_flag E (clock w) = false ->
  search_person E (server w) token with_hidden = (s', HttpOk status matches) ->
  fst (resolve_person_ids text with_hidden w)
  = match choose_person token matches with
    | Ok p =>
        match person_id p with
        | Some (String c s) => Ok [String c s]
        | _ => Raise (ValueError ("Person search result missing id for '"
                                  ++ token ++ "'."))
        end
    | Raise e => Raise e
    | OutOfFuel => OutOfFuel
    end.
Proof.
  intros Hparse Huuid Hflag Hs.
  unfold resolve_person_ids. rewrite Hparse. simpl.
  unfold bind at 1. unfold stop_event_is_set. rewrite Hflag, Huuid.
  unfold bind at 1.
  destruct (search_people_by_name_answered token with_hidden w s' status
              matches Hs) as (w' & -> & _).
  unfold bind, lift.
  destruct (choose_person token matches) as [p| |]; try reflexivity.
  destruct (person_id p) as [[|c s]|]; reflexivity.
Qed.

(** C5.  For a token that is not a UUID and a non-empty list of
    candidates returned by the name search: when exactly one candidate's
    trimmed name equals the token up to case, resolution yields that
    candidate's id, whatever other candidates there are; when none does
    and there is exactly one candidate, resolution yields that
    candidate's id; in every other case resolution fails with the
    ambiguity error, whose list holds every non-empty candidate name
    exactly once. *)
Theorem resolve_person_ids_by_name (text token : string)
  (with_hidden : bool) (w : world E) s' status (matches : list person) :
  parse_people_input text = [token] ->
  UUID_PATTERN_match token = false ->
  stop_flag E (clock w) = false ->
  search_person E (server w) token with_hidden = (s', HttpOk status matches) ->
  matches <> [] ->
  let exact :=
    filter (fun q => is_exact_match (lower token) q = true) matches in
  let outcome := fst (resolve_person_ids text with_hidden w) in
  (forall p id,
      exact = [p] -> person_id p = Some id -> id <> EmptyString ->
      outcome = Ok [id])
  /\ (forall p id,
         exact = [] -> matches = [p] ->
         person_id p = Some id -> id <> EmptyString ->
         outcome = Ok [id])
  /\ (length exact <> 1%nat -> length matches <> 1%nat ->
      exists names,
        outcome = Raise (ValueError (ambiguous_message token names))
        /\ NoDup names
        /\ forall n, n ∈ names <->
                     n <> EmptyString
                     /\ exists p, p ∈ matches /\ person_name p = Some n).
Proof.
  intros Hparse Huuid Hflag Hs Hne exact outcome.
  assert (Hout := resolve_person_ids_one_name text token with_hidden w s'
                    status matches Hparse Huuid Hflag Hs).
  fold outcome in Hout.
  split; [|split].
  - intros p id Hex Hid Hidne. rewrite Hout.
    rewrite (choose_person_exact token matches p Hex), Hid.
    destruct id; [contradiction|reflexivity].
  - intros p id _ Hm Hid Hidne. rewrite Hout, Hm.
    rewrite choose_person_single, Hid.
    destruct id; [contradiction|reflexivity].
  - intros Hex Hlen. exists (match_names_of matches).
    rewrite Hout, (choose_person_ambiguous token matches Hex Hlen Hne).
    split; [reflexivity|]. apply match_names_of_spec.
Qed.

End NameTokens.

(** The repository of the example: a name search returns Jo and Jo Ann. *)
Lemma resolve_person_ids_by_name_witness :
  let E := example_env (fun _ => false) in
  let w : world E := mk_world (E := E) tt 0%nat [] in
  parse_people_input "jo" = ["jo"]
  /\ UUID_PATTERN_match "jo" = false
  /\ fst (resolve_person_ids "jo" false w) = Ok ["p-jo"].
Proof.
  cbv zeta.
  assert (Hp : parse_people_input "jo" = ["jo"]) by reflexivity.
  assert (Hu : UUID_PATTERN_match "jo" = false) by reflexivity.
  split; [exact Hp|]. split; [exact Hu|].
  refine (proj1 (resolve_person_ids_by_name (E := example_env (fun _ => false))
                   "jo" "jo" false
                   (mk_world (E := example_env (fun _ => false)) tt 0%nat [])
                   tt 200
                   [mk_person (Some "p-jo") (Some "Jo");
                    mk_person (Some "p-ann") (Some "Jo Ann")]
                   Hp Hu _ _ _)
                (mk_person (Some "p-jo") (Some "Jo")) "p-jo" _ _ _);
    try reflexivity; discriminate.
Defined.

(** ** Texts made of UUIDs *)

Section UuidTexts.

Lemma replace_char_none (a b : ascii) (s : string) :
  all_chars (fun c => negb (Ascii.eqb c a)) s = true ->
  replace_char a b s = s.
Proof.
  induction s as [|c s IH]; simpl; [reflexivity|].
  intros H. apply andb_prop in H as [Hc Hs].
  apply negb_true_iff in Hc. rewrite Hc, IH by exact Hs. reflexivity.
Qed.

Lemma split_on_single (sep : ascii) (s : string) :
  all_chars (fun c => negb (Ascii.eqb c sep)) s = true ->
  split_on sep s = [s].
Proof.
  induction s as [|c s IH]; simpl; [reflexivity|].
  intros H. apply andb_prop in H as [Hc Hs].
  apply negb_true_iff in Hc. rewrite Hc, IH by exact Hs. reflexivity.
Qed.

Lemma split_on_app (sep : ascii) (u r : string) :
  all_chars (fun c => negb (Ascii.eqb c sep)) u = true ->
  split_on sep (u ++ String sep r) = u :: split_on sep r.
Proof.
  induction u as [|c u IH]; intros H.
  - rewrite append_nil. simpl. rewrite Ascii.eqb_refl. reflexivity.
  - rewrite append_cons. simpl in *. apply andb_prop in H as [Hc Hu].
    apply negb_true_iff in Hc. rewrite Hc, IH by exact Hu. reflexivity.
Qed.

Lemma rstrip_with_clean (p : ascii -> bool) (s : string) :
  all_chars (fun c => negb (p c)) s = true -> rstrip_with p s = s.
Proof.
  induction s as [|c s IH]; simpl; [reflexivity|].
  intros H. apply andb_prop in H as [Hc Hs].
  apply negb_true_iff in Hc. rewrite IH by exact Hs.
  destruct s; [rewrite Hc|]; reflexivity.
Qed.

Lemma strip_clean (s : string) :
  all_chars (fun c => negb (is_space c)) s = true -> strip s = s.
Proof.
  intros H. unfold strip.
  assert (Hl : lstrip_with is_space s = s).
  { destruct s as [|c s]; [reflexivity|]. simpl in *.
    apply andb_prop in H as [Hc _]. apply negb_true_iff in Hc.
    rewrite Hc. reflexivity. }
  rewrite Hl. apply rstrip_with_clean. exact H.
Qed.

Lemma break_at_none (p : ascii -> bool) (s : string) :
  all_chars (fun c => negb (p c)) s = true ->
  break_at p s = (s, EmptyString).
Proof.
  induction s as [|c s IH]; simpl; [reflexivity|].
  intros H. apply andb_prop in H as [Hc Hs].
  apply negb_true_iff in Hc. rewrite Hc, IH by exact Hs. reflexivity.
Qed.

Lemma all_chars_impl (p q : ascii -> bool) (s : string) :
  (forall c, p c = true -> q c = true) ->
  all_chars p s = true -> all_chars q s = true.
Proof.
  intros Hpq. induction s as [|c s IH]; simpl; [auto|].
  intros H. apply andb_prop in H as [Hc Hs].
  rewrite (Hpq c Hc), IH by exact Hs. reflexivity.
Qed.

Lemma uuid_class_plain (c : ascii) :
  uuid_class c = true ->
  negb (Ascii.eqb c ",") = true /\ negb (Ascii.eqb c "010") = true
  /\ negb (Ascii.eqb c "#") = true /\ negb (is_space c) = true.
Proof.
  destruct c as [[] [] [] [] [] [] [] []]; vm_compute; intros H;
    try discriminate H; auto.
Qed.

(** What the specification's UUID text means for the program's patterns. *)
Lemma is_uuid_text_inv (u : string) :
  is_uuid_text u = true ->
  UUID_PATTERN_match u = true
  /\ PyRe.match_uuid_prefix u = Some u
  /\ all_chars uuid_class u = true
  /\ nonempty u = true.
Proof.
  unfold is_uuid_text. intros H. apply andb_prop in H as [Hl H].
  apply Nat.eqb_eq in Hl.
  do 36 (destruct u as [|? u]; [discriminate Hl|]).
  destruct u; [|discriminate Hl]. clear Hl.
  unfold uuid_char_ok in H. simpl in H.
  repeat match type of H with
         | (_ && _) = true => let E := fresh "E" in apply andb_prop in H as [E H]
         end.
  unfold UUID_PATTERN_match, PyRe.match_uuid_prefix, uuid_class. simpl.
  repeat match goal with
         | E : _ = true |- _ => rewrite E; clear E
         end.
  simpl. rewrite !orb_true_r. auto.
Qed.

Lemma token_of_part_uuid_text (u : string) :
  is_uuid_text u = true -> token_of_part u = Some u.
Proof.
  intros H. destruct (is_uuid_text_inv u H) as (Hm & Hp & Hc & Hne).
  unfold token_of_part. rewrite Hne. simpl.
  rewrite break_at_none
    by (eapply all_chars_impl; [|exact Hc]; intros c Hcl;
        apply (uuid_class_plain c Hcl)).
  simpl. rewrite strip_clean
    by (eapply all_chars_impl; [|exact Hc]; intros c Hcl;
        apply (uuid_class_plain c Hcl)).
  rewrite Hne, Hp, Hm. reflexivity.
Qed.

Lemma split_on_join (us : list string) :
  Forall (fun u => is_uuid_text u = true) us -> us <> [] ->
  split_on "," (join "," us) = us.
Proof.
  induction 1 as [|u us Hu Hus IH]; [contradiction|]. intros _.
  destruct (is_uuid_text_inv u Hu) as (_ & _ & Hc & _).
  assert (Hcomma : all_chars (fun c => negb (Ascii.eqb c ",")) u = true)
    by (eapply all_chars_impl; [|exact Hc]; intros c Hcl;
        apply (uuid_class_plain c Hcl)).
  destruct us as [|u' us].
  - simpl. apply split_on_single. exact Hcomma.
  - change (join "," (u :: u' :: us))
      with (u ++ String "," (join "," (u' :: us)))%string.
    rewrite split_on_app by exact Hcomma. f_equal. apply IH. discriminate.
Qed.

Lemma join_all_chars (p : ascii -> bool) (us : list string) :
  p ","%char = true ->
  Forall (fun u => all_chars p u = true) us ->
  all_chars p (join "," us) = true.
Proof.
  intros Hp. induction 1 as [|u us Hu Hus IH]; [reflexivity|].
  destruct us as [|u' us]; [exact Hu|].
  change (join "," (u :: u' :: us))
    with (u ++ String "," (join "," (u' :: us)))%string.
  rewrite all_chars_app, Hu. simpl. rewrite Hp. exact IH.
Qed.

Lemma tokens_of_uuid_parts (us : list string) :
  Forall (fun u => is_uuid_text u = true) us ->
  omap token_of_part (map strip us) = us.
Proof.
  induction 1 as [|x xs Hx Hxs IH]; [reflexivity|].
  destruct (is_uuid_text_inv x Hx) as (_ & _ & Hc & _).
  simpl. rewrite strip_clean
    by (eapply all_chars_impl; [|exact Hc]; intros c Hcl;
        apply (uuid_class_plain c Hcl)).
  rewrite (token_of_part_uuid_text x Hx). simpl. f_equal. exact IH.
Qed.

(** A comma-separated list of UUID texts parses to that list. *)
Lemma parse_people_input_join (us : list string) :
  Forall (fun u => is_uuid_text u = true) us ->
  parse_people_input (join "," us) = us.
Proof.
  intros Hus. destruct us as [|u us']; [reflexivity|].
  set (us := u :: us') in *.
  assert (Hclass : Forall (fun u => all_chars uuid_class u = true) us).
  { eapply Forall_impl; [exact Hus|]. intros x Hx.
    apply (is_uuid_text_inv x Hx). }
  unfold parse_people_input.
  assert (Hne : nonempty (join "," us) = true).
  { unfold us. apply Forall_inv in Hus.
    destruct (is_uuid_text_inv u Hus) as (_ & _ & _ & Hn).
    destruct u; [discriminate|]. destruct us'; reflexivity. }
  rewrite Hne. change (negb true) with false. cbv iota.
  rewrite replace_char_none.
  2:{ apply join_all_chars; [reflexivity|].
      eapply Forall_impl; [exact Hclass|]. intros x Hx.
      eapply all_chars_impl; [|exact Hx]. intros c Hcl.
      apply (uuid_class_plain c Hcl). }
  rewrite split_on_join by (auto; discriminate).
  apply tokens_of_uuid_parts. exact Hus.
Qed.

End UuidTexts.

(** ** Deduplication *)

Section Dedup.

Lemma elem_of_dedup_first (x : string) (l : list string) :
  x ∈ dedup_first l <-> x ∈ l.
Proof.
  induction l as [|y l IH]; simpl; [reflexivity|].
  rewrite !elem_of_cons, list_elem_of_filter, IH.
  destruct (decide (x = y)); intuition.
Qed.

Lemma NoDup_dedup_first (l : list string) : NoDup (dedup_first l).
Proof.
  induction l as [|y l IH]; simpl; [constructor|].
  constructor.
  - rewrite list_elem_of_filter. intros [H _]. apply H. reflexivity.
  - apply NoDup_filter. exact IH.
Qed.

Lemma dedup_first_snoc (l : list string) (y : string) :
  dedup_first (l ++ [y])%list
  = if decide (y ∈ l) then dedup_first l else (dedup_first l ++ [y])%list.
Proof.
  induction l as [|x l IH]; [reflexivity|].
  simpl. rewrite IH.
  destruct (decide (y ∈ l)) as [Hin|Hin].
  - rewrite decide_True by (right; exact Hin). reflexivity.
  - destruct (decide (y = x)) as [->|Hne].
    + rewrite decide_True by left.
      rewrite filter_app, filter_cons_False by (intros H; apply H; reflexivity).
      rewrite filter_nil, app_nil_r. reflexivity.
    + rewrite decide_False.
      2:{ intros H. apply elem_of_cons in H as [H|H]; contradiction. }
      rewrite filter_app, filter_cons_True by exact Hne.
      reflexivity.
Qed.

Lemma filter_ne_fresh (x : string) (l : list string) :
  x ∉ l -> filter (fun y => y <> x) l = l.
Proof.
  induction l as [|y l IH]; intros Hx; [reflexivity|].
  rewrite not_elem_of_cons in Hx. destruct Hx as [Hne Hx].
  rewrite filter_cons_True by congruence. rewrite IH by exact Hx.
  reflexivity.
Qed.

Lemma dedup_first_NoDup (l : list string) : NoDup l -> dedup_first l = l.
Proof.
  induction 1 as [|x l Hx Hl IH]; [reflexivity|].
  simpl. rewrite IH. f_equal. apply filter_ne_fresh. exact Hx.
Qed.

Lemma dedup_first_idem (l : list string) :
  dedup_first (dedup_first l) = dedup_first l.
Proof. apply dedup_first_NoDup, NoDup_dedup_first. Qed.

(** The accumulation loop of [run_search] and of the UUID branch of
    [resolve_person_ids] computes [dedup_first]. *)
Lemma extend_unique_spec (ids raw : list string) :
  extend_unique ids (dedup_first raw, list_to_set raw)
  = (dedup_first (raw ++ ids)%list, list_to_set (raw ++ ids)%list).
Proof.
  revert raw. induction ids as [|x ids IH]; intros raw.
  - rewrite app_nil_r. reflexivity.
  - simpl.
    replace (raw ++ x :: ids)%list with ((raw ++ [x]) ++ ids)%list
      by (rewrite <- app_assoc; reflexivity).
    rewrite <- IH, dedup_first_snoc.
    destruct (decide (x ∈ (list_to_set raw : gset string))) as [Hin|Hin];
      rewrite elem_of_list_to_set in Hin.
    + rewrite decide_True by exact Hin. f_equal. f_equal.
      apply set_eq. intros z.
      rewrite !elem_of_list_to_set, elem_of_app, list_elem_of_singleton.
      split; [auto|]. intros [H | ->]; auto.
    + rewrite decide_False by exact Hin. f_equal. f_equal.
      apply set_eq. intros z.
      rewrite elem_of_union, elem_of_singleton, !elem_of_list_to_set,
        elem_of_app, list_elem_of_singleton. tauto.
Qed.

Lemma extend_unique_fresh (ids : list string) :
  fst (extend_unique ids ([], ∅)) = dedup_first ids.
Proof.
  change ([], ∅) with (dedup_first [], (list_to_set [] : gset string)).
  rewrite extend_unique_spec. reflexivity.
Qed.

End Dedup.

(** ** Resolution of UUID tokens *)

Section ResolveUuids.

Context {E : Env}.

(** Tokens that are UUIDs are accumulated without touching the world. *)
Lemma resolve_tokens_uuids (with_hidden : bool) (tokens : list string)
  (w : world E) :
  Forall (fun t => UUID_PATTERN_match t = true) tokens ->
  stop_flag E (clock w) = false ->
  forall acc seen,
    resolve_tokens with_hidden tokens acc seen w
    = (Ok (fst (extend_unique tokens (acc, seen))), w).
Proof.
  intros Htok Hflag. induction Htok as [|t ts Ht Hts IH]; intros acc seen.
  - reflexivity.
  - simpl. unfold bind at 1. unfold stop_event_is_set. rewrite Hflag, Ht.
    destruct (decide (t ∈ seen)); apply IH.
Qed.

(** The list built by the loop is the deduplication of one id per token,
    the token itself where it is a UUID, unless the run was cancelled. *)
Lemma resolve_tokens_inv (with_hidden : bool) (tokens : list string) :
  forall (raw0 : list string) (w w' : world E) (ids : list string),
    resolve_tokens with_hidden tokens (dedup_first raw0) (list_to_set raw0) w
    = (Ok ids, w') ->
    (ids = [] /\ exists n, stop_flag E n = true)
    \/ exists raw,
        length raw = length tokens
        /\ ids = dedup_first (raw0 ++ raw)%list
        /\ forall i t, tokens !! i = Some t ->
                       UUID_PATTERN_match t = true -> raw !! i = Some t.
Proof.
  induction tokens as [|t ts IH]; intros raw0 w w' ids H.
  - simpl in H. injection H as <- _. right. exists [].
    rewrite app_nil_r. split; [reflexivity|]. split; [reflexivity|].
    intros i t H. rewrite lookup_nil in H. discriminate.
  - simpl in H. unfold bind at 1 in H. unfold stop_event_is_set in H.
    destruct (stop_flag E (clock w)) eqn:Hflag.
    { injection H as <- _. left. eauto. }
    assert (Hstep : forall x,
               (if decide (x ∈ (list_to_set raw0 : gset string))
                then resolve_tokens (E := E) with_hidden ts
                                    (dedup_first raw0) (list_to_set raw0)
                else resolve_tokens with_hidden ts
                                    (dedup_first raw0 ++ [x])%list
                                    ({[x]} ∪ list_to_set raw0))
               = resolve_tokens with_hidden ts
                                (dedup_first (raw0 ++ [x])%list)
                                (list_to_set (raw0 ++ [x])%list)).
    { intros x.
      pose proof (extend_unique_spec [x] raw0) as Hx. simpl in Hx.
      destruct (decide (x ∈ (list_to_set raw0 : gset string)));
        injection Hx as Hx1 Hx2; rewrite <- Hx1, <- Hx2; reflexivity. }
    assert (Hcont : forall x (w1 : world E),
               resolve_tokens with_hidden ts (dedup_first (raw0 ++ [x])%list)
                              (list_to_set (raw0 ++ [x])%list) w1 = (Ok ids, w') ->
               (UUID_PATTERN_match t = true -> x = t) ->
               (ids = [] /\ exists n, stop_flag E n = true)
               \/ exists raw,
                   length raw = length (t :: ts)
                   /\ ids = dedup_first (raw0 ++ raw)%list
                   /\ forall i t0, (t :: ts) !! i = Some t0 ->
                                   UUID_PATTERN_match t0 = true ->
                                   raw !! i = Some t0).
    { intros x w1 Hr Hx. apply IH in Hr as [Hr|(raw & Hlen & Hids & Hpos)];
        [left; exact Hr|right].
      exists (x :: raw). split; [simpl; congruence|].
      split; [rewrite Hids, <- app_assoc; reflexivity|].
      intros [|i] t0 Hi Hu; simpl in *.
      - injection Hi as <-. rewrite (Hx Hu). reflexivity.
      - eauto. }
    destruct (UUID_PATTERN_match t) eqn:Hu.
    + rewrite Hstep in H. eapply Hcont; [exact H|auto].
    + unfold bind at 1 in H.
      destruct (search_people_by_name t with_hidden w) as [[ms| |] w1];
        try discriminate H.
      unfold bind at 1 in H. unfold lift in H.
      destruct (choose_person t ms) as [p| |]; try discriminate H.
      destruct (person_id p) as [[|c s]|]; try discriminate H.
      rewrite Hstep in H. eapply Hcont; [exact H|discriminate].
Qed.

(** C7.  A text made of UUIDs resolves to those UUIDs, unchanged, each
    once and in the order of first appearance, without any change to the
    world (no name lookup, no request, no log line); resolving the
    result again gives the same list.  For every input, the list
    returned has no duplicates and is the first-occurrence
    deduplication of one id per token (the token itself where it is a
    UUID), or is empty after a cancellation. *)
Theorem resolve_person_ids_uuid_passthrough :
  (forall (us : list string) (with_hidden : bool) (w : world E),
      Forall (fun u => is_uuid_text u = true) us ->
      stop_flag E (clock w) = false ->
      resolve_person_ids (join "," us) with_hidden w
      = (Ok (dedup_first us), w)
      /\ resolve_person_ids (join "," (dedup_first us)) with_hidden w
         = (Ok (dedup_first us), w))
  /\ (forall (people_text : string) (with_hidden : bool) (w : world E)
             (ids : list string),
         fst (resolve_person_ids people_text with_hidden w) = Ok ids ->
         NoDup ids
         /\ ((ids = [] /\ exists n, stop_flag E n = true)
             \/ exists raw,
                 length raw = length (parse_people_input people_text)
                 /\ ids = dedup_first raw
                 /\ forall i t,
                     parse_people_input people_text !! i = Some t ->
                     UUID_PATTERN_match t = true -> raw !! i = Some t)).
Proof.
  assert (Hpass : forall (us : list string) (with_hidden : bool) (w : world E),
             Forall (fun u => is_uuid_text u = true) us ->
             stop_flag E (clock w) = false ->
             resolve_person_ids (join "," us) with_hidden w
             = (Ok (dedup_first us), w)).
  { intros us with_hidden w Hus Hflag. unfold resolve_person_ids.
    rewrite (parse_people_input_join us Hus).
    destruct us as [|u us]; [reflexivity|].
    rewrite resolve_tokens_uuids; [|
      eapply Forall_impl; [exact Hus|]; intros x Hx;
      apply (is_uuid_text_inv x Hx) | exact Hflag].
    rewrite extend_unique_fresh. reflexivity. }
  split.
  - intros us with_hidden w Hus Hflag. split; [auto|].
    rewrite Hpass; [rewrite dedup_first_idem; reflexivity| |exact Hflag].
    rewrite Forall_forall in *. intros x Hx.
    apply Hus. apply elem_of_dedup_first. exact Hx.
  - intros text with_hidden w ids H. unfold resolve_person_ids in H.
    assert (Hcases :
              (ids = [] /\ exists n, stop_flag E n = true)
              \/ exists raw,
                  length raw = length (parse_people_input text)
                  /\ ids = dedup_first raw
                  /\ forall i t,
                      parse_people_input text !! i = Some t ->
                      UUID_PATTERN_match t = true -> raw !! i = Some t).
    { destruct (parse_people_input text) as [|t ts] eqn:Hp.
      - injection H as <-. right. exists []. split; [reflexivity|].
        split; [reflexivity|]. intros i t Hi. rewrite lookup_nil in Hi.
        discriminate.
      - destruct (resolve_tokens with_hidden (t :: ts) [] ∅ w)
          as [r w'] eqn:Hr.
        simpl in H. subst r.
        change [] with (dedup_first []) in Hr at 1.
        change (∅ : gset string) with (list_to_set [] : gset string) in Hr.
        apply resolve_tokens_inv in Hr. exact Hr. }
    split; [|exact Hcases].
    destruct Hcases as [[-> _]|(raw & _ & -> & _)];
      [constructor|apply NoDup_dedup_first].
Qed.

End ResolveUuids.

Lemma resolve_person_ids_uuid_passthrough_witness :
  let E := example_env (fun _ => false) in
  let w : world E := mk_world (E := E) tt 0%nat [] in
  let u1 := "123e4567-e89b-42d3-a456-426614174000" in
  let u2 := "00000000-0000-0000-0000-000000000000" in
  Forall (fun u => is_uuid_text u = true) [u1; u2; u1]
  /\ stop_flag E (clock w) = false
  /\ resolve_person_ids (join "," [u1; u2; u1]) false w = (Ok [u1; u2], w).
Proof.
  cbv zeta.
  assert (Hus : Forall (fun u => is_uuid_text u = true)
                  ["123e4567-e89b-42d3-a456-426614174000";
                   "00000000-0000-0000-0000-000000000000";
                   "123e4567-e89b-42d3-a456-426614174000"])
    by (repeat constructor).
  split; [exact Hus|]. split; [reflexivity|].
  exact (proj1 (proj1 (resolve_person_ids_uuid_passthrough
                         (E := example_env (fun _ => false)))
                  _ false
                  (mk_world (E := example_env (fun _ => false)) tt 0%nat [])
                  Hus eq_refl)).
Defined.

(** ** Search composition *)

Section SearchComposition.

Context {E : Env}.

(** No cancellation is requested during the search. *)
Hypothesis no_cancel : forall n, stop_flag E n = false.

(** The repository is read-only for searches: the answer to a metadata
    search depends on the payload alone. *)
Hypothesis search_is_pure :
  forall s1 s2 payload,
    snd (search_metadata E s1 payload) = snd (search_metadata E s2 payload).

(** One page of the search, seen through the result only. *)
Lemma search_pages_step (fuel : nat) start_date end_date filters size page
  acc (w : world E) :
  exists w2 : world E,
    fst (search_pages (S fuel) start_date end_date filters size page acc w)
    = match snd (search_metadata E (server w)
                   (metadata_payload filters start_date end_date size page))
      with
      | HttpError msg => Raise (RequestException msg)
      | HttpOk _ [] => Ok (Some acc)
      | HttpOk _ assets =>
          if Z.of_nat (length assets) <? size
          then Ok (Some (acc ++ assets)%list)
          else fst (search_pages fuel start_date end_date filters size
                                 (page + 1) (acc ++ assets)%list w2)
      end.
Proof.
  simpl. unfold bind, stop_event_is_set, log_message, emit, http. simpl.
  rewrite no_cancel.
  destruct (search_metadata E (server w) _) as [s1 [status assets|msg]];
    simpl.
  - destruct assets as [|a assets]; [exists w; reflexivity|].
    destruct (Z.of_nat (length (a :: assets)) <? size);
      [exists w; reflexivity|].
    eexists. reflexivity.
  - exists w. reflexivity.
Qed.

Lemma search_pages_indep (fuel : nat) start_date end_date filters size :
  forall page acc (w1 w2 : world E),
    fst (search_pages fuel start_date end_date filters size page acc w1)
    = fst (search_pages fuel start_date end_date filters size page acc w2).
Proof.
  induction fuel as [|fuel IH]; intros page acc w1 w2.
  - simpl. unfold bind, stop_event_is_set. rewrite !no_cancel. reflexivity.
  - destruct (search_pages_step fuel start_date end_date filters size page
                acc w1) as [w1' ->].
    destruct (search_pages_step fuel start_date end_date filters size page
                acc w2) as [w2' ->].
    rewrite (search_is_pure (server w1) (server w2)).
    destruct (snd (search_metadata E (server w2) _)) as [status assets|msg];
      [|reflexivity].
    destruct assets as [|a assets]; [reflexivity|].
    destruct (Z.of_nat (length (a :: assets)) <? size); [reflexivity|].
    apply IH.
Qed.

Lemma search_assets_by_date_range_indep (fuel : nat) start_date end_date
  filters (w1 w2 : world E) :
  fst (search_assets_by_date_range fuel start_date end_date filters w1)
  = fst (search_assets_by_date_range fuel start_date end_date filters w2).
Proof.
  unfold search_assets_by_date_range, bind.
  pose proof (search_pages_indep fuel start_date end_date filters 100 1 []
                w1 w2) as H.
  destruct (search_pages fuel start_date end_date filters 100 1 [] w1)
    as [r1 w1'].
  destruct (search_pages fuel start_date end_date filters 100 1 [] w2)
    as [r2 w2'].
  simpl in H. subst r2.
  destruct r1 as [[ids|]| |]; reflexivity.
Qed.

Section Composite.

Variables (fuel : nat) (start_date end_date : datetime).
Variable additional_filters : gmap string json.
(** The world the per-person results are taken in. *)
Variable w0 : world E.

Local Abbreviation results_for :=
  (results_for fuel start_date end_date additional_filters w0).

Lemma unite_people_step p ps acc (w : world E) :
  unite_people fuel start_date end_date additional_filters (p :: ps) acc w
  = match search_assets_by_date_range
            fuel start_date end_date
            (with_person additional_filters p) w with
    | (Ok found, w') =>
        unite_people fuel start_date end_date additional_filters ps
                     (acc ∪ list_to_set found) w'
    | (Raise e, w') => (Raise e, w')
    | (OutOfFuel, w') => (OutOfFuel, w')
    end.
Proof.
  simpl. unfold bind at 1. unfold stop_event_is_set. rewrite no_cancel.
  unfold bind at 1. reflexivity.
Qed.

Lemma intersect_people_step p ps acc (w : world E) :
  intersect_people fuel start_date end_date additional_filters (p :: ps)
                   acc w
  = match search_assets_by_date_range
            fuel start_date end_date
            (with_person additional_filters p) w with
    | (Ok found, w') =>
        intersect_people
          fuel start_date end_date additional_filters ps
          (Some match acc with
                | None => list_to_set found
                | Some i => i ∩ list_to_set found
                end) w'
    | (Raise e, w') => (Raise e, w')
    | (OutOfFuel, w') => (OutOfFuel, w')
    end.
Proof.
  simpl. unfold bind at 1. unfold stop_event_is_set. rewrite no_cancel.
  unfold bind at 1. reflexivity.
Qed.

Lemma search_in_any_world p (w : world E) :
  fst (search_assets_by_date_range
         fuel start_date end_date (with_person additional_filters p) w)
  = results_for p.
Proof. apply search_assets_by_date_range_indep. Qed.

Lemma unite_people_spec ids :
  (forall p, p ∈ ids -> exists r, results_for p = Ok r) ->
  forall acc (w : world E),
  exists U : gset string,
    fst (unite_people fuel start_date end_date additional_filters ids
                      acc w) = Ok (Some U)
    /\ forall a, a ∈ U <->
                 a ∈ acc
                 \/ exists p r, p ∈ ids /\ results_for p = Ok r /\ a ∈ r.
Proof.
  induction ids as [|p ps IH]; intros Hok acc w.
  - exists acc. split; [reflexivity|]. intros a. split; [auto|].
    intros [H|(p & r & Hp & _)]; [exact H|]. inversion Hp.
  - rewrite unite_people_step.
    pose proof (search_in_any_world p w) as Hp.
    destruct (search_assets_by_date_range _ _ _ _ w) as [r w'].
    simpl in Hp. destruct (Hok p ltac:(left)) as [found Hfound].
    rewrite Hfound in Hp. subst r.
    destruct (IH (fun q Hq => Hok q ltac:(right; exact Hq))
                 (acc ∪ list_to_set found) w') as (U & HU & Hmem).
    exists U. split; [exact HU|]. intros a. rewrite Hmem.
    rewrite elem_of_union, elem_of_list_to_set. split.
    + intros [[H|H]|(q & r & Hq & Hr & Ha)]; [auto| |].
      * right. exists p, found. split; [left|auto].
      * right. exists q, r. split; [right; exact Hq|auto].
    + intros [H|(q & r & Hq & Hr & Ha)]; [auto|].
      apply elem_of_cons in Hq as [->|Hq].
      * rewrite Hfound in Hr. injection Hr as <-. auto.
      * right. eauto.
Qed.

Lemma intersect_people_spec ids :
  (forall p, p ∈ ids -> exists r, results_for p = Ok r) ->
  forall acc (w : world E),
  exists I : option (gset string),
    fst (intersect_people fuel start_date end_date additional_filters ids
                          acc w) = Ok (Some I)
    /\ (ids = [] -> I = acc)
    /\ (ids <> [] \/ acc <> None -> I <> None)
    /\ forall a, a ∈ default ∅ I <->
                 (ids <> [] \/ acc <> None)
                 /\ (forall i, acc = Some i -> a ∈ i)
                 /\ forall p, p ∈ ids ->
                              exists r, results_for p = Ok r /\ a ∈ r.
Proof.
  induction ids as [|p ps IH]; intros Hok acc w.
  - exists acc. split; [reflexivity|]. split; [reflexivity|].
    split; [intros [H|H]; [contradiction|exact H]|].
    intros a. destruct acc as [i|]; simpl.
    + split.
      * intros Ha. split; [right; discriminate|]. split.
        -- intros j [= <-]. exact Ha.
        -- intros p Hp. inversion Hp.
      * intros (_ & H & _). apply H. reflexivity.
    + split; [intros H; inversion H|].
      intros ([H|H] & _); contradiction.
  - rewrite intersect_people_step.
    pose proof (search_in_any_world p w) as Hp.
    destruct (search_assets_by_date_range _ _ _ _ w) as [r w'].
    simpl in Hp. destruct (Hok p ltac:(left)) as [found Hfound].
    rewrite Hfound in Hp. subst r.
    destruct (IH (fun q Hq => Hok q ltac:(right; exact Hq))
                 (Some match acc with
                       | None => list_to_set found
                       | Some i => i ∩ list_to_set found
                       end) w') as (I & HI & _ & Hsome & Hmem).
    exists I. split; [exact HI|]. split; [discriminate|].
    split; [intros _; apply Hsome; right; discriminate|].
    intros a. rewrite Hmem. split.
    + intros (_ & Hacc & Hps). split; [left; discriminate|].
      specialize (Hacc _ eq_refl).
      split.
      * intros i ->. apply elem_of_intersection in Hacc as [H _]. exact H.
      * intros q Hq. apply elem_of_cons in Hq as [->|Hq]; [|auto].
        exists found. split; [exact Hfound|].
        destruct acc as [i|];
          [apply elem_of_intersection in Hacc as [_ Hacc]|];
          apply elem_of_list_to_set in Hacc; exact Hacc.
    + intros (_ & Hacc & Hps). split; [right; discriminate|]. split.
      * intros j [= <-].
        destruct (Hps p ltac:(left)) as (r & Hr & Ha).
        rewrite Hfound in Hr. injection Hr as <-.
        destruct acc as [i|].
        -- apply elem_of_intersection. split; [auto|].
           apply elem_of_list_to_set. exact Ha.
        -- apply elem_of_list_to_set. exact Ha.
      * intros q Hq. apply Hps. right. exact Hq.
Qed.

End Composite.

Lemma composite_any fuel start_date end_date filters p1 p2 ps
  (w : world E) :
  fst (search_assets_for_date_range fuel start_date end_date filters
                                    (p1 :: p2 :: ps) "any" w)
  = match fst (unite_people fuel start_date end_date filters
                            (p1 :: p2 :: ps) ∅ w) with
    | Ok (Some U) => Ok (elements U)
    | Ok None => Ok []
    | Raise e => Raise e
    | OutOfFuel => OutOfFuel
    end.
Proof.
  unfold search_assets_for_date_range. unfold bind at 1.
  unfold stop_event_is_set. rewrite no_cancel.
  change ("any" =? "all")%string with false. cbv iota. unfold bind at 1.
  destruct (unite_people _ _ _ _ _ _ w) as [[[U|]| |] w']; reflexivity.
Qed.

Lemma composite_all fuel start_date end_date filters p1 p2 ps
  (w : world E) :
  fst (search_assets_for_date_range fuel start_date end_date filters
                                    (p1 :: p2 :: ps) "all" w)
  = match fst (intersect_people fuel start_date end_date filters
                                (p1 :: p2 :: ps) None w) with
    | Ok (Some J) => Ok (elements (default ∅ J))
    | Ok None => Ok []
    | Raise e => Raise e
    | OutOfFuel => OutOfFuel
    end.
Proof.
  unfold search_assets_for_date_range. unfold bind at 1.
  unfold stop_event_is_set. rewrite no_cancel.
  change ("all" =? "all")%string with true. cbv iota. unfold bind at 1.
  destruct (intersect_people _ _ _ _ _ _ w) as [[[J|]| |] w']; reflexivity.
Qed.

(** C3.  While no cancellation is requested and the repository answers a
    metadata search by its payload alone: for two or more person ids whose
    per-person searches succeed, the composite search in mode "any"
    returns, without repetition, exactly the assets found for at least
    one person (the union), and in mode "all" exactly the assets found
    for every person (the intersection), which is the empty list, not an
    error, when no asset is common to all; and both results are the same
    for every permutation of the person ids. *)
Theorem search_assets_for_date_range_composition
  (fuel : nat) (start_date end_date : datetime)
  (additional_filters : gmap string json) (person_ids : list string)
  (w : world E) :
  (2 <= length person_ids)%nat ->
  (forall p, p ∈ person_ids ->
             exists r, results_for fuel start_date end_date
                                   additional_filters w p = Ok r) ->
  let found_for p a :=
    exists r, results_for fuel start_date end_date additional_filters w p
              = Ok r /\ a ∈ r in
  let composite ids mode :=
    fst (search_assets_for_date_range fuel start_date end_date
                                      additional_filters ids mode w) in
  (exists l, composite person_ids "any" = Ok l /\ NoDup l
             /\ forall a, a ∈ l <-> exists p, p ∈ person_ids /\ found_for p a)
  /\ (exists l, composite person_ids "all" = Ok l /\ NoDup l
                /\ (forall a, a ∈ l <->
                              forall p, p ∈ person_ids -> found_for p a)
                /\ ((forall a, ~ forall p, p ∈ person_ids -> found_for p a)
                    -> l = []))
  /\ (forall ids', person_ids ≡ₚ ids' ->
                   composite ids' "any" = composite person_ids "any"
                   /\ composite ids' "all" = composite person_ids "all").
Proof.
  intros Hlen Hok found_for composite.
  assert (Hany : forall ids,
             (2 <= length ids)%nat ->
             (forall p, p ∈ ids ->
                        exists r, results_for fuel start_date end_date
                                    additional_filters w p = Ok r) ->
             exists U : gset string,
               composite ids "any" = Ok (elements U)
               /\ forall a, a ∈ U <-> exists p, p ∈ ids /\ found_for p a).
  { intros ids Hl Hr. destruct ids as [|p1 [|p2 ps]]; simpl in Hl; try lia.
    unfold composite. rewrite composite_any.
    destruct (unite_people_spec fuel start_date end_date additional_filters
                w _ Hr ∅ w) as (U & -> & HU).
    exists U. split; [reflexivity|]. intros a. rewrite HU. split.
    - intros [H|(p & r & Hp & Hrp & Ha)]; [inversion H|].
      exists p. split; [exact Hp|]. exists r. auto.
    - intros (p & Hp & r & Hrp & Ha). right. eauto. }
  assert (Hall : forall ids,
             (2 <= length ids)%nat ->
             (forall p, p ∈ ids ->
                        exists r, results_for fuel start_date end_date
                                    additional_filters w p = Ok r) ->
             exists I : gset string,
               composite ids "all" = Ok (elements I)
               /\ forall a, a ∈ I <-> forall p, p ∈ ids -> found_for p a).
  { intros ids Hl Hr. destruct ids as [|p1 [|p2 ps]]; simpl in Hl; try lia.
    unfold composite. rewrite composite_all.
    destruct (intersect_people_spec fuel start_date end_date
                additional_filters w _ Hr None w) as (I & -> & _ & _ & HI).
    exists (default ∅ I). split; [reflexivity|]. intros a. rewrite HI.
    split.
    - intros (_ & _ & H). exact H.
    - intros H. split; [left; discriminate|]. split; [discriminate|exact H]. }
  split; [|split].
  - destruct (Hany person_ids Hlen Hok) as (U & HU & Hmem).
    exists (elements U). split; [exact HU|]. split; [apply NoDup_elements|].
    intros a. rewrite elem_of_elements. apply Hmem.
  - destruct (Hall person_ids Hlen Hok) as (I & HI & Hmem).
    exists (elements I). split; [exact HI|]. split; [apply NoDup_elements|].
    split.
    + intros a. rewrite elem_of_elements. apply Hmem.
    + intros Hnone. apply elements_empty_iff. apply set_equiv. intros a.
      split; [|intros H; inversion H].
      intros Ha. exfalso. apply (Hnone a). apply Hmem. exact Ha.
  - intros ids' Hperm.
    assert (Hlen' : (2 <= length ids')%nat)
      by (rewrite <- (Permutation_length Hperm); exact Hlen).
    assert (Hok' : forall p, p ∈ ids' ->
                             exists r, results_for fuel start_date end_date
                                         additional_filters w p = Ok r)
      by (intros p Hp; apply Hok; rewrite Hperm; exact Hp).
    split.
    + destruct (Hany person_ids Hlen Hok) as (U & -> & HU).
      destruct (Hany ids' Hlen' Hok') as (U' & -> & HU').
      f_equal. f_equal. apply set_eq. intros a. rewrite HU, HU'.
      split; intros (p & Hp & Hf); exists p; split; auto;
        [rewrite Hperm|rewrite <- Hperm]; exact Hp.
    + destruct (Hall person_ids Hlen Hok) as (I & -> & HI).
      destruct (Hall ids' Hlen' Hok') as (I' & -> & HI').
      f_equal. f_equal. apply set_eq. intros a. rewrite HI, HI'.
      split; intros H p Hp; apply H;
        [rewrite <- Hperm|rewrite Hperm]; exact Hp.
Qed.

End SearchComposition.

Lemma search_assets_for_date_range_composition_witness :
  let E := example_env (fun _ => false) in
  let w : world E := mk_world (E := E) tt 0%nat [] in
  let day := mk_datetime 2024 12 25 0 0 0 0 in
  (forall n, stop_flag E n = false)
  /\ (2 <= length ["p-jo"; "p-ann"])%nat
  /\ exists l,
      fst (search_assets_for_date_range (E := E) 1 day day ∅
                                        ["p-jo"; "p-ann"] "any" w) = Ok l
      /\ NoDup l.
Proof.
  cbv zeta.
  assert (Hflag : forall n, stop_flag (example_env (fun _ => false)) n = false)
    by reflexivity.
  assert (Hpure : forall s1 s2 payload,
             snd (search_metadata (example_env (fun _ => false)) s1 payload)
             = snd (search_metadata (example_env (fun _ => false)) s2 payload))
    by reflexivity.
  assert (Hlen : (2 <= length ["p-jo"; "p-ann"])%nat) by (simpl; lia).
  split; [exact Hflag|]. split; [exact Hlen|].
  destruct (search_assets_for_date_range_composition
              (E := example_env (fun _ => false)) Hflag Hpure 1
              (mk_datetime 2024 12 25 0 0 0 0) (mk_datetime 2024 12 25 0 0 0 0)
              ∅ ["p-jo"; "p-ann"]
              (mk_world (E := example_env (fun _ => false)) tt 0%nat [])
              Hlen) as [(l & Hl & Hnd & _) _].
  - intros p Hp. exists ["asset-1"; "asset-2"].
    apply elem_of_cons in Hp as [->|Hp];
      [|apply list_elem_of_singleton in Hp; subst p]; reflexivity.
  - exists l. auto.
Defined.

(** ** What computations send *)

Section Sends.

Context {E : Env}.
Variable ok : request -> Prop.

Lemma sends_ret {A} (a : A) : sends (E := E) ok (ret a).
Proof. intros w. exists []. rewrite app_nil_r. auto. Qed.

Lemma sends_raise {A} (e : exn) : sends (E := E) (A := A) ok (raise e).
Proof. intros w. exists []. rewrite app_nil_r. auto. Qed.

Lemma sends_lift {A} (r : result A) : sends (E := E) ok (lift r).
Proof. intros w. exists []. rewrite app_nil_r. auto. Qed.

Lemma sends_out_of_fuel {A} : sends (E := E) (A := A) ok out_of_fuel.
Proof. intros w. exists []. rewrite app_nil_r. auto. Qed.

Lemma sends_stop_event_is_set : sends (E := E) ok stop_event_is_set.
Proof. intros w. exists []. rewrite app_nil_r. auto. Qed.

Lemma sends_log_message (s : string) : sends (E := E) ok (log_message s).
Proof. intros w. exists [EvLog s]. split; [reflexivity|]. repeat constructor. Qed.

Lemma sends_set_status (s : string) : sends (E := E) ok (set_status s).
Proof.
  intros w. exists [EvStatus s]. split; [reflexivity|]. repeat constructor.
Qed.

Lemma sends_set_progress (a b : Z) : sends (E := E) ok (set_progress a b).
Proof.
  intros w. exists [EvProgress a b]. split; [reflexivity|].
  repeat constructor.
Qed.

Lemma sends_http {A} (req : request)
  (handler : srv E -> srv E * http_result A) :
  ok req -> sends ok (http req handler).
Proof.
  intros Hreq w. unfold http. destruct (handler (server w)) as [s' r].
  eexists. split; [reflexivity|]. repeat constructor. exact Hreq.
Qed.

Lemma sends_bind {A B} (m : M E A) (k : A -> M E B) :
  sends ok m -> (forall a, sends ok (k a)) -> sends ok (bind m k).
Proof.
  intros Hm Hk w. unfold bind. destruct (Hm w) as (evs & Ht & Hok).
  destruct (m w) as [[a|e|] w1]; simpl in Ht.
  - destruct (Hk a w1) as (evs' & Ht' & Hok').
    exists (evs ++ evs')%list. rewrite Ht', Ht, app_assoc.
    split; [reflexivity|]. apply Forall_app. auto.
  - exists evs. auto.
  - exists evs. auto.
Qed.

Lemma sends_try_except {A} (catches : exn -> bool) (m : M E A)
  (h : exn -> M E A) :
  sends ok m -> (forall e, sends ok (h e)) ->
  sends ok (try_except catches m h).
Proof.
  intros Hm Hh w. unfold try_except. destruct (Hm w) as (evs & Ht & Hok).
  destruct (m w) as [[a|e|] w1]; simpl in Ht; [exists evs; auto| |exists evs; auto].
  destruct (catches e); [|exists evs; auto].
  destruct (Hh e w1) as (evs' & Ht' & Hok').
  exists (evs ++ evs')%list. rewrite Ht', Ht, app_assoc.
  split; [reflexivity|]. apply Forall_app. auto.
Qed.

Lemma sends_try_finally {A} (m : M E A) (f : M E unit) :
  sends ok m -> sends ok f -> sends ok (try_finally m f).
Proof.
  intros Hm Hf w. unfold try_finally. destruct (Hm w) as (evs & Ht & Hok).
  destruct (m w) as [r w1]. simpl in Ht.
  destruct (Hf w1) as (evs' & Ht' & Hok').
  exists (evs ++ evs')%list.
  destruct (f w1) as [[[]|e|] w2]; simpl in *;
    rewrite Ht', Ht, app_assoc; (split; [reflexivity|]);
    apply Forall_app; auto.
Qed.

Lemma sends_request_failed {A} (what msg : string) :
  sends (E := E) (A := A) ok (request_failed what msg).
Proof.
  unfold request_failed.
  apply sends_bind; [apply sends_log_message|intros _].
  apply sends_bind; [apply sends_set_status|intros _].
  apply sends_raise.
Qed.

End Sends.

Lemma sends_weaken {E A} (ok ok' : request -> Prop) (m : M E A) :
  (forall req, ok req -> ok' req) -> sends ok m -> sends ok' m.
Proof.
  intros Himp Hm w. destruct (Hm w) as (evs & Ht & Hok).
  exists evs. split; [exact Ht|].
  eapply Forall_impl; [exact Hok|]. intros [b req| | |]; simpl; auto.
Qed.

(** The standard argument: close a leaf, skip a leaf statement, or split a
    bind naming the value it binds. *)
Ltac sends_leaf :=
  first
    [ apply sends_ret | apply sends_raise | apply sends_lift
    | apply sends_out_of_fuel | apply sends_stop_event_is_set
    | apply sends_log_message | apply sends_set_status
    | apply sends_set_progress | apply sends_request_failed ].

Ltac sends_skip := apply sends_bind; [sends_leaf|intros _].

Tactic Notation "sends_let" ident(x) := apply sends_bind; [|intros x].

(** ** What each function of the engine sends *)

Section EngineSends.

Context {E : Env}.
Variable ok : request -> Prop.

(** Requests other than metadata searches are always acceptable. *)
Hypothesis ok_other : forall req, not_a_search req -> ok req.

Lemma sends_find_or_create_album (album_name : string) :
  sends (E := E) ok (find_or_create_album album_name).
Proof.
  unfold find_or_create_album. sends_skip.
  sends_let r; [apply sends_http, ok_other; exact Logic.I|].
  destruct r as [status albums|msg]; [|sends_leaf].
  sends_skip. destruct (find _ albums) as [a|].
  - sends_skip. sends_leaf.
  - sends_skip.
    sends_let r; [apply sends_http, ok_other; exact Logic.I|].
    destruct r as [st new_album|msg]; [|sends_leaf].
    sends_skip. sends_leaf.
Qed.

Lemma sends_search_people_by_name (name : string) (with_hidden : bool) :
  sends (E := E) ok (search_people_by_name name with_hidden).
Proof.
  unfold search_people_by_name. sends_skip.
  sends_let r; [apply sends_http, ok_other; exact Logic.I|].
  destruct r; sends_leaf.
Qed.

Lemma sends_add_assets_to_album (album_id : string)
  (asset_ids : list string) :
  sends (E := E) ok (add_assets_to_album album_id asset_ids).
Proof.
  unfold add_assets_to_album. destruct asset_ids as [|a l].
  - sends_skip. sends_leaf.
  - sends_skip.
    sends_let r; [apply sends_http, ok_other; exact Logic.I|].
    destruct r; [|sends_leaf]. sends_skip. sends_leaf.
Qed.

Lemma sends_resolve_tokens (with_hidden : bool) (tokens : list string) :
  forall acc seen,
    sends (E := E) ok (resolve_tokens with_hidden tokens acc seen).
Proof.
  induction tokens as [|t ts IH]; intros acc seen; simpl; [sends_leaf|].
  sends_let stop; [sends_leaf|].
  destruct stop; [sends_leaf|].
  destruct (UUID_PATTERN_match t).
  - destruct (decide (t ∈ seen)); apply IH.
  - sends_let matches; [apply sends_search_people_by_name|].
    sends_let person; [sends_leaf|].
    destruct (person_id person) as [[|c s]|]; try sends_leaf.
    destruct (decide _); apply IH.
Qed.

Lemma sends_resolve_person_ids (people_text : string) (with_hidden : bool) :
  sends (E := E) ok (resolve_person_ids people_text with_hidden).
Proof.
  unfold resolve_person_ids.
  destruct (parse_people_input people_text); [sends_leaf|].
  apply sends_resolve_tokens.
Qed.

Lemma sends_search_pages (fuel : nat) start_date end_date filters size :
  (forall url page,
      ok (PostSearchMetadata
            url (metadata_payload filters start_date end_date size page))) ->
  forall page acc,
    sends (E := E) ok
          (search_pages fuel start_date end_date filters size page acc).
Proof.
  intros Hok. induction fuel as [|fuel IH]; intros page acc; simpl.
  - sends_let stop; [sends_leaf|]. destruct stop; [|sends_leaf].
    sends_skip. sends_leaf.
  - sends_let stop; [sends_leaf|]. destruct stop.
    { sends_skip. sends_leaf. }
    sends_skip.
    sends_let r; [apply sends_http, Hok|].
    destruct r as [status assets|msg]; [|sends_leaf].
    sends_skip.
    destruct assets as [|x xs]; [sends_leaf|].
    destruct (_ <? size); [sends_leaf|]. apply IH.
Qed.

Lemma sends_search_assets_by_date_range (fuel : nat) start_date end_date
  filters :
  (forall url page,
      ok (PostSearchMetadata
            url (metadata_payload filters start_date end_date 100 page))) ->
  sends (E := E) ok
        (search_assets_by_date_range fuel start_date end_date filters).
Proof.
  intros Hok. unfold search_assets_by_date_range.
  sends_let found; [apply sends_search_pages; exact Hok|].
  destruct found; [|sends_leaf]. sends_skip. sends_leaf.
Qed.

End EngineSends.

Section ComposedSends.

Context {E : Env}.
Variable base : gmap string json.

Lemma other_requests_ok (combined : list string) (req : request) :
  not_a_search req -> search_request_ok base combined req.
Proof. destruct req; simpl; auto. contradiction. Qed.

Lemma person_payload_ok (combined : list string) (p : string)
  start_date end_date url page :
  p ∈ combined ->
  search_request_ok
    base combined
    (PostSearchMetadata
       url (metadata_payload (with_person base p) start_date end_date
                             100 page)).
Proof.
  intros Hp. simpl. exists start_date, end_date, page, (with_person base p).
  split; [reflexivity|]. right. eauto.
Qed.

Lemma sends_unite_people (fuel : nat) start_date end_date
  (combined ids : list string) :
  (forall p, p ∈ ids -> p ∈ combined) ->
  forall acc,
    sends (E := E) (search_request_ok base combined)
          (unite_people fuel start_date end_date base ids acc).
Proof.
  induction ids as [|p ps IH]; intros Hsub acc; simpl; [sends_leaf|].
  sends_let stop; [sends_leaf|]. destruct stop; [sends_leaf|].
  sends_let found.
  - apply sends_search_assets_by_date_range.
    intros url page. apply person_payload_ok. apply Hsub. left.
  - apply IH. intros q Hq. apply Hsub. right. exact Hq.
Qed.

Lemma sends_intersect_people (fuel : nat) start_date end_date
  (combined ids : list string) :
  (forall p, p ∈ ids -> p ∈ combined) ->
  forall acc,
    sends (E := E) (search_request_ok base combined)
          (intersect_people fuel start_date end_date base ids acc).
Proof.
  induction ids as [|p ps IH]; intros Hsub acc; simpl; [sends_leaf|].
  sends_let stop; [sends_leaf|]. destruct stop; [sends_leaf|].
  sends_let found.
  - apply sends_search_assets_by_date_range.
    intros url page. apply person_payload_ok. apply Hsub. left.
  - apply IH. intros q Hq. apply Hsub. right. exact Hq.
Qed.

(** Every search request of the composite search is a composed payload. *)
Lemma sends_search_assets_for_date_range (fuel : nat) start_date end_date
  (combined : list string) (mode : string) :
  sends (E := E) (search_request_ok base combined)
        (search_assets_for_date_range fuel start_date end_date base
                                      combined mode).
Proof.
  unfold search_assets_for_date_range.
  sends_let stop; [sends_leaf|]. destruct stop; [sends_leaf|].
  destruct combined as [|p1 [|p2 ps]].
  - apply sends_search_assets_by_date_range.
    intros url page. simpl. eexists _, _, _, _. split; [reflexivity|].
    left. auto.
  - apply sends_search_assets_by_date_range.
    intros url page. apply person_payload_ok. left.
  - destruct (mode =? "all")%string.
    + sends_let r; [apply sends_intersect_people; auto|].
      destruct r; sends_leaf.
    + sends_let r; [apply sends_unite_people; auto|].
      destruct r; sends_leaf.
Qed.

Variable combined : list string.

Local Abbreviation ok := (search_request_ok base combined).

Lemma sends_collect fuel status base_date delta_days album_id mode
  total_tasks counters :
  sends (E := E) ok
        (collect fuel status base_date delta_days album_id base combined
                 mode total_tasks counters).
Proof.
  unfold collect. destruct counters as [added progress].
  sends_let window; [sends_leaf|]. destruct window as [lo hi].
  sends_skip.
  sends_let asset_ids; [apply sends_search_assets_for_date_range|].
  sends_let n; [apply sends_add_assets_to_album; exact (other_requests_ok _)|].
  sends_skip. sends_leaf.
Qed.

Lemma sends_year_loop fuel years date_of status_of delta_days album_id mode
  total_tasks :
  forall counters,
    sends (E := E) ok
          (year_loop fuel years date_of status_of delta_days album_id base
                     combined mode total_tasks counters).
Proof.
  induction years as [|y ys IH]; intros counters; simpl; [sends_leaf|].
  sends_let stop; [sends_leaf|]. destruct stop.
  { sends_skip. sends_leaf. }
  sends_let base_date; [sends_leaf|].
  sends_let counters'; [apply sends_collect|]. apply IH.
Qed.

Lemma sends_holiday_loop fuel items years delta_days mode total_tasks :
  forall counters,
    sends (E := E) ok
          (holiday_loop fuel items years delta_days base combined mode
                        total_tasks counters).
Proof.
  induction items as [|[holiday_name album_name] items IH];
    intros counters; simpl; [sends_leaf|].
  destruct (holiday_name =? "Specific Date")%string; [apply IH|].
  sends_let album_id;
    [apply sends_find_or_create_album; exact (other_requests_ok _)|].
  sends_let r; [apply sends_year_loop|].
  destruct r; [apply IH|sends_leaf].
Qed.

Lemma sends_run_tasks fuel delta_days start_year end_year selected_items
  specific_date_str specific_date_album_name specific_date_all_years mode
  total_tasks :
  sends (E := E) ok
        (run_tasks fuel delta_days start_year end_year selected_items
                   specific_date_str specific_date_album_name
                   specific_date_all_years base combined mode total_tasks).
Proof.
  unfold run_tasks. sends_let r.
  - destruct (has_key "Specific Date" selected_items); [|sends_leaf].
    sends_let specific_date; [sends_leaf|].
    sends_let album_id;
      [apply sends_find_or_create_album; exact (other_requests_ok _)|].
    destruct specific_date_all_years; [apply sends_year_loop|].
    sends_let stop; [sends_leaf|]. destruct stop.
    { sends_skip. sends_leaf. }
    sends_let counters; [apply sends_collect|]. sends_leaf.
  - destruct r as [counters|]; [|sends_leaf].
    sends_let r'; [apply sends_holiday_loop|].
    destruct r' as [[added progress]|]; [|sends_leaf].
    sends_skip. sends_leaf.
Qed.

End ComposedSends.

(** ** The payload and the run *)

Section Payload.

Lemma metadata_payload_reserved filters start_date end_date size page :
  let payload := metadata_payload filters start_date end_date size page in
  payload !! "takenAfter" = Some (JStr (datetime_isoformat "T" start_date))
  /\ payload !! "takenBefore" = Some (JStr (datetime_isoformat "T" end_date))
  /\ payload !! "page" = Some (JNum page)
  /\ payload !! "size" = Some (JNum size).
Proof.
  unfold metadata_payload. cbv zeta.
  repeat split.
  - rewrite lookup_insert_ne, lookup_insert_ne, lookup_insert_ne by done.
    apply lookup_insert_eq.
  - rewrite lookup_insert_ne, lookup_insert_ne by done.
    apply lookup_insert_eq.
  - apply lookup_insert_eq.
  - rewrite lookup_insert_ne by done. apply lookup_insert_eq.
Qed.

Lemma metadata_payload_frame filters start_date end_date size page k v :
  k ∉ RESERVED_KEYS -> filters !! k = Some v ->
  metadata_payload filters start_date end_date size page !! k = Some v.
Proof.
  unfold RESERVED_KEYS. intros Hk Hv.
  rewrite !not_elem_of_cons in Hk. destruct Hk as (H1 & H2 & H3 & H4 & _).
  unfold metadata_payload.
  rewrite !lookup_insert_ne by congruence.
  apply lookup_union_Some_l. exact Hv.
Qed.

Lemma composed_payload_personIds base combined payload :
  base !! "personIds" = None ->
  composed_payload base combined payload ->
  (combined = [] /\ payload !! "personIds" = None)
  \/ exists p, p ∈ combined
               /\ payload !! "personIds" = Some (JList [JStr p]).
Proof.
  intros Hbase (s & e & page & f & -> & [[-> ->]|(p & Hp & ->)]).
  - left. split; [reflexivity|]. unfold metadata_payload.
    rewrite !lookup_insert_ne by done.
    apply lookup_union_None. split; [exact Hbase|].
    apply lookup_singleton_ne. done.
  - right. exists p. split; [exact Hp|].
    apply metadata_payload_frame.
    + unfold RESERVED_KEYS. rewrite !not_elem_of_cons.
      repeat split; try done. apply not_elem_of_nil.
    + apply lookup_insert_eq.
Qed.

End Payload.

Section RunSends.

Context {E : Env}.
Context {X : Type} (ok : X -> request -> Prop) (x0 : X).

Hypothesis ok_other : forall x req, not_a_search req -> ok x req.

Lemma sends_some_of_sends {A} (x : X) (m : M E A) :
  sends (ok x) m -> sends_some ok m.
Proof. intros H w. exists x. apply H. Qed.

Lemma sends_some_bind {A B} (m : M E A) (k : A -> M E B) :
  sends not_a_search m -> (forall a, sends_some ok (k a)) ->
  sends_some ok (bind m k).
Proof.
  intros Hm Hk w. unfold bind. destruct (Hm w) as (evs & Ht & Hok).
  destruct (m w) as [[a|e|] w1]; simpl in Ht.
  - destruct (Hk a w1) as (x & evs' & Ht' & Hok').
    exists x, (evs ++ evs')%list. rewrite Ht', Ht, app_assoc.
    split; [reflexivity|]. apply Forall_app. split; [|exact Hok'].
    eapply Forall_impl; [exact Hok|]. intros [b req| | |]; simpl; auto.
  - exists x0, evs. split; [exact Ht|].
    eapply Forall_impl; [exact Hok|]. intros [b req| | |]; simpl; auto.
  - exists x0, evs. split; [exact Ht|].
    eapply Forall_impl; [exact Hok|]. intros [b req| | |]; simpl; auto.
Qed.

Lemma sends_not_a_search_weaken {A} (x : X) (m : M E A) :
  sends not_a_search m -> sends (ok x) m.
Proof. apply sends_weaken. intros req. apply ok_other. Qed.

End RunSends.

Section RunSearch.

Context {E : Env}.

Lemma from_filters_spec (filters : gmap string json) acc :
  match filters !! "personIds" with
  | None | Some JNull => Some ([], ∅)
  | Some v =>
      match list_of_strings v with
      | Some ids => Some (extend_unique ids ([], ∅))
      | None => None
      end
  end = Some acc ->
  acc = (dedup_first (filter_person_ids filters),
         list_to_set (filter_person_ids filters)).
Proof.
  unfold filter_person_ids.
  destruct (filters !! "personIds") as [v|]; [|intros [= <-]; reflexivity].
  assert (Hgen : match list_of_strings v with
                 | Some ids => Some (extend_unique ids ([], ∅))
                 | None => None
                 end = Some acc ->
                 acc = (dedup_first (default [] (list_of_strings v)),
                        list_to_set (default [] (list_of_strings v)))).
  { destruct (list_of_strings v) as [ids|]; [|discriminate].
    intros [= <-]. simpl.
    change ([], ∅) with (dedup_first [], (list_to_set [] : gset string)).
    rewrite extend_unique_spec. reflexivity. }
  destruct v; try exact Hgen. intros [= <-]. reflexivity.
Qed.

(** Every metadata search of a run carries a payload composed from the
    caller's filters without their [personIds] entry and from one list of
    person ids, the first-occurrence deduplication of the ids of that
    entry followed by the ids the run resolved. *)
Lemma run_search_sends fuel api_key delta_days start_year end_year
  selected_items specific_date_str specific_date_album_name
  specific_date_all_years people_text people_match_mode
  additional_filters_text people_with_hidden :
  let filters :=
    fst (parse_additional_filters_json E additional_filters_text) in
  sends_some
    (fun resolved =>
       search_request_ok
         (delete "personIds" filters)
         (dedup_first (filter_person_ids filters ++ resolved)%list))
    (run_search (E := E) fuel api_key delta_days start_year end_year
                selected_items specific_date_str specific_date_album_name
                specific_date_all_years people_text people_match_mode
                additional_filters_text people_with_hidden).
Proof.
  intros filters. unfold run_search.
  assert (Hother : forall (x : list string) req,
             not_a_search req ->
             search_request_ok
               (delete "personIds" filters)
               (dedup_first (filter_person_ids filters ++ x)%list) req)
    by (intros x req; apply other_requests_ok).
  destruct (negb (nonempty (API_BASE_URL E))).
  { apply (sends_some_of_sends _ []). sends_skip. sends_leaf. }
  apply (sends_some_bind _ [] Hother); [sends_leaf|intros _].
  apply (sends_some_bind _ [] Hother); [sends_leaf|intros _].
  unfold filters.
  destruct (parse_additional_filters_json E additional_filters_text)
    as [F [err|]]; simpl.
  { apply (sends_some_of_sends _ []). sends_skip. sends_leaf. }
  match goal with
  | |- sends_some _ (match ?from with _ => _ end) =>
      destruct from as [acc|] eqn:Hfrom
  end.
  2:{ apply (sends_some_of_sends _ []). sends_skip. sends_leaf. }
  apply from_filters_spec in Hfrom. subst acc.
  apply (sends_some_bind _ [] Hother).
  { destruct (nonempty people_text && nonempty (strip people_text));
      [|sends_leaf].
    apply sends_try_except.
    - sends_skip. sends_let ids; [|sends_leaf].
      apply sends_resolve_person_ids. auto.
    - intros e. sends_skip. sends_skip. sends_leaf. }
  intros [resolved_ids|]; [|apply (sends_some_of_sends _ []); sends_leaf].
  apply (sends_some_of_sends _ resolved_ids).
  rewrite extend_unique_spec.
  sends_skip. apply sends_try_finally; [|sends_leaf].
  apply sends_try_except; [apply sends_run_tasks|].
  intros e. sends_skip. sends_leaf.
Qed.

End RunSearch.

Section FilterCompositor.

Context {E : Env}.

(** C6.  The payload of a metadata search always carries the engine's
    values under [takenAfter], [takenBefore], [page] and [size], whatever
    the caller supplied there, and every other key of the filters it is
    built from unchanged.  In a run, the caller's filters lose their
    [personIds] entry before any payload is built; its ids and the ids
    the run resolved are merged once into one list (first occurrences, in
    input order), and every search request of the run carries the
    caller's other keys unchanged and, under [personIds], either nothing
    (no person id at all) or a single id of the merged list. *)
Theorem search_payload_composition :
  (forall filters start_date end_date size page,
      let payload :=
        metadata_payload filters start_date end_date size page in
      payload !! "takenAfter"
      = Some (JStr (datetime_isoformat "T" start_date))
      /\ payload !! "takenBefore"
         = Some (JStr (datetime_isoformat "T" end_date))
      /\ payload !! "page" = Some (JNum page)
      /\ payload !! "size" = Some (JNum size)
      /\ forall k v, k ∉ RESERVED_KEYS -> filters !! k = Some v ->
                     payload !! k = Some v)
  /\ (forall fuel api_key delta_days start_year end_year selected_items
             specific_date_str specific_date_album_name
             specific_date_all_years people_text people_match_mode
             additional_filters_text people_with_hidden (w : world E),
         let filters :=
           fst (parse_additional_filters_json E additional_filters_text) in
         let base := delete "personIds" filters in
         exists resolved,
           let combined :=
             dedup_first (filter_person_ids filters ++ resolved)%list in
           exists evs,
             trace (snd (run_search fuel api_key delta_days start_year
                                    end_year selected_items
                                    specific_date_str
                                    specific_date_album_name
                                    specific_date_all_years people_text
                                    people_match_mode
                                    additional_filters_text
                                    people_with_hidden w))
             = (trace w ++ evs)%list
             /\ forall flag url payload,
                 EvRequest flag (PostSearchMetadata url payload) ∈ evs ->
                 composed_payload base combined payload
                 /\ ((combined = [] /\ payload !! "personIds" = None)
                     \/ exists p, p ∈ combined
                                  /\ payload !! "personIds"
                                     = Some (JList [JStr p]))
                 /\ forall k v, k ∉ RESERVED_KEYS -> k <> "personIds" ->
                                filters !! k = Some v ->
                                payload !! k = Some v)
  /\ (forall ids_from_filters resolved_ids,
         fst (extend_unique resolved_ids
                            (extend_unique ids_from_filters ([], ∅)))
         = dedup_first (ids_from_filters ++ resolved_ids)%list).
Proof.
  split; [|split].
  - intros filters start_date end_date size page payload.
    destruct (metadata_payload_reserved filters start_date end_date size
                page) as (H1 & H2 & H3 & H4).
    repeat (split; [assumption|]).
    intros k v. apply metadata_payload_frame.
  - intros fuel api_key delta_days start_year end_year selected_items
           specific_date_str specific_date_album_name
           specific_date_all_years people_text people_match_mode
           additional_filters_text people_with_hidden w filters base.
    destruct (run_search_sends fuel api_key delta_days start_year end_year
                selected_items specific_date_str specific_date_album_name
                specific_date_all_years people_text people_match_mode
                additional_filters_text people_with_hidden w)
      as (resolved & evs & Ht & Hok).
    exists resolved. cbv zeta. exists evs. split; [exact Ht|].
    intros flag url payload Hin.
    rewrite Forall_forall in Hok. specialize (Hok _ Hin). simpl in Hok.
    fold filters in Hok. fold base in Hok.
    split; [exact Hok|].
    split; [apply (composed_payload_personIds base _ payload);
            [apply lookup_delete_eq|exact Hok]|].
    intros k v Hk Hne Hv.
    destruct Hok as (s & e & page & f & -> & Hf).
    apply metadata_payload_frame; [exact Hk|].
    destruct Hf as [[_ ->]|(p & _ & ->)].
    + unfold base. rewrite lookup_delete_ne by congruence. exact Hv.
    + unfold with_person, base.
      rewrite lookup_insert_ne, lookup_delete_ne by congruence. exact Hv.
  - intros ids1 ids2.
    change ([], ∅) with (dedup_first [], (list_to_set [] : gset string)).
    rewrite !extend_unique_spec. reflexivity.
Qed.

End FilterCompositor.

Lemma search_payload_composition_witness :
  let filters : gmap string json :=
    {[ "page" := JNum 7; "isFavorite" := JBool true ]} in
  let day := mk_datetime 2024 12 25 0 0 0 0 in
  let payload := metadata_payload filters day day 100 1 in
  ("isFavorite" ∉ RESERVED_KEYS)
  /\ filters !! "isFavorite" = Some (JBool true)
  /\ payload !! "page" = Some (JNum 1)
  /\ payload !! "isFavorite" = Some (JBool true).
Proof.
  cbv zeta.
  assert (Hk : "isFavorite" ∉ RESERVED_KEYS).
  { unfold RESERVED_KEYS. rewrite !not_elem_of_cons.
    repeat split; try done. apply not_elem_of_nil. }
  assert (Hv : ({[ "page" := JNum 7; "isFavorite" := JBool true ]}
                : gmap string json) !! "isFavorite" = Some (JBool true))
    by reflexivity.
  split; [exact Hk|]. split; [exact Hv|].
  destruct (proj1 (search_payload_composition (E := example_env (fun _ => false)))
              {[ "page" := JNum 7; "isFavorite" := JBool true ]}
              (mk_datetime 2024 12 25 0 0 0 0)
              (mk_datetime 2024 12 25 0 0 0 0) 100 1)
    as (_ & _ & Hpage & _ & Hframe).
  split; [exact Hpage|]. exact (Hframe _ _ Hk Hv).
Defined.

(** ** Cancellation *)

Section CancellationChecks.

Context {E : Env}.

(** At a task boundary a set flag ends the run as cancelled. *)
Lemma year_loop_cancelled fuel y ys date_of status_of delta_days album_id
  filters ids mode total_tasks counters (w : world E) :
  stop_flag E (clock w) = true ->
  year_loop fuel (y :: ys) date_of status_of delta_days album_id filters ids
            mode total_tasks counters w
  = (Ok Return,
     mk_world (server w) (clock w)
              (trace w ++ [EvStatus "Operation Cancelled"])%list).
Proof.
  intros H. simpl. unfold bind, stop_event_is_set. rewrite H. reflexivity.
Qed.

(** Before a page request a set flag ends the search without a request. *)
Lemma search_pages_cancelled fuel start_date end_date filters size page acc
  (w : world E) :
  stop_flag E (clock w) = true ->
  search_pages fuel start_date end_date filters size page acc w
  = (Ok None,
     mk_world (server w) (clock w)
              (trace w ++ [EvLog "Search interrupted by user."])%list).
Proof.
  intros H. destruct fuel; simpl; unfold bind, stop_event_is_set;
    rewrite H; reflexivity.
Qed.

(** Before a name lookup a set flag ends the resolution without a
    request. *)
Lemma resolve_tokens_cancelled with_hidden t ts acc seen (w : world E) :
  stop_flag E (clock w) = true ->
  resolve_tokens with_hidden (t :: ts) acc seen w = (Ok [], w).
Proof.
  intros H. simpl. unfold bind, stop_event_is_set. rewrite H. reflexivity.
Qed.

End CancellationChecks.

(** C4 fails on the code.  When the flag is set while the fifth request of
    the run is in flight (the search for Christmas 2021), the worker still
    attaches the assets found, then looks up and creates the album of the
    next holiday, and only then observes the flag and stops with
    "Operation Cancelled": [find_or_create_album] and
    [add_assets_to_album] do not consult the flag.  When the flag is set
    during the last task of a run, the worker attaches the assets and
    reports completion; the run never reaches the cancelled state. *)
Theorem run_search_requests_after_cancel :
  (let w := example_run (fun n => (5 <=? n)%nat) 2021
                        [("Christmas", "Christmas"); ("Easter", "Easter")] in
   requests_after_cancel (trace w)
   = [ PutAlbumAssets "http://immich.local/api/albums/album-Christmas/assets"
                      ["asset-1"; "asset-2"];
       GetAlbums "http://immich.local/api/albums";
       PostAlbum "http://immich.local/api/albums" "Easter" ]
   /\ last (statuses (trace w)) = Some "Operation Cancelled")
  /\ (let w := example_run (fun n => (3 <=? n)%nat) 2020
                           [("Christmas", "Christmas")] in
      requests_after_cancel (trace w)
      = [ PutAlbumAssets
            "http://immich.local/api/albums/album-Christmas/assets"
            ["asset-1"; "asset-2"] ]
      /\ last (statuses (trace w))
         = Some "Completed: Added 2 assets to 1 albums").
Proof. vm_compute. auto. Qed.

(* ===================================================================== *)
(** * Further properties of the calendar engine *)
(* ===================================================================== *)

Section FloatingHolidays.

(** X1.  For a valid year and month, a weekday 0..6 and [nth] in 1..4,
    [get_nth_weekday_of_month] returns the [nth] occurrence of that
    weekday in that month: a date of the month, on the weekday, whose day
    lies in the [nth] block of seven days. *)
Theorem get_nth_weekday_of_month_is_nth (fuel : nat) (y m wd nth : Z) :
  MINYEAR <= y <= MAXYEAR -> 1 <= m <= 12 -> 0 <= wd < 7 ->
  1 <= nth <= 4 -> (6 <= fuel)%nat ->
  exists d,
    get_nth_weekday_of_month fuel y m wd nth = Ok d
    /\ year d = y /\ month d = m /\ weekday d = wd
    /\ 7 * (nth - 1) < day d <= 7 * nth.
Proof.
  intros Hy Hm Hwd Hn Hf.
  destruct (get_nth_weekday_of_month_ok fuel y m wd nth Hy Hm Hwd Hn Hf)
    as (d & Hd & _ & H). eauto.
Qed.

Lemma get_nth_weekday_of_month_is_nth_witness :
  MINYEAR <= 2024 <= MAXYEAR
  /\ exists d, get_nth_weekday_of_month 6 2024 11 3 4 = Ok d
               /\ weekday d = 3 /\ 21 < day d <= 28.
Proof.
  assert (Hy : MINYEAR <= 2024 <= MAXYEAR) by (unfold MINYEAR, MAXYEAR; lia).
  split; [exact Hy|].
  destruct (get_nth_weekday_of_month_is_nth 6 2024 11 3 4 Hy)
    as (d & Hd & _ & _ & Hw & Hday); try lia.
  exists d. auto.
Defined.

(** X2.  For a valid year and month and a weekday 0..6,
    [get_last_weekday_of_month] returns the last occurrence of that
    weekday in that month: a date of the month, on the weekday, within
    the last seven days of the month. *)
Theorem get_last_weekday_of_month_is_last (fuel : nat) (y m wd : Z) :
  MINYEAR <= y <= MAXYEAR -> 1 <= m <= 12 -> 0 <= wd < 7 ->
  (6 <= fuel)%nat ->
  exists d,
    get_last_weekday_of_month fuel y m wd = Ok d
    /\ year d = y /\ month d = m /\ weekday d = wd
    /\ days_in_month y m - 7 < day d <= days_in_month y m.
Proof.
  intros Hy Hm Hwd Hf.
  destruct (get_last_weekday_of_month_ok fuel y m wd Hy Hm Hwd Hf)
    as (d & Hd & _ & H). eauto.
Qed.

Lemma get_last_weekday_of_month_is_last_witness :
  MINYEAR <= 2024 <= MAXYEAR
  /\ exists d, get_last_weekday_of_month 6 2024 5 0 = Ok d
               /\ weekday d = 0 /\ day d = 27.
Proof.
  assert (Hy : MINYEAR <= 2024 <= MAXYEAR) by (unfold MINYEAR, MAXYEAR; lia).
  split; [exact Hy|].
  destruct (get_last_weekday_of_month_is_last 6 2024 5 0 Hy)
    as (d & Hd & _ & _ & Hw & _); try lia.
  exists d. split; [exact Hd|]. split; [exact Hw|].
  vm_compute in Hd. injection Hd as <-. reflexivity.
Defined.

(** X3.  In every year 1..9999 the floating holidays fall where their
    names say: Martin Luther King Jr. Day on the third Monday of January,
    Presidents' Day on the third Monday of February, Memorial Day on the
    last Monday of May, Labor Day on the first Monday of September,
    Columbus Day on the second Monday of October and Thanksgiving on the
    fourth Thursday of November. *)
Theorem floating_holidays_fall_on_their_weekday (fuel : nat) (y : Z) :
  MINYEAR <= y <= MAXYEAR -> (6 <= fuel)%nat ->
  let falls name m wd lo hi :=
    exists d, get_holiday_date fuel y name = Ok d
              /\ year d = y /\ month d = m /\ weekday d = wd
              /\ lo <= day d <= hi in
  falls "Martin Luther King Jr. Day" 1 0 15 21
  /\ falls "Presidents' Day" 2 0 15 21
  /\ falls "Memorial Day" 5 0 25 31
  /\ falls "Labor Day" 9 0 1 7
  /\ falls "Columbus Day" 10 0 8 14
  /\ falls "Thanksgiving" 11 3 22 28.
Proof.
  intros Hy Hf falls.
  assert (Hnth : forall name m wd nth,
             get_holiday_date fuel y name
             = get_nth_weekday_of_month fuel y m wd nth ->
             1 <= m <= 12 -> 0 <= wd < 7 -> 1 <= nth <= 4 ->
             falls name m wd (7 * (nth - 1) + 1) (7 * nth)).
  { intros name m wd nth Heq Hm Hwd Hn. unfold falls. rewrite Heq.
    destruct (get_nth_weekday_of_month_ok fuel y m wd nth Hy Hm Hwd Hn Hf)
      as (d & Hd & _ & Hyd & Hmd & Hwdd & Hday).
    exists d. repeat split; try assumption; lia. }
  repeat split.
  - apply (Hnth _ 1 0 3); [reflexivity|lia..].
  - apply (Hnth _ 2 0 3); [reflexivity|lia..].
  - destruct (get_last_weekday_of_month_ok fuel y 5 0 Hy ltac:(lia)
                ltac:(lia) Hf) as (d & Hd & _ & Hyd & Hmd & Hwdd & Hday).
    unfold falls. change (get_holiday_date fuel y "Memorial Day")
      with (get_last_weekday_of_month fuel y 5 0).
    exists d. change (days_in_month y 5) with 31 in Hday.
    repeat split; try assumption; lia.
  - apply (Hnth _ 9 0 1); [reflexivity|lia..].
  - apply (Hnth _ 10 0 2); [reflexivity|lia..].
  - apply (Hnth _ 11 3 4); [reflexivity|lia..].
Qed.

Lemma floating_holidays_fall_on_their_weekday_witness :
  MINYEAR <= 2024 <= MAXYEAR /\ (6 <= 6)%nat
  /\ exists d, get_holiday_date 6 2024 "Thanksgiving" = Ok d
               /\ weekday d = 3 /\ 22 <= day d <= 28.
Proof.
  assert (Hy : MINYEAR <= 2024 <= MAXYEAR) by (unfold MINYEAR, MAXYEAR; lia).
  assert (Hf : (6 <= 6)%nat) by lia.
  split; [exact Hy|]. split; [exact Hf|].
  destruct (floating_holidays_fall_on_their_weekday 6 2024 Hy Hf)
    as (_ & _ & _ & _ & _ & d & Hd & _ & _ & Hw & Hday).
  exists d. auto.
Defined.

End FloatingHolidays.

Section EasterRange.

(** X4.  For every year 1..9999 the Easter date computed by
    [get_easter_date] exists and lies between 22 March and 25 April of
    that year, both included. *)
Theorem get_easter_date_between_march_22_and_april_25 (y : Z) :
  MINYEAR <= y <= MAXYEAR ->
  exists d,
    get_easter_date y = Ok d /\ year d = y
    /\ ((month d = 3 /\ 22 <= day d <= 31)
        \/ (month d = 4 /\ 1 <= day d <= 25)).
Proof.
  intros Hy. unfold get_easter_date.
  set (a := y mod 19). set (b := y / 100). set (c := y mod 100).
  set (h := (19 * a + b - b / 4 - (b - (b + 8) / 25 + 1) / 3 + 15) mod 30).
  set (l := (32 + 2 * (b mod 4) + 2 * (c / 4) - h - c mod 4) mod 7).
  set (m := (a + 11 * h + 22 * l) / 451).
  set (n := h + l - 7 * m + 114).
  assert (Ha : 0 <= a < 19) by (apply Z.mod_pos_bound; lia).
  assert (Hh : 0 <= h < 30) by (apply Z.mod_pos_bound; lia).
  assert (Hl : 0 <= l < 7) by (apply Z.mod_pos_bound; lia).
  assert (Hm : 451 * m <= a + 11 * h + 22 * l < 451 * m + 451).
  { unfold m.
    pose proof (Z.div_mod (a + 11 * h + 22 * l) 451 ltac:(lia)).
    pose proof (Z.mod_pos_bound (a + 11 * h + 22 * l) 451 ltac:(lia)).
    lia. }
  assert (Hn : 114 <= n <= 148) by (unfold n; lia).
  assert (Hq : (n / 31 = 3 /\ 22 <= n mod 31 + 1 <= 31)
               \/ (n / 31 = 4 /\ 1 <= n mod 31 + 1 <= 25)).
  { pose proof (Z.div_mod n 31 ltac:(lia)).
    pose proof (Z.mod_pos_bound n 31 ltac:(lia)).
    assert (n / 31 = 3 \/ n / 31 = 4) as [H3 | H4] by lia; [left|right]; lia. }
  clearbody n. clear Hn.
  unfold datetime_ymd.
  replace ((MINYEAR <=? y) && (y <=? MAXYEAR)) with true
    by (symmetry; apply andb_true_intro; split; apply Z.leb_le; lia).
  destruct Hq as [[Hmo Hd] | [Hmo Hd]]; rewrite Hmo; cbn [negb andb Z.leb Z.compare Pos.compare Pos.compare_cont].
  - change (days_in_month y 3) with 31.
    replace ((1 <=? n mod 31 + 1) && (n mod 31 + 1 <=? 31)) with true
      by (symmetry; apply andb_true_intro; split; apply Z.leb_le; lia).
    eexists. split; [reflexivity|]. cbn. split; [reflexivity|]. left. lia.
  - change (days_in_month y 4) with 30.
    replace ((1 <=? n mod 31 + 1) && (n mod 31 + 1 <=? 30)) with true
      by (symmetry; apply andb_true_intro; split; apply Z.leb_le; lia).
    eexists. split; [reflexivity|]. cbn. split; [reflexivity|]. right. lia.
Qed.

Lemma get_easter_date_between_march_22_and_april_25_witness :
  MINYEAR <= 2024 <= MAXYEAR
  /\ exists d, get_easter_date 2024 = Ok d /\ month d = 3 /\ day d = 31.
Proof.
  assert (Hy : MINYEAR <= 2024 <= MAXYEAR) by (unfold MINYEAR, MAXYEAR; lia).
  split; [exact Hy|].
  destruct (get_easter_date_between_march_22_and_april_25 2024 Hy)
    as (d & Hd & _ & _).
  exists d. split; [exact Hd|].
  vm_compute in Hd. injection Hd as <-. split; reflexivity.
Defined.



End EasterRange.

Section NegativeDelta.

(** X6.  [get_date_range] does not validate the sign of the day delta: a
    negative delta yields the window of its absolute value with the two
    bounds exchanged, so the start lies after the end. *)
Theorem get_date_range_negative_delta_swaps
    (base lo hi : datetime) (k : Z) :
  0 < k -> get_date_range base k = Ok (lo, hi) ->
  get_date_range base (- k) = Ok (hi, lo).
Proof.
  intros Hk. unfold get_date_range.
  destruct (Z.eqb_spec k 0) as [|_]; [lia|].
  destruct (Z.eqb_spec (- k) 0) as [|_]; [lia|].
  unfold sub_days.
  unfold timedelta_days.
  rewrite Z.abs_opp.
  destruct (Z.abs k <=? 999999999) eqn:Hab; cbn [rbind]; [|discriminate].
  rewrite Z.opp_involutive.
  destruct (add_days base (- k)) as [lo' | |]; cbn [rbind]; try discriminate.
  destruct (add_days base k) as [hi' | |]; cbn [rbind]; try discriminate.
  intros [= -> ->]. reflexivity.
Qed.

Lemma get_date_range_negative_delta_swaps_witness :
  0 < 3
  /\ get_date_range (mk_datetime 2024 7 4 0 0 0 0) (- 3)
     = Ok (mk_datetime 2024 7 7 0 0 0 0, mk_datetime 2024 7 1 0 0 0 0).
Proof.
  split; [lia|].
  apply (get_date_range_negative_delta_swaps
           (mk_datetime 2024 7 4 0 0 0 0)
           (mk_datetime 2024 7 1 0 0 0 0)
           (mk_datetime 2024 7 7 0 0 0 0) 3); [lia|].
  vm_compute. reflexivity.
Defined.

End NegativeDelta.

(* ===================================================================== *)
(** * Further properties of the text helpers *)
(* ===================================================================== *)

Section MoreStringLemmas.

Variable p : ascii -> bool.

Lemma rstrip_with_all_chars (q : ascii -> bool) (s : string) :
  all_chars q s = true -> all_chars q (rstrip_with p s) = true.
Proof.
  induction s as [|c s IH]; [auto|]. cbn [all_chars rstrip_with].
  intros H. apply andb_prop in H as [Hc Hs]. specialize (IH Hs).
  destruct (rstrip_with p s) as [|c' r].
  - destruct (p c); [reflexivity|]. cbn. rewrite Hc. reflexivity.
  - cbn [all_chars] in *. rewrite Hc. exact IH.
Qed.

Lemma take_all_chars (q : ascii -> bool) (n : nat) (s : string) :
  all_chars q s = true -> all_chars q (take n s) = true.
Proof.
  revert s. induction n as [|n IH]; intros [|c s]; try reflexivity.
  cbn [all_chars take]. intros H. apply andb_prop in H as [Hc Hs].
  rewrite Hc. apply IH, Hs.
Qed.

Lemma split_on_all_chars (q : ascii -> bool) (sep : ascii) (s : string) :
  all_chars q s = true ->
  Forall (fun part => all_chars q part = true) (split_on sep s).
Proof.
  induction s as [|c s IH]; [intros _; repeat constructor|].
  cbn [all_chars split_on]. intros H. apply andb_prop in H as [Hc Hs].
  specialize (IH Hs).
  destruct (Ascii.eqb c sep); [constructor; [reflexivity|exact IH]|].
  destruct (split_on sep s) as [|h t].
  - repeat constructor. cbn. rewrite Hc. reflexivity.
  - inversion IH as [|? ? Hh Ht]; subst. constructor; [|exact Ht].
    cbn. rewrite Hc. exact Hh.
Qed.

Lemma split_on_no_sep (sep : ascii) (s : string) :
  Forall (fun part => all_chars (fun c => negb (Ascii.eqb c sep)) part = true)
         (split_on sep s).
Proof.
  induction s as [|c s IH]; [repeat constructor|].
  cbn [split_on].
  destruct (Ascii.eqb c sep) eqn:Hc; [constructor; [reflexivity|exact IH]|].
  destruct (split_on sep s) as [|h t].
  - repeat constructor. cbn. rewrite Hc. reflexivity.
  - inversion IH as [|? ? Hh Ht]; subst. constructor; [|exact Ht].
    cbn. rewrite Hc. exact Hh.
Qed.

Lemma replace_char_clean (a b : ascii) (s : string) :
  a <> b ->
  all_chars (fun c => negb (Ascii.eqb c a)) (replace_char a b s) = true.
Proof.
  intros Hab. induction s as [|c s IH]; [reflexivity|].
  cbn [replace_char all_chars]. rewrite IH, andb_true_r.
  destruct (Ascii.eqb_spec c a) as [->|Hc].
  - destruct (Ascii.eqb_spec b a); [congruence|reflexivity].
  - destruct (Ascii.eqb_spec c a); [contradiction|reflexivity].
Qed.

Lemma replace_char_all_chars (q : ascii -> bool) (a b : ascii) (s : string) :
  q b = true -> all_chars q s = true ->
  all_chars q (replace_char a b s) = true.
Proof.
  intros Hb. induction s as [|c s IH]; [reflexivity|].
  cbn [replace_char all_chars]. intros H. apply andb_prop in H as [Hc Hs].
  rewrite (IH Hs), andb_true_r. destruct (Ascii.eqb c a); assumption.
Qed.

Lemma lstrip_with_starts_outside (s : string) :
  starts_outside p (lstrip_with p s) = true.
Proof.
  induction s as [|c s IH]; [reflexivity|]. cbn [lstrip_with].
  destruct (p c) eqn:Hc; [exact IH|]. cbn. rewrite Hc. reflexivity.
Qed.

Lemma lstrip_with_keep (s : string) :
  starts_outside p s = true -> lstrip_with p s = s.
Proof.
  destruct s as [|c s]; [reflexivity|]. cbn.
  destruct (p c); [discriminate|reflexivity].
Qed.

Lemma rstrip_with_starts_outside (s : string) :
  starts_outside p s = true -> starts_outside p (rstrip_with p s) = true.
Proof.
  destruct s as [|c s]; [reflexivity|]. cbn [starts_outside rstrip_with].
  intros Hc. destruct (rstrip_with p s); [|exact Hc].
  destruct (p c) eqn:Hpc; [discriminate|]. cbn. rewrite Hpc. reflexivity.
Qed.

Lemma rstrip_with_app_clean_l (a b : string) :
  all_chars (fun c => negb (p c)) a = true ->
  rstrip_with p (a ++ b) = (a ++ rstrip_with p b)%string.
Proof.
  induction a as [|c a IH]; [intros _; rewrite !append_nil; reflexivity|].
  cbn [all_chars]. intros H. apply andb_prop in H as [Hc Ha].
  rewrite !append_cons. cbn [rstrip_with]. rewrite (IH Ha).
  destruct (a ++ rstrip_with p b)%string eqn:Hr; [|reflexivity].
  apply negb_true_iff in Hc. rewrite Hc. reflexivity.
Qed.

Lemma rstrip_with_app_all (a b : string) :
  all_chars p b = true -> rstrip_with p (a ++ b) = rstrip_with p a.
Proof.
  intros Hb.
  assert (Hrb : rstrip_with p b = EmptyString).
  { induction b as [|c b IH]; [reflexivity|]. cbn [all_chars] in Hb.
    apply andb_prop in Hb as [Hc Hb]. cbn [rstrip_with].
    rewrite (IH Hb), Hc. reflexivity. }
  induction a as [|c a IH]; [rewrite append_nil; exact Hrb|].
  rewrite append_cons. cbn [rstrip_with]. rewrite IH. reflexivity.
Qed.

Lemma break_at_app_l (a b : string) :
  all_chars (fun c => negb (p c)) a = true ->
  break_at p (a ++ b)
  = ((a ++ fst (break_at p b))%string, snd (break_at p b)).
Proof.
  induction a as [|c a IH].
  - intros _. rewrite !append_nil. destruct (break_at p b); reflexivity.
  - cbn [all_chars]. intros H. apply andb_prop in H as [Hc Ha].
    rewrite !append_cons. cbn [break_at]. apply negb_true_iff in Hc.
    rewrite Hc, (IH Ha). reflexivity.
Qed.

Lemma take_app_length (a b : string) :
  take (String.length a) (a ++ b) = a.
Proof.
  induction a as [|c a IH]; [destruct b; reflexivity|].
  rewrite append_cons. cbn [String.length take]. rewrite IH. reflexivity.
Qed.

Lemma all_chars_nonempty_app (a b : string) :
  nonempty a = true -> nonempty (a ++ b)%string = true.
Proof. destruct a; [discriminate|reflexivity]. Qed.

End MoreStringLemmas.

Lemma strip_idem (s : string) : strip (strip s) = strip s.
Proof.
  unfold strip.
  rewrite (lstrip_with_keep is_space (rstrip_with is_space _)).
  - apply rstrip_with_idem.
  - apply rstrip_with_starts_outside, lstrip_with_starts_outside.
Qed.

Lemma strip_all_chars (q : ascii -> bool) (s : string) :
  all_chars q s = true -> all_chars q (strip s) = true.
Proof.
  intros H. unfold strip.
  apply rstrip_with_all_chars, lstrip_with_all_chars, H.
Qed.

Section PeopleTokens.

Lemma token_of_part_clean (part token : string) :
  all_chars (fun c => negb (Ascii.eqb c ",")) part = true ->
  all_chars (fun c => negb (Ascii.eqb c "010")) part = true ->
  token_of_part part = Some token ->
  nonempty token = true /\ strip token = token
  /\ all_chars token_char token = true.
Proof.
  intros Hcomma Hnl. unfold token_of_part.
  destruct (nonempty part); [|discriminate]. cbn [negb].
  set (candidate := strip (fst (break_at (Ascii.eqb "#") part))).
  assert (Hcand : all_chars token_char candidate = true).
  { unfold candidate. apply strip_all_chars.
    pose proof (break_at_all_chars (Ascii.eqb "#") _ part Hcomma) as [H1 _].
    pose proof (break_at_all_chars (Ascii.eqb "#") _ part Hnl) as [H2 _].
    pose proof (break_at_fst_clean (Ascii.eqb "#") part) as H3.
    revert H1 H2 H3.
    generalize (fst (break_at (Ascii.eqb "#") part)) as s.
    induction s as [|c s IH]; [reflexivity|]. cbn [all_chars].
    intros H1 H2 H3.
    apply andb_prop in H1 as [H1 H1'], H2 as [H2 H2'], H3 as [H3 H3'].
    rewrite (IH H1' H2' H3'), andb_true_r. unfold token_char.
    rewrite H1, H2. cbn. rewrite Ascii.eqb_sym. exact H3. }
  destruct (nonempty candidate) eqn:Hne; [|discriminate]. cbn [negb].
  assert (Hself : forall t, t = candidate ->
                            nonempty t = true /\ strip t = t
                            /\ all_chars token_char t = true).
  { intros t ->. split; [exact Hne|]. split; [|exact Hcand].
    unfold candidate. apply strip_idem. }
  destruct (PyRe.match_uuid_prefix candidate) as [g|] eqn:Hg;
    [|intros [= <-]; auto].
  destruct (UUID_PATTERN_match g) eqn:Hm; [|intros [= <-]; auto].
  intros [= <-].
  pose proof (match_uuid_prefix_inv _ _ Hg) as Hclass.
  assert (Hg' : g = take 36 candidate /\ String.length g = 36%nat).
  { unfold PyRe.match_uuid_prefix in Hg. cbv zeta in Hg.
    match type of Hg with
    | (if ?b then _ else _) = _ => destruct b eqn:Hlen; [|discriminate]
    end.
    injection Hg as <-. apply andb_prop in Hlen as [Hlen _].
    split; [reflexivity|apply Nat.eqb_eq, Hlen]. }
  destruct Hg' as [Hgeq Hglen].
  split; [|split].
  - destruct g; [discriminate|reflexivity].
  - apply strip_clean.
    apply (all_chars_impl uuid_class); [|exact Hclass].
    intros c Hc. apply uuid_class_plain in Hc. tauto.
  - rewrite Hgeq. apply take_all_chars, Hcand.
Qed.

(** X7.  Every token [parse_people_input] returns is a non-empty text
    without white space at its ends and without a comma, a newline or a
    hash sign: separators and comments never reach the caller. *)
Theorem parse_people_input_tokens_are_clean (people_text token : string) :
  token ∈ parse_people_input people_text ->
  nonempty token = true /\ strip token = token
  /\ all_chars token_char token = true.
Proof.
  unfold parse_people_input.
  destruct (nonempty people_text); cbn [negb];
    [|intros H; inversion H].
  rewrite list_elem_of_omap. intros (part & Hin & Htok).
  apply list_elem_of_fmap in Hin as (raw & -> & Hraw).
  set (normalized := replace_char "010" "," people_text) in *.
  assert (Hnl : all_chars (fun c => negb (Ascii.eqb c "010")) normalized
                = true) by (apply replace_char_clean; discriminate).
  pose proof (split_on_all_chars _ "," normalized Hnl) as Hnl'.
  pose proof (split_on_no_sep "," normalized) as Hcomma.
  rewrite Forall_forall in Hnl', Hcomma.
  apply (token_of_part_clean (strip raw)); [| |exact Htok];
    apply strip_all_chars; auto.
Qed.

Lemma parse_people_input_tokens_are_clean_witness :
  let text := " Jo Ann , 123e4567-e89b-42d3-a456-426614174000 # Ann" in
  "Jo Ann" ∈ parse_people_input text
  /\ strip "Jo Ann" = "Jo Ann" /\ all_chars token_char "Jo Ann" = true.
Proof.
  intros text.
  assert (Hin : "Jo Ann" ∈ parse_people_input text)
    by (vm_compute; left).
  split; [exact Hin|].
  exact (proj2 (parse_people_input_tokens_are_clean text "Jo Ann" Hin)).
Defined.

Lemma parse_people_input_uuid_prefix (u rest : string) :
  is_uuid_text u = true ->
  all_chars (fun c => negb (Ascii.eqb c ",") && negb (Ascii.eqb c "010"))
            rest = true ->
  parse_people_input (u ++ rest) = [u].
Proof.
  intros Hu Hrest.
  destruct (is_uuid_text_inv u Hu) as (Hmatch & Hprefix & Hclass & Hne).
  assert (Hlen : String.length u = 36%nat).
  { unfold is_uuid_text in Hu. apply andb_prop in Hu as [Hl _].
    apply Nat.eqb_eq, Hl. }
  assert (Hplain : forall q : ascii -> bool,
             (forall c, uuid_class c = true -> q c = true) ->
             all_chars q u = true)
    by (intros q Hq; apply (all_chars_impl uuid_class); assumption).
  assert (Hu_comma : all_chars (fun c => negb (Ascii.eqb c ",")) u = true)
    by (apply Hplain; intros c Hc; apply uuid_class_plain in Hc; tauto).
  assert (Hu_nl : all_chars (fun c => negb (Ascii.eqb c "010")) u = true)
    by (apply Hplain; intros c Hc; apply uuid_class_plain in Hc; tauto).
  assert (Hu_hash : all_chars (fun c => negb (Ascii.eqb "#" c)) u = true).
  { apply Hplain. intros c Hc. apply uuid_class_plain in Hc.
    rewrite Ascii.eqb_sym. tauto. }
  assert (Hu_space : all_chars (fun c => negb (is_space c)) u = true)
    by (apply Hplain; intros c Hc; apply uuid_class_plain in Hc; tauto).
  assert (Hr_comma : all_chars (fun c => negb (Ascii.eqb c ",")) rest = true)
    by (apply (all_chars_impl _ _ _ (fun c H => proj1 (andb_prop _ _ H))
                 Hrest)).
  assert (Hr_nl : all_chars (fun c => negb (Ascii.eqb c "010")) rest = true)
    by (apply (all_chars_impl _ _ _ (fun c H => proj2 (andb_prop _ _ H))
                 Hrest)).
  assert (Hstrip : forall r, strip (u ++ r) = (u ++ rstrip_with is_space r)%string).
  { intros r. unfold strip. rewrite lstrip_with_keep.
    - apply rstrip_with_app_clean_l, Hu_space.
    - destruct u as [|c u']; [discriminate|]. rewrite append_cons.
      cbn in Hu_space |- *. apply andb_prop in Hu_space as [Hc _]. exact Hc. }
  unfold parse_people_input.
  rewrite (all_chars_nonempty_app u rest Hne). cbn [negb].
  rewrite replace_char_none
    by (rewrite all_chars_app, Hu_nl, Hr_nl; reflexivity).
  rewrite split_on_single
    by (rewrite all_chars_app, Hu_comma, Hr_comma; reflexivity).
  cbn [map]. rewrite Hstrip.
  set (r1 := rstrip_with is_space rest).
  assert (Htok : token_of_part (u ++ r1) = Some u).
  { unfold token_of_part.
    rewrite (all_chars_nonempty_app u r1 Hne). cbn [negb].
    rewrite (break_at_app_l _ u r1 Hu_hash). cbn [fst].
    rewrite Hstrip.
    set (r3 := rstrip_with is_space (fst (break_at (Ascii.eqb "#") r1))).
    rewrite (all_chars_nonempty_app u r3 Hne). cbn [negb].
    assert (Hpre : PyRe.match_uuid_prefix (u ++ r3) = Some u).
    { assert (Ht : forall r, take 36 (u ++ r) = u)
        by (intros r; rewrite <- Hlen; apply take_app_length).
      assert (Ht0 : take 36 u = u).
      { rewrite <- Hlen. clear. induction u as [|c u IH]; [reflexivity|].
        cbn [String.length take]. rewrite IH. reflexivity. }
      unfold PyRe.match_uuid_prefix in *. cbv zeta in *.
      rewrite Ht. rewrite Ht0 in Hprefix. exact Hprefix. }
    rewrite Hpre, Hmatch. reflexivity. }
  change (omap token_of_part [(u ++ r1)%string])
    with (match token_of_part (u ++ r1) with
          | Some y => y :: omap token_of_part []
          | None => omap token_of_part []
          end).
  rewrite Htok. reflexivity.
Qed.

(** X8.  A line that begins with the text of a UUID stands for that UUID,
    whatever follows it on the line: a comment after a hash sign, a name
    after a hyphen or any other text without a comma or a newline.  This
    is the form in which the people picker writes its selections. *)
Theorem parse_people_input_uuid_with_note (u rest : string) :
  is_uuid_text u = true ->
  all_chars (fun c => negb (Ascii.eqb c ",") && negb (Ascii.eqb c "010"))
            rest = true ->
  parse_people_input (u ++ rest) = [u].
Proof. apply parse_people_input_uuid_prefix. Qed.

Lemma parse_people_input_uuid_with_note_witness :
  let u := "123e4567-e89b-42d3-a456-426614174000" in
  is_uuid_text u = true
  /\ parse_people_input (u ++ "  # Ann Smith") = [u]
  /\ parse_people_input (u ++ " - Ann Smith") = [u].
Proof.
  intros u.
  assert (Hu : is_uuid_text u = true) by reflexivity.
  split; [exact Hu|]. split.
  - exact (parse_people_input_uuid_with_note u "  # Ann Smith" Hu eq_refl).
  - exact (parse_people_input_uuid_with_note u " - Ann Smith" Hu eq_refl).
Defined.

End PeopleTokens.

Section NormalizeMore.

Variable netloc_ok : string -> bool.

Local Abbreviation normalize := (_normalize_api_base_url netloc_ok).

(** X9.  Whatever the configured value, the normalised API base URL does
    not end with a slash, so an endpoint path can be appended to it as it
    is. *)
Theorem normalize_api_base_url_no_trailing_slash (value : json) :
  rstrip_slash (normalize value) = normalize value.
Proof.
  destruct value as [| | |v| |]; try reflexivity.
  rewrite normalize_unfold.
  destruct (nonempty (strip v)); cbn [negb]; [|reflexivity].
  destruct (normalize_trimmed_cases netloc_ok (rstrip_slash (strip v)))
    as [-> | (sch & n & _ & _ & _ & _ & _ & _ & ->)].
  - apply rstrip_with_idem.
  - apply rstrip_slash_api.
Qed.

Lemma is_unsafe_is_space (c : ascii) :
  PyUrl.is_unsafe c = true -> is_space c = true.
Proof.
  destruct c as [[] [] [] [] [] [] [] []]; vm_compute; congruence.
Qed.

Lemma urlsplit_bare_host (sch n : string) :
  sch = "http" \/ sch = "https" ->
  PyUrl.brackets_unbalanced n = false -> netloc_ok n = true ->
  all_chars host_char n = true -> all_chars safe_char n = true ->
  PyUrl.urlsplit netloc_ok (sch ++ "://" ++ n)%string
  = Ok (PyUrl.mk_split sch n "" "" "").
Proof.
  intros Hsch Hbr Hok Hhost Hsafe.
  assert (Hclean : remove_chars PyUrl.is_unsafe n = n)
    by (apply remove_chars_none; exact Hsafe).
  assert (Hbreak : break_at PyUrl.is_netloc_delim n = (n, ""))
    by (apply break_at_none; exact Hhost).
  unfold PyUrl.urlsplit.
  destruct Hsch as [-> | ->];
    rewrite !append_cons, !append_nil; simpl;
    rewrite Hclean; unfold PyUrl.split_scheme; simpl;
    rewrite Hbreak, Hbr; simpl; rewrite Hok; reflexivity.
Qed.

(** X10.  A URL that gives only the scheme [http] or [https] and a host,
    with any number of slashes after it, is completed with the path
    [/api]. *)
Theorem normalize_api_base_url_bare_host (sch n slashes : string) :
  sch = "http" \/ sch = "https" ->
  nonempty n = true ->
  PyUrl.brackets_unbalanced n = false -> netloc_ok n = true ->
  all_chars host_char n = true ->
  all_chars (fun c => negb (is_space c)) n = true ->
  all_chars (Ascii.eqb "/") slashes = true ->
  normalize (JStr (sch ++ "://" ++ n ++ slashes)%string)
  = (sch ++ "://" ++ n ++ "/api")%string.
Proof.
  intros Hsch Hne Hbr Hok Hhost Hspace Hsl.
  assert (Hsafe : all_chars safe_char n = true).
  { apply (all_chars_impl (fun c => negb (is_space c))); [|exact Hspace].
    intros c Hc. unfold safe_char.
    destruct (PyUrl.is_unsafe c) eqn:Hu; [|reflexivity].
    apply is_unsafe_is_space in Hu. rewrite Hu in Hc. discriminate. }
  assert (Hsl_space : all_chars (fun c => negb (is_space c)) slashes = true).
  { apply (all_chars_impl (Ascii.eqb "/")); [|exact Hsl].
    intros c Hc. apply Ascii.eqb_eq in Hc. subst c. reflexivity. }
  assert (Hn_slash : all_chars (fun c => negb (Ascii.eqb "/" c)) n = true).
  { apply (all_chars_impl host_char); [|exact Hhost].
    intros c Hc. unfold host_char, PyUrl.is_netloc_delim in Hc.
    rewrite Ascii.eqb_sym.
    destruct (Ascii.eqb c "/"); [discriminate|reflexivity]. }
  assert (Hstrip : strip (sch ++ "://" ++ n ++ slashes)
                   = (sch ++ "://" ++ n ++ slashes)%string).
  { apply strip_clean. rewrite !all_chars_app, Hspace, Hsl_space.
    destruct Hsch as [-> | ->]; reflexivity. }
  assert (Hurl : rstrip_slash (sch ++ "://" ++ n ++ slashes)
                 = (sch ++ "://" ++ n)%string).
  { unfold rstrip_slash.
    replace (sch ++ "://" ++ n ++ slashes)%string
      with ((sch ++ "://" ++ n) ++ slashes)%string
      by (rewrite !string_app_assoc; reflexivity).
    rewrite rstrip_with_app_all by exact Hsl.
    replace (sch ++ "://" ++ n)%string with ((sch ++ "://") ++ n)%string
      by (rewrite !string_app_assoc; reflexivity).
    rewrite rstrip_with_app_keep;
      rewrite (rstrip_with_clean _ n Hn_slash); [reflexivity|].
    destruct n; [discriminate|discriminate]. }
  rewrite normalize_unfold, Hstrip, Hurl.
  assert (Hnonempty : nonempty (sch ++ "://" ++ n ++ slashes)%string = true)
    by (destruct Hsch as [-> | ->]; reflexivity).
  rewrite Hnonempty. cbn [negb].
  unfold normalize_trimmed.
  rewrite (urlsplit_bare_host sch n Hsch Hbr Hok Hhost Hsafe).
  cbn [PyUrl.scheme PyUrl.netloc PyUrl.path].
  rewrite Hne.
  assert (Hs : ((sch =? "http")%string || (sch =? "https")%string) = true)
    by (destruct Hsch as [-> | ->]; reflexivity).
  rewrite Hs. cbn [andb].
  change (rstrip_slash "") with "". cbn [String.eqb orb].
  apply urlunsplit_api; assumption.
Qed.

End NormalizeMore.

Lemma normalize_api_base_url_bare_host_witness :
  nonempty "immich.example.com:2283" = true
  /\ _normalize_api_base_url (fun _ => true)
       (JStr ("https" ++ "://" ++ "immich.example.com:2283" ++ "//"))
     = "https://immich.example.com:2283/api".
Proof.
  split; [reflexivity|].
  apply (normalize_api_base_url_bare_host (fun _ => true) "https"
           "immich.example.com:2283" "//");
    solve [right; reflexivity | reflexivity].
Defined.

(* ===================================================================== *)
(** * What a run emits *)
(* ===================================================================== *)

Section Emits.

Context {E : Env}.
Variable P : event -> Prop.

Lemma emits_ret {A} (a : A) : emits (E := E) P (ret a).
Proof. intros w. exists []. rewrite app_nil_r. auto. Qed.

Lemma emits_raise {A} (e : exn) : emits (E := E) (A := A) P (raise e).
Proof. intros w. exists []. rewrite app_nil_r. auto. Qed.

Lemma emits_lift {A} (r : result A) : emits (E := E) P (lift r).
Proof. intros w. exists []. rewrite app_nil_r. auto. Qed.

Lemma emits_out_of_fuel {A} : emits (E := E) (A := A) P out_of_fuel.
Proof. intros w. exists []. rewrite app_nil_r. auto. Qed.

Lemma emits_stop_event_is_set : emits (E := E) P stop_event_is_set.
Proof. intros w. exists []. rewrite app_nil_r. auto. Qed.

Lemma emits_emit (ev : event) : P ev -> emits (E := E) P (emit ev).
Proof.
  intros Hev w. exists [ev]. split; [reflexivity|]. repeat constructor.
  exact Hev.
Qed.

Lemma emits_http {A} (req : request)
  (handler : srv E -> srv E * http_result A) :
  (forall flag_set, P (EvRequest flag_set req)) ->
  emits P (http req handler).
Proof.
  intros Hreq w. unfold http. destruct (handler (server w)) as [s' r].
  eexists. split; [reflexivity|]. repeat constructor. apply Hreq.
Qed.

Lemma emits_bind {A B} (m : M E A) (k : A -> M E B) :
  emits P m -> (forall a, emits P (k a)) -> emits P (bind m k).
Proof.
  intros Hm Hk w. unfold bind. destruct (Hm w) as (evs & Ht & Hok).
  destruct (m w) as [[a|e|] w1]; simpl in Ht.
  - destruct (Hk a w1) as (evs' & Ht' & Hok').
    exists (evs ++ evs')%list. rewrite Ht', Ht, app_assoc.
    split; [reflexivity|]. apply Forall_app. auto.
  - exists evs. auto.
  - exists evs. auto.
Qed.

Lemma emits_try_except {A} (catches : exn -> bool) (m : M E A)
  (h : exn -> M E A) :
  emits P m -> (forall e, emits P (h e)) ->
  emits P (try_except catches m h).
Proof.
  intros Hm Hh w. unfold try_except. destruct (Hm w) as (evs & Ht & Hok).
  destruct (m w) as [[a|e|] w1]; simpl in Ht;
    [exists evs; auto| |exists evs; auto].
  destruct (catches e); [|exists evs; auto].
  destruct (Hh e w1) as (evs' & Ht' & Hok').
  exists (evs ++ evs')%list. rewrite Ht', Ht, app_assoc.
  split; [reflexivity|]. apply Forall_app. auto.
Qed.

Lemma emits_try_finally {A} (m : M E A) (f : M E unit) :
  emits P m -> emits P f -> emits P (try_finally m f).
Proof.
  intros Hm Hf w. unfold try_finally. destruct (Hm w) as (evs & Ht & Hok).
  destruct (m w) as [r w1]. simpl in Ht.
  destruct (Hf w1) as (evs' & Ht' & Hok').
  exists (evs ++ evs')%list.
  destruct (f w1) as [[[]|e|] w2]; simpl in *;
    rewrite Ht', Ht, app_assoc; (split; [reflexivity|]);
    apply Forall_app; auto.
Qed.

(** The rules for the code that follows a cancellation check. *)
Lemma emits_unset_of_emits {A} (m : M E A) : emits P m -> emits_unset P m.
Proof. intros Hm w _. apply Hm. Qed.

Lemma emits_checked {A} (m1 m2 : M E A) :
  emits P m1 -> emits_unset P m2 ->
  emits P (let! stop := stop_event_is_set in if stop then m1 else m2).
Proof.
  intros H1 H2 w. unfold bind, stop_event_is_set.
  destruct (stop_flag E (clock w)) eqn:Hflag; [apply H1|apply H2, Hflag].
Qed.

Lemma emits_unset_emit {A} (ev : event) (k : M E A) :
  P ev -> emits_unset P k -> emits_unset P (emit ev ;; k).
Proof.
  intros Hev Hk w Hflag. unfold bind, emit.
  destruct (Hk (mk_world (server w) (clock w) (trace w ++ [ev])%list) Hflag)
    as (evs & Ht & Hok).
  exists (ev :: evs). rewrite Ht. cbn [trace].
  rewrite <- app_assoc. split; [reflexivity|]. constructor; assumption.
Qed.

Lemma emits_unset_http {A B} (req : request)
  (handler : srv E -> srv E * http_result A) (k : http_result A -> M E B) :
  P (EvRequest false req) -> (forall r, emits P (k r)) ->
  emits_unset P (bind (http req handler) k).
Proof.
  intros Hreq Hk w Hflag. unfold bind, http. rewrite Hflag.
  destruct (handler (server w)) as [s' r].
  destruct (Hk r (mk_world s' (S (clock w))
                           (trace w ++ [EvRequest false req])%list))
    as (evs & Ht & Hok).
  exists (EvRequest false req :: evs). rewrite Ht. cbn [trace].
  rewrite <- app_assoc. split; [reflexivity|]. constructor; assumption.
Qed.

Lemma emits_unset_bind {A B} (m : M E A) (k : A -> M E B) :
  emits_unset P m -> (forall a, emits P (k a)) -> emits_unset P (bind m k).
Proof.
  intros Hm Hk w Hflag. unfold bind. destruct (Hm w Hflag) as (evs & Ht & Hok).
  destruct (m w) as [[a|e|] w1]; simpl in Ht.
  - destruct (Hk a w1) as (evs' & Ht' & Hok').
    exists (evs ++ evs')%list. rewrite Ht', Ht, app_assoc.
    split; [reflexivity|]. apply Forall_app. auto.
  - exists evs. auto.
  - exists evs. auto.
Qed.

End Emits.

Lemma emits_weaken {E A} (P Q : event -> Prop) (m : M E A) :
  (forall ev, P ev -> Q ev) -> emits P m -> emits Q m.
Proof.
  intros Himp Hm w. destruct (Hm w) as (evs & Ht & Hok).
  exists evs. split; [exact Ht|]. eapply Forall_impl; eauto.
Qed.

(** ** What each function of the engine emits *)

Section EngineEmits.

Context {E : Env}.
Variable P : event -> Prop.
Variables album_names tokens : list string.

Hypothesis P_log : forall text, P (EvLog text).
Hypothesis P_status : forall text, P (EvStatus text).
Hypothesis P_progress : forall value max_value, P (EvProgress value max_value).
Hypothesis P_get_albums :
  forall flag_set, P (EvRequest flag_set (GetAlbums (API_BASE_URL E ++ "/albums"))).
Hypothesis P_post_album :
  forall flag_set album_name,
    album_name ∈ album_names ->
    P (EvRequest flag_set (PostAlbum (API_BASE_URL E ++ "/albums") album_name)).
Hypothesis P_put_assets :
  forall flag_set album_id ids,
    ids <> [] ->
    P (EvRequest flag_set
         (PutAlbumAssets (API_BASE_URL E ++ "/albums/" ++ album_id ++ "/assets")
                         ids)).
Hypothesis P_search_person :
  forall name with_hidden,
    name ∈ tokens -> UUID_PATTERN_match name = false ->
    P (EvRequest false
         (GetSearchPerson (API_BASE_URL E ++ "/search/person") name
                          with_hidden)).
Hypothesis P_search_metadata :
  forall filters start_date end_date page,
    1 <= page ->
    P (EvRequest false
         (PostSearchMetadata
            (API_BASE_URL E ++ "/search/metadata")
            (metadata_payload filters start_date end_date 100 page))).

Lemma emits_log_message (text : string) : emits (E := E) P (log_message text).
Proof. apply emits_emit, P_log. Qed.

Lemma emits_set_status (text : string) : emits (E := E) P (set_status text).
Proof. apply emits_emit, P_status. Qed.

Lemma emits_set_progress (a b : Z) : emits (E := E) P (set_progress a b).
Proof. apply emits_emit, P_progress. Qed.

Lemma emits_request_failed {A} (what msg : string) :
  emits (E := E) (A := A) P (request_failed what msg).
Proof.
  unfold request_failed.
  apply emits_bind; [apply emits_log_message|intros _].
  apply emits_bind; [apply emits_set_status|intros _].
  apply emits_raise.
Qed.

Ltac emits_leaf :=
  first
    [ apply emits_ret | apply emits_raise | apply emits_lift
    | apply emits_out_of_fuel | apply emits_stop_event_is_set
    | apply emits_log_message | apply emits_set_status
    | apply emits_set_progress | apply emits_request_failed ].

Ltac emits_skip := apply emits_bind; [emits_leaf|intros _].

Lemma emits_find_or_create_album (album_name : string) :
  album_name ∈ album_names ->
  emits (E := E) P (find_or_create_album album_name).
Proof.
  intros Hname. unfold find_or_create_album. emits_skip.
  apply emits_bind; [apply emits_http, P_get_albums|intros r].
  destruct r as [status albums|msg]; [|emits_leaf].
  emits_skip. destruct (find _ albums) as [a|].
  - emits_skip. emits_leaf.
  - emits_skip.
    apply emits_bind;
      [apply emits_http; intros b; apply P_post_album, Hname|intros r].
    destruct r as [st new_album|msg]; [|emits_leaf].
    emits_skip. emits_leaf.
Qed.

Lemma emits_unset_search_people_by_name (name : string)
  (with_hidden : bool) :
  name ∈ tokens -> UUID_PATTERN_match name = false ->
  emits_unset (E := E) P (search_people_by_name name with_hidden).
Proof.
  intros Hin Hname. unfold search_people_by_name, log_message.
  apply emits_unset_emit; [apply P_log|].
  apply emits_unset_http; [apply P_search_person; assumption|intros r].
  destruct r; emits_leaf.
Qed.

Lemma emits_add_assets_to_album (album_id : string)
  (asset_ids : list string) :
  emits (E := E) P (add_assets_to_album album_id asset_ids).
Proof.
  unfold add_assets_to_album. destruct asset_ids as [|a l].
  - emits_skip. emits_leaf.
  - emits_skip.
    apply emits_bind;
      [apply emits_http; intros b; apply P_put_assets; discriminate
      |intros r].
    destruct r; [|emits_leaf]. emits_skip. emits_leaf.
Qed.

Lemma emits_resolve_tokens (with_hidden : bool) (ts : list string) :
  (forall t, t ∈ ts -> t ∈ tokens) ->
  forall acc seen,
    emits (E := E) P (resolve_tokens with_hidden ts acc seen).
Proof.
  induction ts as [|t ts IH]; intros Hsub acc seen; simpl; [emits_leaf|].
  assert (IH' := IH (fun t' H => Hsub t' (list_elem_of_further _ _ _ H))).
  apply emits_checked; [emits_leaf|].
  destruct (UUID_PATTERN_match t) eqn:Hmatch.
  - apply emits_unset_of_emits. destruct (decide (t ∈ seen)); apply IH'.
  - apply emits_unset_bind.
    + apply emits_unset_search_people_by_name; [|exact Hmatch].
      apply Hsub. left.
    + intros matches.
      apply emits_bind; [emits_leaf|intros person].
      destruct (person_id person) as [[|c s]|]; try emits_leaf.
      destruct (decide _); apply IH'.
Qed.

Lemma emits_resolve_person_ids (people_text : string) (with_hidden : bool) :
  (forall t, t ∈ parse_people_input people_text -> t ∈ tokens) ->
  emits (E := E) P (resolve_person_ids people_text with_hidden).
Proof.
  intros Hsub. unfold resolve_person_ids.
  destruct (parse_people_input people_text) eqn:Hp; [emits_leaf|].
  apply emits_resolve_tokens. exact Hsub.
Qed.

Lemma emits_search_pages (fuel : nat) start_date end_date filters :
  forall page acc,
    1 <= page ->
    emits (E := E) P
          (search_pages fuel start_date end_date filters 100 page acc).
Proof.
  induction fuel as [|fuel IH]; intros page acc Hpage; simpl.
  - apply emits_checked; [emits_skip; emits_leaf|].
    apply emits_unset_of_emits. emits_leaf.
  - apply emits_checked; [emits_skip; emits_leaf|].
    unfold log_message at 1.
    apply emits_unset_emit; [apply P_log|].
    apply emits_unset_http; [apply P_search_metadata, Hpage|intros r].
    destruct r as [status assets|msg]; [|emits_leaf].
    emits_skip.
    destruct assets as [|x xs]; [emits_leaf|].
    destruct (_ <? 100); [emits_leaf|]. apply IH. lia.
Qed.

Lemma emits_search_assets_by_date_range (fuel : nat) start_date end_date
  filters :
  emits (E := E) P
        (search_assets_by_date_range fuel start_date end_date filters).
Proof.
  unfold search_assets_by_date_range.
  apply emits_bind; [apply emits_search_pages; lia|intros found].
  destruct found; [|emits_leaf]. emits_skip. emits_leaf.
Qed.

Lemma emits_unite_people (fuel : nat) start_date end_date filters
  (ids : list string) :
  forall acc,
    emits (E := E) P
          (unite_people fuel start_date end_date filters ids acc).
Proof.
  induction ids as [|p ps IH]; intros acc; simpl; [emits_leaf|].
  apply emits_bind; [emits_leaf|intros stop]. destruct stop; [emits_leaf|].
  apply emits_bind; [apply emits_search_assets_by_date_range|intros found].
  apply IH.
Qed.

Lemma emits_intersect_people (fuel : nat) start_date end_date filters
  (ids : list string) :
  forall acc,
    emits (E := E) P
          (intersect_people fuel start_date end_date filters ids acc).
Proof.
  induction ids as [|p ps IH]; intros acc; simpl; [emits_leaf|].
  apply emits_bind; [emits_leaf|intros stop]. destruct stop; [emits_leaf|].
  apply emits_bind; [apply emits_search_assets_by_date_range|intros found].
  apply IH.
Qed.

Lemma emits_search_assets_for_date_range (fuel : nat) start_date end_date
  filters (ids : list string) (mode : string) :
  emits (E := E) P
        (search_assets_for_date_range fuel start_date end_date filters
                                      ids mode).
Proof.
  unfold search_assets_for_date_range.
  apply emits_bind; [emits_leaf|intros stop]. destruct stop; [emits_leaf|].
  destruct ids as [|p1 [|p2 ps]];
    try apply emits_search_assets_by_date_range.
  destruct (mode =? "all")%string.
  - apply emits_bind; [apply emits_intersect_people|intros r].
    destruct r; emits_leaf.
  - apply emits_bind; [apply emits_unite_people|intros r].
    destruct r; emits_leaf.
Qed.

Lemma emits_collect fuel status base_date delta_days album_id filters ids
  mode total_tasks counters :
  emits (E := E) P
        (collect fuel status base_date delta_days album_id filters ids
                 mode total_tasks counters).
Proof.
  unfold collect. destruct counters as [added progress].
  apply emits_bind; [emits_leaf|intros window]. destruct window as [lo hi].
  emits_skip.
  apply emits_bind;
    [apply emits_search_assets_for_date_range|intros asset_ids].
  apply emits_bind; [apply emits_add_assets_to_album|intros n].
  emits_skip. emits_leaf.
Qed.

Lemma emits_year_loop fuel years date_of status_of delta_days album_id
  filters ids mode total_tasks :
  forall counters,
    emits (E := E) P
          (year_loop fuel years date_of status_of delta_days album_id
                     filters ids mode total_tasks counters).
Proof.
  induction years as [|y ys IH]; intros counters; simpl; [emits_leaf|].
  apply emits_bind; [emits_leaf|intros stop]. destruct stop.
  { emits_skip. emits_leaf. }
  apply emits_bind; [emits_leaf|intros base_date].
  apply emits_bind; [apply emits_collect|intros counters']. apply IH.
Qed.

Lemma emits_holiday_loop fuel items years delta_days filters ids mode
  total_tasks :
  (forall kv, kv ∈ items -> (fst kv =? "Specific Date")%string = false ->
              snd kv ∈ album_names) ->
  forall counters,
    emits (E := E) P
          (holiday_loop fuel items years delta_days filters ids mode
                        total_tasks counters).
Proof.
  induction items as [|[holiday_name album_name] items IH];
    intros Hsub counters; simpl; [emits_leaf|].
  assert (IH' := IH (fun kv H => Hsub kv (list_elem_of_further _ _ _ H))).
  destruct (holiday_name =? "Specific Date")%string eqn:Hname; [apply IH'|].
  apply emits_bind.
  { apply emits_find_or_create_album.
    apply (Hsub (holiday_name, album_name)); [left|exact Hname]. }
  intros album_id.
  apply emits_bind; [apply emits_year_loop|intros r].
  destruct r; [apply IH'|emits_leaf].
Qed.

Lemma run_album_names_specific (items : list (string * string))
  (specific : string) :
  has_key "Specific Date" items = true ->
  specific ∈ run_album_names items specific.
Proof.
  intros Hkey. unfold run_album_names. rewrite Hkey.
  apply elem_of_app. left. left.
Qed.

Lemma run_album_names_holiday (items : list (string * string))
  (specific : string) (kv : string * string) :
  kv ∈ items -> (fst kv =? "Specific Date")%string = false ->
  snd kv ∈ run_album_names items specific.
Proof.
  intros Hin Hname. unfold run_album_names.
  apply elem_of_app. right.
  apply list_elem_of_fmap. exists kv. split; [reflexivity|].
  apply list_elem_of_In, filter_In. split.
  - apply list_elem_of_In, Hin.
  - rewrite Hname. reflexivity.
Qed.

Lemma emits_run_tasks fuel delta_days start_year end_year selected_items
  specific_date_str specific_date_album_name specific_date_all_years
  filters ids mode total_tasks :
  (forall n, n ∈ run_album_names selected_items specific_date_album_name ->
             n ∈ album_names) ->
  emits (E := E) P
        (run_tasks fuel delta_days start_year end_year selected_items
                   specific_date_str specific_date_album_name
                   specific_date_all_years filters ids mode total_tasks).
Proof.
  intros Hsub. unfold run_tasks.
  apply emits_bind.
  - destruct (has_key "Specific Date" selected_items) eqn:Hkey;
      [|emits_leaf].
    apply emits_bind; [emits_leaf|intros specific_date].
    apply emits_bind.
    { apply emits_find_or_create_album, Hsub,
        run_album_names_specific, Hkey. }
    intros album_id.
    destruct specific_date_all_years; [apply emits_year_loop|].
    apply emits_bind; [emits_leaf|intros stop]. destruct stop.
    { emits_skip. emits_leaf. }
    apply emits_bind; [apply emits_collect|intros counters]. emits_leaf.
  - intros r. destruct r as [counters|]; [|emits_leaf].
    apply emits_bind.
    { apply emits_holiday_loop. intros kv Hin Hname.
      apply Hsub, run_album_names_holiday; assumption. }
    intros r. destruct r as [[added progress]|]; [|emits_leaf].
    emits_skip. emits_leaf.
Qed.

Lemma emits_run_search fuel api_key delta_days start_year end_year
  selected_items specific_date_str specific_date_album_name
  specific_date_all_years people_text people_match_mode
  additional_filters_text people_with_hidden :
  (forall n, n ∈ run_album_names selected_items specific_date_album_name ->
             n ∈ album_names) ->
  (forall t, t ∈ parse_people_input people_text -> t ∈ tokens) ->
  emits (E := E) P
        (run_search fuel api_key delta_days start_year end_year
                    selected_items specific_date_str
                    specific_date_album_name specific_date_all_years
                    people_text people_match_mode additional_filters_text
                    people_with_hidden).
Proof.
  intros Hnames Htokens. unfold run_search.
  destruct (negb (nonempty (API_BASE_URL E))); [emits_skip; emits_leaf|].
  emits_skip. emits_skip.
  destruct (parse_additional_filters_json E additional_filters_text)
    as [filters [err|]]; [emits_skip; emits_leaf|].
  match goal with
  | |- emits _ (match ?x with _ => _ end) => destruct x as [acc|]
  end; [|emits_skip; emits_leaf].
  apply emits_bind.
  - destruct (nonempty people_text && nonempty (strip people_text));
      [|emits_leaf].
    apply emits_try_except.
    + emits_skip.
      apply emits_bind;
        [apply emits_resolve_person_ids, Htokens|intros ids]. emits_leaf.
    + intros e. emits_skip. emits_skip. emits_leaf.
  - intros resolved. destruct resolved as [resolved_ids|]; [|emits_leaf].
    destruct (extend_unique resolved_ids acc) as [combined seen].
    emits_skip.
    apply emits_try_finally; [|emits_leaf].
    apply emits_try_except; [apply emits_run_tasks, Hnames|].
    intros e. emits_skip. emits_leaf.
Qed.

End EngineEmits.

(* ===================================================================== *)
(** * Further properties of a run *)
(* ===================================================================== *)

Section RunRequests.

Context {E : Env}.

(** X11.  Every request of a run goes to one of the five endpoints under
    the configured base URL.  An album is created only under the name of
    a selected target; assets are never put with an empty list of ids; a
    person is looked up only for a token of the people text that is not
    a UUID; a metadata search always asks for pages of 100 results, from
    page 1 on. *)
Theorem run_search_request_shapes
    fuel api_key delta_days start_year end_year selected_items
    specific_date_str specific_date_album_name specific_date_all_years
    people_text people_match_mode additional_filters_text
    people_with_hidden (w : world E) :
  exists evs,
    trace (snd (run_search fuel api_key delta_days start_year end_year
                           selected_items specific_date_str
                           specific_date_album_name specific_date_all_years
                           people_text people_match_mode
                           additional_filters_text people_with_hidden w))
    = (trace w ++ evs)%list
    /\ forall flag_set req,
        EvRequest flag_set req ∈ evs ->
        request_shape E
          (run_album_names selected_items specific_date_album_name)
          (parse_people_input people_text) req.
Proof.
  set (names := run_album_names selected_items specific_date_album_name).
  set (tokens := parse_people_input people_text).
  assert (H : emits (E := E) (event_ok (request_shape E names tokens))
                (run_search fuel api_key delta_days start_year end_year
                            selected_items specific_date_str
                            specific_date_album_name specific_date_all_years
                            people_text people_match_mode
                            additional_filters_text people_with_hidden)).
  { apply emits_run_search with (album_names := names) (tokens := tokens);
      try (intros; exact Logic.I); try (cbn; eauto; fail); auto.
    intros filters start_date end_date page Hpage. cbn.
    destruct (metadata_payload_reserved filters start_date end_date 100 page)
      as (_ & _ & Hp & Hs).
    split; [reflexivity|]. split; [exact Hs|]. exists page. auto. }
  destruct (H w) as (evs & Ht & Hok).
  exists evs. split; [exact Ht|]. intros flag_set req Hin.
  rewrite Forall_forall in Hok. exact (Hok _ Hin).
Qed.

(** X12.  The requests for a page of search results and for a person are
    always issued right after the cancellation flag was found unset: no
    such request is issued while the flag is set. *)
Theorem run_search_checks_flag_before_searching
    fuel api_key delta_days start_year end_year selected_items
    specific_date_str specific_date_album_name specific_date_all_years
    people_text people_match_mode additional_filters_text
    people_with_hidden (w : world E) :
  exists evs,
    trace (snd (run_search fuel api_key delta_days start_year end_year
                           selected_items specific_date_str
                           specific_date_album_name specific_date_all_years
                           people_text people_match_mode
                           additional_filters_text people_with_hidden w))
    = (trace w ++ evs)%list
    /\ (forall url name with_hidden,
           EvRequest true (GetSearchPerson url name with_hidden) ∉ evs)
    /\ (forall url payload,
           EvRequest true (PostSearchMetadata url payload) ∉ evs).
Proof.
  assert (H : emits (E := E) checked_event
                (run_search fuel api_key delta_days start_year end_year
                            selected_items specific_date_str
                            specific_date_album_name specific_date_all_years
                            people_text people_match_mode
                            additional_filters_text people_with_hidden)).
  { apply emits_run_search
      with (album_names := run_album_names selected_items
                                           specific_date_album_name)
           (tokens := parse_people_input people_text);
      try (intros; exact Logic.I); try (intros; reflexivity); auto. }
  destruct (H w) as (evs & Ht & Hok).
  exists evs. split; [exact Ht|]. rewrite Forall_forall in Hok.
  split; intros; intros Hin; apply Hok in Hin; discriminate.
Qed.

End RunRequests.

Section ProgressReset.

Context {E : Env}.

Local Abbreviation silent := (fun ev : event => ~ is_progress ev).

Lemma silent_or_reset_prefix (evs1 evs2 : list event) :
  Forall silent evs1 -> silent_or_reset evs2 ->
  silent_or_reset (evs1 ++ evs2)%list.
Proof.
  intros H1 [H2 | (evs' & ->)].
  - left. apply Forall_app. auto.
  - right. exists (evs1 ++ evs')%list. apply app_assoc.
Qed.

Lemma silent_or_reset_bind {A B} (m : M E A) (k : A -> M E B) :
  emits silent m ->
  (forall a w, exists evs,
      trace (snd (k a w)) = (trace w ++ evs)%list /\ silent_or_reset evs) ->
  forall w, exists evs,
    trace (snd (bind m k w)) = (trace w ++ evs)%list /\ silent_or_reset evs.
Proof.
  intros Hm Hk w. unfold bind. destruct (Hm w) as (evs & Ht & Hok).
  destruct (m w) as [[a|e|] w1]; simpl in Ht.
  - destruct (Hk a w1) as (evs' & Ht' & Hok').
    exists (evs ++ evs')%list. rewrite Ht', Ht, app_assoc.
    split; [reflexivity|]. apply silent_or_reset_prefix; assumption.
  - exists evs. split; [exact Ht|]. left. exact Hok.
  - exists evs. split; [exact Ht|]. left. exact Hok.
Qed.

Lemma silent_or_reset_emits {A} (m : M E A) :
  emits silent m ->
  forall w, exists evs,
    trace (snd (m w)) = (trace w ++ evs)%list /\ silent_or_reset evs.
Proof.
  intros Hm w. destruct (Hm w) as (evs & Ht & Hok).
  exists evs. split; [exact Ht|]. left. exact Hok.
Qed.

Lemma try_finally_reset {A} (total : Z) (m : M E A) :
  emits (fun _ => True) m ->
  forall w, exists evs,
    trace (snd ((set_progress 0 total ;;
                 try_finally m (set_progress 0 0)) w))
    = (trace w ++ evs)%list
    /\ silent_or_reset evs.
Proof.
  intros Hm w. unfold bind, set_progress, emit, try_finally. cbn [fst snd].
  destruct (Hm (mk_world (server w) (clock w)
                         (trace w ++ [EvProgress 0 total])%list))
    as (evs & Ht & _).
  destruct (m _) as [r w1]. cbn [snd trace] in Ht |- *.
  exists (EvProgress 0 total :: evs ++ [EvProgress 0 0])%list.
  rewrite Ht. split.
  - rewrite <- !app_assoc. reflexivity.
  - right. exists (EvProgress 0 total :: evs). reflexivity.
Qed.

(** X13.  Whatever happens during a run (completion, cancellation, a
    failed request, an invalid date), the events it adds to the trace
    either contain no progress report at all, when the run ends before
    its first task, or end with the progress set back to zero of zero. *)
Theorem run_search_resets_progress
    fuel api_key delta_days start_year end_year selected_items
    specific_date_str specific_date_album_name specific_date_all_years
    people_text people_match_mode additional_filters_text
    people_with_hidden (w : world E) :
  exists evs,
    trace (snd (run_search fuel api_key delta_days start_year end_year
                           selected_items specific_date_str
                           specific_date_album_name specific_date_all_years
                           people_text people_match_mode
                           additional_filters_text people_with_hidden w))
    = (trace w ++ evs)%list
    /\ silent_or_reset evs.
Proof.
  assert (Hlog : forall text, emits (E := E) silent (log_message text))
    by (intros; apply emits_emit; cbn; tauto).
  assert (Hstatus : forall text, emits (E := E) silent (set_status text))
    by (intros; apply emits_emit; cbn; tauto).
  revert w. unfold run_search.
  destruct (negb (nonempty (API_BASE_URL E))).
  { apply silent_or_reset_emits.
    apply emits_bind; [apply Hstatus|intros _; apply Hlog]. }
  apply silent_or_reset_bind; [apply Hstatus|intros _].
  apply silent_or_reset_bind; [apply Hlog|intros _].
  destruct (parse_additional_filters_json E additional_filters_text)
    as [filters [err|]].
  { apply silent_or_reset_emits.
    apply emits_bind; [apply Hstatus|intros _; apply Hlog]. }
  match goal with
  | |- forall w, exists evs,
        trace (snd ((match ?x with _ => _ end) w)) = _ /\ _ =>
      destruct x as [acc|]
  end.
  2:{ apply silent_or_reset_emits.
      apply emits_bind; [apply Hstatus|intros _; apply Hlog]. }
  apply silent_or_reset_bind.
  - destruct (nonempty people_text && nonempty (strip people_text));
      [|apply emits_ret].
    apply emits_try_except.
    + apply emits_bind; [apply Hstatus|intros _].
      apply emits_bind; [|intros ids; apply emits_ret].
      apply emits_resolve_person_ids
        with (tokens := parse_people_input people_text);
        try (intros; cbn; tauto).
    + intros e. apply emits_bind; [apply Hstatus|intros _].
      apply emits_bind; [apply Hlog|intros _]. apply emits_ret.
  - intros resolved. destruct resolved as [resolved_ids|].
    2:{ apply silent_or_reset_emits, emits_ret. }
    destruct (extend_unique resolved_ids acc) as [combined seen].
    apply try_finally_reset.
    apply emits_try_except.
    + apply emits_run_tasks
        with (album_names := run_album_names selected_items
                                             specific_date_album_name);
        auto.
    + intros e.
      apply emits_bind; [apply emits_emit; exact Logic.I|intros _].
      apply emits_emit; exact Logic.I.
Qed.

End ProgressReset.

(* ===================================================================== *)
(** * Further properties of the API functions *)
(* ===================================================================== *)

Lemma requests_of_app (tr evs : list event) :
  requests_of (tr ++ evs) = (requests_of tr ++ requests_of evs)%list.
Proof. unfold requests_of. apply omap_app. Qed.

Section Albums.

Context {E : Env}.

Lemma find_first_match {A} (f : A -> bool) (pre post : list A) (a : A) :
  (forall b, b ∈ pre -> f b = false) -> f a = true ->
  find f (pre ++ a :: post) = Some a.
Proof.
  induction pre as [|b pre IH]; intros Hpre Ha; cbn [app find].
  - rewrite Ha. reflexivity.
  - rewrite (Hpre b) by left. apply IH; [|exact Ha].
    intros b' Hb'. apply Hpre. right. exact Hb'.
Qed.

Lemma find_no_match {A} (f : A -> bool) (l : list A) :
  (forall b, b ∈ l -> f b = false) -> find f l = None.
Proof.
  induction l as [|b l IH]; intros Hl; cbn [find]; [reflexivity|].
  rewrite (Hl b) by left. apply IH. intros b' Hb'. apply Hl. right.
  exact Hb'.
Qed.

Lemma album_name_test (album_name : string) (b : album) :
  album_albumName b <> Some album_name ->
  match album_albumName b with
  | Some n => (n =? album_name)%string
  | None => false
  end = false.
Proof.
  destruct (album_albumName b) as [n|]; [|reflexivity].
  intros Hn. apply String.eqb_neq. congruence.
Qed.

(** X14.  When the listing contains an album with exactly the wanted
    name, [find_or_create_album] returns the id of the first such album
    after a single request, the listing: nothing is created. *)
Theorem find_or_create_album_reuses_first_match
    (album_name : string) (w : world E) (s1 : srv E) (status : Z)
    (pre post : list album) (a : album) :
  list_albums E (server w) = (s1, HttpOk status (pre ++ a :: post)%list) ->
  (forall b, b ∈ pre -> album_albumName b <> Some album_name) ->
  album_albumName a = Some album_name ->
  exists w',
    find_or_create_album album_name w = (Ok (album_id a), w')
    /\ server w' = s1
    /\ requests_of (trace w')
       = (requests_of (trace w)
          ++ [GetAlbums (API_BASE_URL E ++ "/albums")])%list.
Proof.
  intros Hlist Hpre Ha.
  unfold find_or_create_album, bind, log_message, emit, http, ret.
  cbn [server clock trace]. rewrite Hlist.
  rewrite find_first_match.
  - eexists. split; [reflexivity|]. split; [reflexivity|].
    cbn [trace]. rewrite !requests_of_app. cbn. rewrite ?app_nil_r.
    reflexivity.
  - intros b Hb. apply album_name_test, Hpre, Hb.
  - rewrite Ha. apply String.eqb_refl.
Qed.

(** X15.  When no album of the listing has the wanted name, the album is
    created under that name and the id the repository gives it is
    returned: the listing, then one creation. *)
Theorem find_or_create_album_creates_when_absent
    (album_name : string) (w : world E) (s1 s2 : srv E) (status st : Z)
    (albums : list album) (new_album : album) :
  list_albums E (server w) = (s1, HttpOk status albums) ->
  (forall b, b ∈ albums -> album_albumName b <> Some album_name) ->
  create_album E s1 album_name = (s2, HttpOk st new_album) ->
  exists w',
    find_or_create_album album_name w = (Ok (album_id new_album), w')
    /\ server w' = s2
    /\ requests_of (trace w')
       = (requests_of (trace w)
          ++ [GetAlbums (API_BASE_URL E ++ "/albums");
              PostAlbum (API_BASE_URL E ++ "/albums") album_name])%list.
Proof.
  intros Hlist Hnone Hcreate.
  unfold find_or_create_album, bind, log_message, emit, http, ret.
  cbn [server clock trace]. rewrite Hlist.
  rewrite find_no_match
    by (intros b Hb; apply album_name_test, Hnone, Hb).
  cbn [server clock trace]. rewrite Hcreate.
  eexists. split; [reflexivity|]. split; [reflexivity|].
  cbn [trace]. rewrite !requests_of_app. cbn. rewrite ?app_nil_r.
  rewrite <- app_assoc. reflexivity.
Qed.

End Albums.

Lemma find_or_create_album_reuses_first_match_witness :
  let E := scripted_env "http://immich.local/api" (fun _ => inl "no")
             [mk_album "a1" (Some "easter"); mk_album "a2" (Some "Easter");
              mk_album "a3" (Some "Easter")]
             (fun _ => HttpOk 200 []) (fun _ => []) (fun _ => false) in
  let w : world E := mk_world (E := E) tt 0%nat [] in
  exists w',
    find_or_create_album "Easter" w = (Ok "a2", w')
    /\ requests_of (trace w') = [GetAlbums "http://immich.local/api/albums"].
Proof.
  intros E w.
  destruct (find_or_create_album_reuses_first_match
              (E := E) "Easter" w tt 200
              [mk_album "a1" (Some "easter")] [mk_album "a3" (Some "Easter")]
              (mk_album "a2" (Some "Easter")))
    as (w' & Hrun & _ & Hreq).
  - reflexivity.
  - intros b Hb. apply list_elem_of_singleton in Hb. subst b. discriminate.
  - reflexivity.
  - exists w'. split; [exact Hrun|exact Hreq].
Defined.

Lemma find_or_create_album_creates_when_absent_witness :
  let E := scripted_env "http://immich.local/api" (fun _ => inl "no")
             [mk_album "a1" (Some "easter")]
             (fun _ => HttpOk 200 []) (fun _ => []) (fun _ => false) in
  let w : world E := mk_world (E := E) tt 0%nat [] in
  exists w',
    find_or_create_album "Easter" w = (Ok "album-Easter", w')
    /\ requests_of (trace w')
       = [GetAlbums "http://immich.local/api/albums";
          PostAlbum "http://immich.local/api/albums" "Easter"].
Proof.
  intros E w.
  destruct (find_or_create_album_creates_when_absent
              (E := E) "Easter" w tt tt 200 201
              [mk_album "a1" (Some "easter")]
              (mk_album "album-Easter" (Some "Easter")))
    as (w' & Hrun & _ & Hreq).
  - reflexivity.
  - intros b Hb. apply list_elem_of_singleton in Hb. subst b. discriminate.
  - reflexivity.
  - exists w'. split; [exact Hrun|exact Hreq].
Defined.

Section Pagination.

Context {E : Env}.
Variables start_date end_date : datetime.
Variable filters : gmap string json.
Variable pages : Z -> list string.

Local Abbreviation url := (API_BASE_URL E ++ "/search/metadata")%string.
Local Abbreviation payload_of :=
  (metadata_payload filters start_date end_date 100).

(** The repository answers the search for page [p] with [pages p]. *)
Hypothesis answers :
  forall (s : srv E) (page : Z),
  exists s' status,
    search_metadata E s (payload_of page) = (s', HttpOk status (pages page)).

Lemma py_range_cons (lo : Z) (n : nat) :
  py_range lo (lo + Z.of_nat (S n))
  = lo :: py_range (lo + 1) (lo + 1 + Z.of_nat n).
Proof.
  unfold py_range.
  replace (lo + Z.of_nat (S n) - lo) with (Z.of_nat (S n)) by lia.
  replace (lo + 1 + Z.of_nat n - (lo + 1)) with (Z.of_nat n) by lia.
  rewrite !Nat2Z.id. cbn [seq map]. f_equal; [lia|].
  rewrite <- seq_shift, map_map. apply map_ext. intros i. lia.
Qed.

Lemma search_pages_one_page (fuel : nat) (page : Z) (acc : list string)
  (w : world E) (s' : srv E) (status : Z) (assets : list string) :
  stop_flag E (clock w) = false ->
  search_metadata E (server w) (payload_of page)
  = (s', HttpOk status assets) ->
  let w1 :=
    mk_world s' (S (clock w))
      (trace w
       ++ [EvLog ("POST " ++ url ++ " with payload: "
                  ++ json_dumps E (JObj (map_to_list (payload_of page))));
           EvRequest false (PostSearchMetadata url (payload_of page));
           EvLog ("Response: " ++ str_of_Z status)])%list in
  search_pages (S fuel) start_date end_date filters 100 page acc w
  = match assets with
    | [] => (Ok (Some acc), w1)
    | _ =>
        if Z.of_nat (length assets) <? 100
        then (Ok (Some (acc ++ assets)%list), w1)
        else search_pages fuel start_date end_date filters 100 (page + 1)
                          (acc ++ assets)%list w1
    end.
Proof.
  intros Hflag Hanswer w1. subst w1.
  cbn [search_pages]. unfold bind, stop_event_is_set, log_message, emit,
    http, ret. rewrite Hflag. cbn [server clock trace]. rewrite Hanswer.
  cbn [server clock trace]. rewrite <- !app_assoc. cbn [app].
  rewrite ?Hflag.
  destruct assets as [|x xs]; [reflexivity|].
  destruct (_ <? 100); reflexivity.
Qed.

Lemma search_pages_collects (j : nat) :
  forall (fuel : nat) (page : Z) (acc : list string) (w : world E),
    (j < fuel)%nat ->
    (forall i, (i <= j)%nat -> stop_flag E (clock w + i) = false) ->
    (forall i, (i < j)%nat ->
               100 <= Z.of_nat (length (pages (page + Z.of_nat i)))) ->
    Z.of_nat (length (pages (page + Z.of_nat j))) < 100 ->
    exists w',
      search_pages fuel start_date end_date filters 100 page acc w
      = (Ok (Some (acc ++ concat (map pages
                                      (py_range page
                                                (page + Z.of_nat (S j)))))%list),
         w')
      /\ clock w' = (clock w + S j)%nat
      /\ requests_of (trace w')
         = (requests_of (trace w)
            ++ map (fun p => PostSearchMetadata url (payload_of p))
                   (py_range page (page + Z.of_nat (S j))))%list.
Proof.
  induction j as [|j IH]; intros fuel page acc w Hfuel Hflag Hfull Hshort;
    (destruct fuel as [|fuel]; [lia|]);
    rewrite py_range_cons; cbn [map concat];
    (assert (Hflag0 : stop_flag E (clock w) = false)
      by (rewrite <- (Nat.add_0_r (clock w)); apply Hflag; lia));
    destruct (answers (server w) page) as (s' & status & Hanswer);
    rewrite (search_pages_one_page fuel page acc w s' status _
               Hflag0 Hanswer); cbv zeta.
  - replace (page + Z.of_nat 0) with page in Hshort by lia.
    assert (Hnil : py_range (page + 1) (page + 1 + Z.of_nat 0) = [])
      by (unfold py_range;
          replace (page + 1 + Z.of_nat 0 - (page + 1)) with 0 by lia;
          reflexivity).
    rewrite Hnil. cbn [map concat]. rewrite app_nil_r.
    destruct (pages page) as [|x xs] eqn:Hp.
    + rewrite app_nil_r. eexists. split; [reflexivity|].
      cbn [clock trace]. split; [lia|].
      rewrite !requests_of_app. cbn. rewrite ?app_nil_r. reflexivity.
    + destruct (Z.ltb_spec (Z.of_nat (length (x :: xs))) 100); [|lia].
      eexists. split; [reflexivity|].
      cbn [clock trace]. split; [lia|].
      rewrite !requests_of_app. cbn. rewrite ?app_nil_r. reflexivity.
  - pose proof (Hfull 0%nat ltac:(lia)) as Hfirst.
    replace (page + Z.of_nat 0) with page in Hfirst by lia.
    destruct (pages page) as [|x xs] eqn:Hp; [cbn in Hfirst; lia|].
    destruct (Z.ltb_spec (Z.of_nat (length (x :: xs))) 100); [lia|].
    match goal with
    | |- exists w', search_pages _ _ _ _ _ _ _ ?w1 = _ /\ _ =>
        destruct (IH fuel (page + 1) (acc ++ x :: xs)%list w1)
          as (w' & Hrun & Hclock & Hreq)
    end.
    + lia.
    + intros i Hi. cbn [clock].
      replace (S (clock w) + i)%nat with (clock w + S i)%nat by lia.
      apply Hflag. lia.
    + intros i Hi.
      replace (page + 1 + Z.of_nat i) with (page + Z.of_nat (S i)) by lia.
      apply Hfull. lia.
    + replace (page + 1 + Z.of_nat j) with (page + Z.of_nat (S j)) by lia.
      exact Hshort.
    + exists w'. rewrite Hrun. split.
      * rewrite <- app_assoc. reflexivity.
      * cbn [clock trace] in Hclock, Hreq. split; [lia|].
        rewrite Hreq, !requests_of_app. cbn. rewrite ?app_nil_r.
        rewrite <- app_assoc. reflexivity.
Qed.

(** X16.  The date-range search asks for pages 1, 2, 3, ... of 100
    results and stops with the first page that has fewer than 100
    results (or none): when the first [k - 1] pages are full and page
    [k] is short, it issues exactly [k] requests and returns the results
    of pages 1 to [k] in order, provided the cancellation flag stays
    unset until the last request and the fuel covers [k] pages. *)
Theorem search_assets_by_date_range_collects_pages
    (fuel k : nat) (w : world E) :
  (0 < k <= fuel)%nat ->
  (forall i, (i < k)%nat -> stop_flag E (clock w + i) = false) ->
  (forall p, 1 <= p < Z.of_nat k -> 100 <= Z.of_nat (length (pages p))) ->
  Z.of_nat (length (pages (Z.of_nat k))) < 100 ->
  exists w',
    search_assets_by_date_range fuel start_date end_date filters w
    = (Ok (concat (map pages (py_range 1 (Z.of_nat k + 1)))), w')
    /\ clock w' = (clock w + k)%nat
    /\ requests_of (trace w')
       = (requests_of (trace w)
          ++ map (fun p => PostSearchMetadata url (payload_of p))
                 (py_range 1 (Z.of_nat k + 1)))%list.
Proof.
  intros Hk Hflag Hfull Hshort.
  destruct k as [|j]; [lia|].
  destruct (search_pages_collects j fuel 1 [] w) as (w' & Hrun & Hclock & Hreq).
  - lia.
  - intros i Hi. apply Hflag. lia.
  - intros i Hi. apply Hfull. lia.
  - replace (1 + Z.of_nat j) with (Z.of_nat (S j)) by lia. exact Hshort.
  - replace (Z.of_nat (S j) + 1) with (1 + Z.of_nat (S j)) by lia.
    unfold search_assets_by_date_range, bind at 1. rewrite Hrun.
    cbn [app]. unfold bind, log_message, emit, ret.
    eexists. split; [reflexivity|]. cbn [clock trace].
    split; [exact Hclock|].
    rewrite requests_of_app, Hreq. cbn. rewrite app_nil_r. reflexivity.
Qed.

End Pagination.

Lemma search_assets_by_date_range_collects_pages_witness :
  let pages := fun p : Z =>
    if p =? 1 then repeat "a" 100 else if p =? 2 then ["b"; "c"] else [] in
  let E := scripted_env "http://immich.local/api" (fun _ => inl "no") []
             (fun _ => HttpOk 200 []) pages (fun _ => false) in
  let w : world E := mk_world (E := E) tt 0%nat [] in
  let d1 := mk_datetime 2024 12 24 0 0 0 0 in
  let d2 := mk_datetime 2024 12 26 0 0 0 0 in
  exists w',
    search_assets_by_date_range 2 d1 d2 ∅ w
    = (Ok (repeat "a" 100 ++ ["b"; "c"])%list, w')
    /\ clock w' = 2%nat.
Proof.
  intros pages E w d1 d2.
  assert (answers : forall (s : srv E) (page : Z),
             exists s' status,
               search_metadata E s (metadata_payload ∅ d1 d2 100 page)
               = (s', HttpOk status (pages page))).
  { intros s page. exists s, 200. cbn [search_metadata E scripted_env].
    destruct (metadata_payload_reserved ∅ d1 d2 100 page) as (_ & _ & Hp & _).
    cbv zeta in Hp. rewrite Hp. reflexivity. }
  destruct (search_assets_by_date_range_collects_pages
              (E := E) d1 d2 ∅ pages answers 2 2 w)
    as (w' & Hrun & Hclock & _).
  - lia.
  - intros i _. reflexivity.
  - intros p Hp. assert (p = 1) as -> by lia.
    change (pages 1) with (repeat "a" 100). rewrite repeat_length. lia.
  - change (pages (Z.of_nat 2)) with ["b"; "c"]. cbn [length]. lia.
  - exists w'. split; [exact Hrun|exact Hclock].
Defined.

(* ===================================================================== *)
(** * How a run ends before its first task *)
(* ===================================================================== *)

Section RejectedInput.

Context {E : Env}.

(** X17.  A run whose input is refused (no base URL, a filters text that
    is not a JSON object, or [personIds] filters that are not a list of
    strings) returns normally without contacting the repository: it only
    reports the error as status and log lines. *)
Theorem run_search_rejects_input_without_requests
    fuel api_key delta_days start_year end_year selected_items
    specific_date_str specific_date_album_name specific_date_all_years
    people_text people_match_mode additional_filters_text
    people_with_hidden (w : world E) :
  input_rejected E additional_filters_text ->
  exists evs,
    run_search fuel api_key delta_days start_year end_year selected_items
               specific_date_str specific_date_album_name
               specific_date_all_years people_text people_match_mode
               additional_filters_text people_with_hidden w
    = (Ok tt, mk_world (server w) (clock w) (trace w ++ evs)%list)
    /\ evs <> [] /\ Forall is_status_or_log evs.
Proof.
  intros Hrej. unfold run_search.
  destruct (nonempty (API_BASE_URL E)) eqn:Hbase; cbn [negb].
  2:{ unfold bind, set_status, log_message, emit. cbn [server clock trace].
      rewrite <- app_assoc. eexists. split; [reflexivity|].
      split; [discriminate|]. repeat constructor. }
  destruct Hrej as [Hurl | Hrej].
  { rewrite Hurl in Hbase. discriminate. }
  unfold bind at 1, set_status at 1, emit. cbn [server clock trace].
  unfold bind at 1, log_message at 1, emit. cbn [server clock trace].
  rewrite <- app_assoc. cbn [app].
  destruct (parse_additional_filters_json E additional_filters_text)
    as [filters [err|]] eqn:Hparse.
  { unfold bind, set_status, log_message, emit. cbn [server clock trace].
    rewrite <- !app_assoc. eexists. split; [reflexivity|].
    split; [discriminate|]. repeat constructor. }
  destruct Hrej as [(err & Herr) | (v & Hv & Hnull & Hlist)];
    [discriminate|].
  cbn [fst] in Hv. rewrite Hv.
  assert (Hnone :
            match v with
            | JNull => Some ([], ∅)
            | _ =>
                match list_of_strings v with
                | Some ids => Some (extend_unique ids ([], ∅))
                | None => None
                end
            end = (None : option (list string * gset string))).
  { rewrite Hlist. destruct v; try reflexivity. contradiction. }
  match goal with
  | |- exists evs, (match ?x with _ => _ end) _ = _ /\ _ =>
      replace x with (None : option (list string * gset string))
  end.
  unfold bind, set_status, log_message, emit. cbn [server clock trace].
  rewrite <- !app_assoc. eexists. split; [reflexivity|].
  split; [discriminate|]. repeat constructor.
Qed.

End RejectedInput.

Lemma run_search_rejects_input_without_requests_witness :
  let E := scripted_env "http://immich.local/api" (fun _ => inr (JList []))
             [] (fun _ => HttpOk 200 []) (fun _ => []) (fun _ => false) in
  let w : world E := mk_world (E := E) tt 0%nat [] in
  input_rejected E "[]"
  /\ exists evs,
      run_search 6 "key" 1 2020 2021 [("Easter", "Easter")] "" "" false ""
                 "any" "[]" false w
      = (Ok tt, mk_world (E := E) tt 0%nat evs)
      /\ Forall is_status_or_log evs.
Proof.
  intros E w.
  assert (Hrej : input_rejected E "[]").
  { right. left. eexists. reflexivity. }
  split; [exact Hrej|].
  destruct (run_search_rejects_input_without_requests
              (E := E) 6 "key" 1 2020 2021 [("Easter", "Easter")] "" ""
              false "" "any" "[]" false w Hrej)
    as (evs & Hrun & _ & Hev).
  exists evs. split; [exact Hrun|exact Hev].
Defined.

Section FirstLookup.

Context {E : Env}.

Variables (fuel : nat) (api_key : string).
Variables (delta_days start_year end_year : Z).
Variable selected_items : list (string * string).
Variables (specific_date_str specific_date_album_name : string).
Variable specific_date_all_years : bool.
Variables (people_text people_match_mode additional_filters_text : string).
Variable people_with_hidden : bool.
Variable w : world E.

Variable filters : gmap string json.
Variables (token : string) (rest : list string).

(** The run gets as far as the resolution of the people text, whose
    first token is a name. *)
Hypothesis base_url_set : nonempty (API_BASE_URL E) = true.
Hypothesis filters_accepted :
  parse_additional_filters_json E additional_filters_text = (filters, None).
Hypothesis no_person_filter : filters !! "personIds" = None.
Hypothesis people_given : nonempty (strip people_text) = true.
Hypothesis first_token : parse_people_input people_text = token :: rest.
Hypothesis token_is_name : UUID_PATTERN_match token = false.
Hypothesis not_cancelled : stop_flag E (clock w) = false.

Local Abbreviation the_run :=
  (run_search fuel api_key delta_days start_year end_year selected_items
              specific_date_str specific_date_album_name
              specific_date_all_years people_text people_match_mode
              additional_filters_text people_with_hidden w).

Local Abbreviation lookup :=
  (GetSearchPerson (API_BASE_URL E ++ "/search/person") token
                   people_with_hidden).

Lemma people_text_nonempty : nonempty people_text = true.
Proof.
  destruct people_text; [|reflexivity].
  cbn in people_given. discriminate.
Qed.

(** The run up to the answer to the first lookup. *)
Lemma run_search_first_lookup (s1 : srv E)
  (answer : http_result (list person)) :
  search_person E (server w) token people_with_hidden = (s1, answer) ->
  exists evs,
    requests_of evs = [lookup]
    /\ Forall (fun ev => ~ is_progress ev) evs
    /\ forall w1,
        w1 = mk_world s1 (S (clock w)) (trace w ++ evs)%list ->
        match answer with
        | HttpError msg =>
            the_run
            = (Raise (RequestException msg),
               mk_world s1 (S (clock w))
                 (trace w1
                  ++ [EvLog ("Failed to search people: " ++ msg);
                      EvStatus ("Failed to search people: " ++ msg)])%list)
        | HttpOk _ [] =>
            let msg := ("No person found matching '" ++ token ++ "'.")%string in
            the_run
            = (Ok tt,
               mk_world s1 (S (clock w))
                 (trace w1 ++ [EvStatus ("Error: " ++ msg); EvLog msg])%list)
        | _ => True
        end.
Proof.
  intros Hanswer.
  exists [EvStatus "Starting asset collection...";
          EvLog "Starting asset collection...";
          EvStatus "Resolving people filter...";
          EvLog ("GET " ++ (API_BASE_URL E ++ "/search/person")
                 ++ " (person search)");
          EvRequest false lookup].
  split; [reflexivity|]. split; [repeat constructor; cbn; tauto|].
  intros w1 ->.
  destruct answer as [status [|p ps]|msg]; [| exact Logic.I |];
    cbv zeta;
    unfold run_search; rewrite base_url_set; cbn [negb];
    unfold bind at 1, set_status at 1, emit; cbn [server clock trace];
    unfold bind at 1, log_message at 1, emit; cbn [server clock trace];
    rewrite filters_accepted, no_person_filter;
    rewrite people_text_nonempty, people_given; cbn [andb];
    unfold bind at 1, try_except;
    unfold bind at 1, set_status at 1, emit; cbn [server clock trace];
    unfold bind at 1, resolve_person_ids; rewrite first_token;
    cbn [resolve_tokens];
    unfold bind at 1, stop_event_is_set; cbn [clock];
    rewrite not_cancelled;
    rewrite token_is_name;
    unfold bind at 1, search_people_by_name;
    unfold bind at 1, log_message at 1, emit; cbn [server clock trace];
    unfold bind at 1, http; cbn [server clock trace];
    rewrite Hanswer, not_cancelled;
    rewrite <- !app_assoc; cbn [app].
  - unfold ret at 1. unfold bind at 1, lift, choose_person.
    cbn [is_ValueError str_of_exn].
    unfold bind, set_status, log_message, emit, ret.
    cbn [server clock trace]. rewrite <- !app_assoc. reflexivity.
  - unfold request_failed, bind, log_message, set_status, emit, raise.
    cbn [server clock trace is_ValueError].
    rewrite <- !app_assoc. reflexivity.
Qed.

(** X18.  When the first name of the people text matches nobody, the
    run ends normally right after that lookup: the error is shown as the
    status, and no album is listed or created, no search is made and no
    progress is reported. *)
Theorem run_search_unknown_person_ends_run (s1 : srv E) (status : Z) :
  search_person E (server w) token people_with_hidden
  = (s1, HttpOk status []) ->
  exists evs,
    the_run = (Ok tt, mk_world s1 (S (clock w)) (trace w ++ evs)%list)
    /\ requests_of evs = [lookup]
    /\ Forall (fun ev => ~ is_progress ev) evs
    /\ last (statuses evs)
       = Some ("Error: No person found matching '" ++ token ++ "'.")%string.
Proof.
  intros Hanswer.
  destruct (run_search_first_lookup s1 _ Hanswer) as (evs & Hreq & Hsil & Hrun).
  specialize (Hrun _ eq_refl). cbv zeta in Hrun. cbn [trace] in Hrun.
  rewrite <- app_assoc in Hrun.
  eexists. split; [exact Hrun|].
  split; [rewrite requests_of_app, Hreq; reflexivity|].
  split; [apply Forall_app; split; [exact Hsil|repeat constructor; cbn; tauto]|].
  unfold statuses. rewrite omap_app. cbn [omap list_omap].
  rewrite last_snoc. reflexivity.
Qed.

(** X19.  When the lookup of the first name fails (the repository cannot
    be reached, the request times out or the answer has an error
    status), [run_search] does not handle the failure: the exception
    leaves [run_search], after the failure was logged and shown as the
    status, and no progress was reported. *)
Theorem run_search_failed_lookup_escapes (s1 : srv E) (msg : string) :
  search_person E (server w) token people_with_hidden
  = (s1, HttpError msg) ->
  exists evs,
    the_run
    = (Raise (RequestException msg),
       mk_world s1 (S (clock w)) (trace w ++ evs)%list)
    /\ requests_of evs = [lookup]
    /\ Forall (fun ev => ~ is_progress ev) evs
    /\ last (statuses evs) = Some ("Failed to search people: " ++ msg)%string.
Proof.
  intros Hanswer.
  destruct (run_search_first_lookup s1 _ Hanswer) as (evs & Hreq & Hsil & Hrun).
  specialize (Hrun _ eq_refl). cbn [trace] in Hrun.
  rewrite <- app_assoc in Hrun.
  eexists. split; [exact Hrun|].
  split; [rewrite requests_of_app, Hreq; reflexivity|].
  split; [apply Forall_app; split; [exact Hsil|repeat constructor; cbn; tauto]|].
  unfold statuses. rewrite omap_app. cbn [omap list_omap].
  rewrite last_snoc. reflexivity.
Qed.

End FirstLookup.

Lemma run_search_unknown_person_ends_run_witness :
  let E := scripted_env "http://immich.local/api" (fun _ => inl "no") []
             (fun _ => HttpOk 200 []) (fun _ => []) (fun _ => false) in
  let w : world E := mk_world (E := E) tt 0%nat [] in
  parse_people_input "Nobody" = ["Nobody"]
  /\ exists evs,
      run_search 6 "key" 1 2020 2021 [("Easter", "Easter")] "" "" false
                 "Nobody" "any" "" false w
      = (Ok tt, mk_world (E := E) tt 1%nat evs)
      /\ requests_of evs
         = [GetSearchPerson "http://immich.local/api/search/person" "Nobody"
                            false]
      /\ last (statuses evs)
         = Some "Error: No person found matching 'Nobody'.".
Proof.
  intros E w.
  assert (Htok : parse_people_input "Nobody" = ["Nobody"]) by reflexivity.
  split; [exact Htok|].
  destruct (run_search_unknown_person_ends_run
              (E := E) 6 "key" 1 2020 2021 [("Easter", "Easter")] "" ""
              false "Nobody" "any" "" false w ∅ "Nobody" []
              eq_refl eq_refl eq_refl eq_refl Htok eq_refl eq_refl
              tt 200 eq_refl)
    as (evs & Hrun & Hreq & _ & Hlast).
  exists evs. split; [exact Hrun|]. split; [exact Hreq|exact Hlast].
Defined.

Lemma run_search_failed_lookup_escapes_witness :
  let E := scripted_env "http://immich.local/api" (fun _ => inl "no") []
             (fun _ => HttpError "503 Server Error") (fun _ => [])
             (fun _ => false) in
  let w : world E := mk_world (E := E) tt 0%nat [] in
  parse_people_input "Ann" = ["Ann"]
  /\ exists evs,
      run_search 6 "key" 1 2020 2021 [("Easter", "Easter")] "" "" false
                 "Ann" "any" "" false w
      = (Raise (RequestException "503 Server Error"),
         mk_world (E := E) tt 1%nat evs)
      /\ last (statuses evs)
         = Some "Failed to search people: 503 Server Error".
Proof.
  intros E w.
  assert (Htok : parse_people_input "Ann" = ["Ann"]) by reflexivity.
  split; [exact Htok|].
  destruct (run_search_failed_lookup_escapes
              (E := E) 6 "key" 1 2020 2021 [("Easter", "Easter")] "" ""
              false "Ann" "any" "" false w ∅ "Ann" []
              eq_refl eq_refl eq_refl eq_refl Htok eq_refl eq_refl
              tt "503 Server Error" eq_refl)
    as (evs & Hrun & _ & _ & Hlast).
  exists evs. split; [exact Hrun|exact Hlast].
Defined.

(* ===================================================================== *)
(** * The task count and the progress of the loops *)
(* ===================================================================== *)

Section TaskCount.

Local Abbreviation is_holiday :=
  (fun kv : string * string => negb (fst kv =? "Specific Date")%string).

Lemma count_tasks_fold (items : list (string * string)) (n acc : Z) :
  fold_left (fun total kv =>
               if (fst kv =? "Specific Date")%string then total
               else total + n) items acc
  = acc + Z.of_nat (length (List.filter is_holiday items)) * n.
Proof.
  revert acc. induction items as [|kv items IH]; intros acc;
    cbn [fold_left List.filter length]; [lia|].
  rewrite IH. destruct (fst kv =? "Specific Date")%string; cbn [negb length];
    lia.
Qed.

Lemma count_tasks_sum (selected_items : list (string * string))
    (start_year end_year : Z) (specific_date_all_years : bool) :
  count_tasks selected_items start_year end_year specific_date_all_years
  = (if has_key "Specific Date" selected_items
     then if specific_date_all_years then end_year - start_year + 1 else 1
     else 0)
    + Z.of_nat (length (List.filter is_holiday selected_items))
      * (end_year - start_year + 1).
Proof.
  unfold count_tasks. cbv zeta. rewrite count_tasks_fold.
  destruct (has_key "Specific Date" selected_items);
    [destruct specific_date_all_years|]; lia.
Qed.

(** X20.  The task count of a run is one task per selected holiday and
    year, plus, when a specific date is selected, one task per year or a
    single task.  The year span is taken as [end_year - start_year + 1]
    even when that is negative. *)
Theorem count_tasks_closed_form (selected_items : list (string * string))
    (start_year end_year : Z) (specific_date_all_years : bool) :
  count_tasks selected_items start_year end_year specific_date_all_years
  = (if has_key "Specific Date" selected_items
     then if specific_date_all_years then end_year - start_year + 1 else 1
     else 0)
    + Z.of_nat (length (List.filter is_holiday selected_items))
      * (end_year - start_year + 1).
Proof. apply count_tasks_sum. Qed.

End TaskCount.

Section LoopProgress.

Context {E : Env}.

Lemma bind_Ok_inv {A B} (m : M E A) (k : A -> M E B) (w w' : world E)
  (b : B) :
  bind m k w = (Ok b, w') ->
  exists a w1, m w = (Ok a, w1) /\ k a w1 = (Ok b, w').
Proof.
  unfold bind. destruct (m w) as [[a|e|] w1]; try discriminate. eauto.
Qed.

Lemma collect_progress fuel status base_date delta_days album_id filters
  ids mode total_tasks (added progress added' progress' : Z)
  (w w' : world E) :
  collect fuel status base_date delta_days album_id filters ids mode
          total_tasks (added, progress) w
  = (Ok (added', progress'), w') ->
  progress' = progress + 1.
Proof.
  unfold collect. intros H.
  apply bind_Ok_inv in H as ([lo hi] & w1 & _ & H).
  apply bind_Ok_inv in H as (? & w2 & _ & H).
  apply bind_Ok_inv in H as (asset_ids & w3 & _ & H).
  apply bind_Ok_inv in H as (n & w4 & _ & H).
  apply bind_Ok_inv in H as (? & w5 & _ & H).
  unfold ret in H. congruence.
Qed.

Lemma year_loop_progress fuel years date_of status_of delta_days album_id
  filters ids mode total_tasks :
  forall (added progress added' progress' : Z) (w w' : world E),
    year_loop fuel years date_of status_of delta_days album_id filters ids
              mode total_tasks (added, progress) w
    = (Ok (Next (added', progress')), w') ->
    progress' = progress + Z.of_nat (length years).
Proof.
  induction years as [|y ys IH]; intros added progress added' progress' w w';
    cbn [year_loop length].
  - unfold ret. intros [= _ <- _]. lia.
  - intros H.
    apply bind_Ok_inv in H as (stop & w1 & _ & H).
    destruct stop.
    { apply bind_Ok_inv in H as (? & w2 & _ & H). discriminate. }
    apply bind_Ok_inv in H as (base_date & w2 & _ & H).
    apply bind_Ok_inv in H as ([a1 p1] & w3 & Hc & H).
    apply collect_progress in Hc. apply IH in H. lia.
Qed.

Lemma holiday_loop_progress_general fuel items years delta_days filters
  ids mode total_tasks :
  forall (added progress added' progress' : Z) (w w' : world E),
    holiday_loop fuel items years delta_days filters ids mode total_tasks
                 (added, progress) w
    = (Ok (Next (added', progress')), w') ->
    progress'
    = progress
      + Z.of_nat (length (List.filter
                            (fun kv => negb (fst kv =? "Specific Date")%string)
                            items))
        * Z.of_nat (length years).
Proof.
  induction items as [|[holiday_name album_name] items IH];
    intros added progress added' progress' w w';
    cbn [holiday_loop List.filter fst].
  - unfold ret. intros [= _ <- _]. cbn [length]. lia.
  - destruct (holiday_name =? "Specific Date")%string; cbn [negb].
    + apply IH.
    + intros H.
      apply bind_Ok_inv in H as (album_id & w1 & _ & H).
      apply bind_Ok_inv in H as (r & w2 & Hy & H).
      destruct r as [[a1 p1]|]; [|discriminate].
      apply year_loop_progress in Hy. apply IH in H.
      cbn [length]. lia.
Qed.

(** X21.  When the loop over the selected holidays runs to its end, the
    progress counter has advanced by one for every selected holiday and
    every year; for a year range that is not reversed this is the number
    of tasks counted for these holidays. *)
Theorem holiday_loop_progress fuel items (start_year end_year : Z)
    delta_days filters ids mode total_tasks
    (added progress added' progress' : Z) (w w' : world E) :
  start_year <= end_year + 1 ->
  has_key "Specific Date" items = false ->
  holiday_loop fuel items (py_range start_year (end_year + 1)) delta_days
               filters ids mode total_tasks (added, progress) w
  = (Ok (Next (added', progress')), w') ->
  progress' = progress + count_tasks items start_year end_year false.
Proof.
  intros Hrange Hkey H.
  apply holiday_loop_progress_general in H.
  rewrite count_tasks_sum, Hkey.
  assert (Hlen : Z.of_nat (length (py_range start_year (end_year + 1)))
                 = end_year - start_year + 1).
  { unfold py_range. rewrite length_map, length_seq. lia. }
  rewrite Hlen in H. lia.
Qed.

End LoopProgress.

Lemma holiday_loop_progress_witness :
  let E := scripted_env "http://immich.local/api" (fun _ => inl "no") []
             (fun _ => HttpOk 200 []) (fun _ => ["asset-1"])
             (fun _ => false) in
  let w : world E := mk_world (E := E) tt 0%nat [] in
  let items := [("Easter", "Easter"); ("Christmas", "Xmas")] in
  exists added' progress' w',
    holiday_loop 6 items (py_range 2020 (2021 + 1)) 1 ∅ [] "any" 4 (0, 0) w
    = (Ok (Next (added', progress')), w')
    /\ progress' = 4.
Proof.
  intros E w items.
  assert (Hrun : exists added' progress' w',
             holiday_loop 6 items (py_range 2020 (2021 + 1)) 1 ∅ [] "any" 4
                          (0, 0) w
             = (Ok (Next (added', progress')), w')).
  { eexists _, _, _. vm_compute. reflexivity. }
  destruct Hrun as (added' & progress' & w' & Hrun).
  exists added', progress', w'. split; [exact Hrun|].
  rewrite (holiday_loop_progress
             (E := E) 6 items 2020 2021 1 ∅ [] "any" 4 0 0 added' progress'
             w w' ltac:(lia) eq_refl Hrun).
  reflexivity.
Defined.

(* ===================================================================== *)
(** * The people text as a sequence of lines *)
(* ===================================================================== *)

Section PeopleLines.

Lemma split_on_nonempty (sep : ascii) (s : string) : split_on sep s <> [].
Proof.
  induction s as [|c s IH]; cbn [split_on]; [discriminate|].
  destruct (Ascii.eqb c sep); [discriminate|].
  destruct (split_on sep s); discriminate.
Qed.

Lemma split_on_app_sep (sep : ascii) (a b : string) :
  split_on sep (a ++ String sep b)
  = (split_on sep a ++ split_on sep b)%list.
Proof.
  induction a as [|c a IH].
  - rewrite append_nil. cbn [split_on]. rewrite Ascii.eqb_refl. reflexivity.
  - rewrite append_cons. cbn [split_on]. rewrite IH.
    destruct (Ascii.eqb c sep); [reflexivity|].
    pose proof (split_on_nonempty sep a) as Hne.
    destruct (split_on sep a) as [|h t]; [contradiction|]. reflexivity.
Qed.

Lemma replace_char_app (x y : ascii) (a b : string) :
  replace_char x y (a ++ b)
  = (replace_char x y a ++ replace_char x y b)%string.
Proof.
  induction a as [|c a IH]; [rewrite !append_nil; reflexivity|].
  rewrite append_cons. cbn [replace_char]. rewrite append_cons, IH.
  reflexivity.
Qed.

Lemma parse_people_input_unfold (text : string) :
  parse_people_input text
  = omap token_of_part
         (map strip (split_on "," (replace_char "010" "," text))).
Proof. destruct text; reflexivity. Qed.

Lemma parse_people_input_app (sep : ascii) (a b : string) :
  sep = ","%char \/ sep = "010"%char ->
  parse_people_input (a ++ String sep b)
  = (parse_people_input a ++ parse_people_input b)%list.
Proof.
  intros Hsep. rewrite !parse_people_input_unfold.
  rewrite replace_char_app. cbn [replace_char].
  assert (Hc : (if Ascii.eqb sep "010" then ","%char else sep) = ","%char)
    by (destruct Hsep as [-> | ->]; reflexivity).
  rewrite Hc, split_on_app_sep, map_app. apply omap_app.
Qed.

(** X22.  A comma and a newline separate the people text alike, and the
    tokens of a text are the tokens of its pieces in order: splitting a
    text at a separator and parsing the pieces gives the same tokens as
    parsing the whole. *)
Theorem parse_people_input_splits_at_separators (sep : ascii)
    (a b : string) :
  sep = ","%char \/ sep = "010"%char ->
  parse_people_input (a ++ String sep b)
  = (parse_people_input a ++ parse_people_input b)%list.
Proof. apply parse_people_input_app. Qed.

Lemma parse_people_input_splits_at_separators_witness :
  parse_people_input ("Jo Ann" ++ String "010" "Bob, Carol")
  = ["Jo Ann"; "Bob"; "Carol"].
Proof.
  rewrite (parse_people_input_splits_at_separators
             "010" "Jo Ann" "Bob, Carol" (or_intror eq_refl)).
  reflexivity.
Defined.

Lemma picker_line_one_line (person_id name : string) :
  is_uuid_text person_id = true -> one_line name = true ->
  parse_people_input (picker_line person_id name) = [person_id].
Proof.
  intros Hu Hname. unfold picker_line.
  apply parse_people_input_uuid_prefix; [exact Hu|].
  fold one_line. unfold one_line in *.
  rewrite all_chars_app, Hname. reflexivity.
Qed.

Lemma parse_picker_lines (entries : list (string * string)) :
  Forall (fun e => is_uuid_text (fst e) = true /\ one_line (snd e) = true)
         entries ->
  parse_people_input
    (join (String "010" "")
          (map (fun e => picker_line (fst e) (snd e)) entries)
     ++ String "010" "")
  = map fst entries.
Proof.
  induction 1 as [|[pid name] entries [Hu Hname] Hall IH].
  - reflexivity.
  - cbn [map fst snd] in *. unfold join in *. cbn [String.concat].
    destruct (map (fun e => picker_line (fst e) (snd e)) entries)
      as [|l ls] eqn:Hmap.
    + destruct entries; [|discriminate]. cbn [map].
      rewrite parse_people_input_app by (right; reflexivity).
      rewrite (picker_line_one_line pid name Hu Hname). reflexivity.
    + rewrite !string_app_assoc.
      rewrite append_cons, append_nil.
      rewrite parse_people_input_app by (right; reflexivity).
      rewrite (picker_line_one_line pid name Hu Hname), IH. reflexivity.
Qed.

(** X23.  The lines the people picker writes are read back as the ids it
    wrote: for people with UUID ids and names without a comma or a
    newline, parsing the added lines gives exactly their ids, in
    order. *)
Theorem picker_lines_parse_back (entries : list (string * string)) :
  Forall (fun e => is_uuid_text (fst e) = true /\ one_line (snd e) = true)
         entries ->
  parse_people_input
    (join (String "010" "")
          (map (fun e => picker_line (fst e) (snd e)) entries)
     ++ String "010" "")
  = map fst entries.
Proof. apply parse_picker_lines. Qed.

Lemma picker_lines_parse_back_witness :
  let u1 := "123e4567-e89b-42d3-a456-426614174000" in
  let u2 := "00000000-0000-0000-0000-000000000000" in
  parse_people_input
    (join (String "010" "")
          [picker_line u1 "Ann Smith"; picker_line u2 "(Unnamed)"]
     ++ String "010" "")
  = [u1; u2].
Proof.
  intros u1 u2.
  apply (picker_lines_parse_back [(u1, "Ann Smith"); (u2, "(Unnamed)")]).
  repeat constructor.
Defined.

(** X24.  A comma in a person's name ends the comment the picker wrote:
    what follows the comma in the name is read as further tokens of the
    people text, after the person's id. *)
Theorem picker_line_comma_in_name (person_id before after : string) :
  is_uuid_text person_id = true -> one_line before = true ->
  parse_people_input (picker_line person_id (before ++ String "," after))
  = person_id :: parse_people_input after.
Proof.
  intros Hu Hname. unfold picker_line.
  replace (person_id ++ "  # " ++ before ++ String "," after)%string
    with ((person_id ++ "  # " ++ before) ++ String "," after)%string
    by (rewrite !string_app_assoc; reflexivity).
  rewrite parse_people_input_app by (left; reflexivity).
  fold (picker_line person_id before).
  rewrite (picker_line_one_line person_id before Hu Hname). reflexivity.
Qed.

Lemma picker_line_comma_in_name_witness :
  let u := "123e4567-e89b-42d3-a456-426614174000" in
  parse_people_input (picker_line u ("Smith" ++ String "," " Ann"))
  = [u; "Ann"].
Proof.
  intros u.
  rewrite (picker_line_comma_in_name u "Smith" " Ann" eq_refl eq_refl).
  reflexivity.
Defined.

End PeopleLines.

(* ===================================================================== *)
(** * The people listing *)
(* ===================================================================== *)

Section PeopleListing.

Context {E : Env}.
Variable list_people :
  srv E -> Z -> Z -> bool -> srv E * http_result people_page.
Variable with_hidden : bool.
Variable pages : Z -> people_page.

(** The repository answers the listing of page [p] with [pages p]. *)
Hypothesis answers :
  forall (s : srv E) (page : Z),
  exists s' status,
    list_people s page 1000 with_hidden = (s', HttpOk status (pages page)).

Lemma people_through_cons (first : Z) (k : nat) :
  people_through pages first (S k)
  = (page_people (pages first) ++ people_through pages (first + 1) k)%list.
Proof.
  unfold people_through. rewrite py_range_cons. reflexivity.
Qed.

Lemma people_through_nil (first : Z) : people_through pages first 0 = [].
Proof.
  unfold people_through, py_range.
  replace (first + Z.of_nat 0 - first) with 0 by lia. reflexivity.
Qed.

Lemma people_pages_one_page (fuel : nat) (page : Z) (acc : list person)
  (w : world E) (s' : srv E) (status : Z) (data : people_page) :
  stop_flag E (clock w) = false ->
  list_people (server w) page 1000 with_hidden = (s', HttpOk status data) ->
  let w1 :=
    mk_world s' (S (clock w))
      (trace w
       ++ [EvLog ("GET " ++ (API_BASE_URL E ++ "/people")
                  ++ " (people list page " ++ str_of_Z page ++ ")")])%list in
  people_pages list_people (S fuel) with_hidden 1000 page acc w
  = if listing_continues data
         (Z.of_nat (length (acc ++ page_people data)%list))
    then people_pages list_people fuel with_hidden 1000 (page + 1)
                      (acc ++ page_people data)%list w1
    else (Ok (acc ++ page_people data)%list, w1).
Proof.
  intros Hflag Hanswer w1. subst w1.
  cbn [people_pages]. unfold bind, stop_event_is_set, log_message, emit,
    exchange, ret. rewrite Hflag. cbn [server clock trace].
  rewrite Hanswer. unfold listing_continues.
  destruct (page_people data) as [|x xs] eqn:Hp;
    [rewrite app_nil_r; reflexivity|].
  destruct (page_hasNextPage data) as [[|]|];
    destruct (page_total data) as [total|]; cbn [negb andb];
    repeat match goal with
           | |- context [if ?b then _ else _] => destruct b; cbn [negb andb]
           end; reflexivity.
Qed.

Lemma people_pages_collects (j : nat) :
  forall (fuel : nat) (page : Z) (acc : list person) (w : world E),
    (j < fuel)%nat ->
    (forall i, (i <= j)%nat -> stop_flag E (clock w + i) = false) ->
    (forall i, (i < j)%nat ->
               listing_continues
                 (pages (page + Z.of_nat i))
                 (Z.of_nat (length (acc ++ people_through pages page (S i))%list))
               = true) ->
    listing_continues
      (pages (page + Z.of_nat j))
      (Z.of_nat (length (acc ++ people_through pages page (S j))%list))
    = false ->
    exists w',
      people_pages list_people fuel with_hidden 1000 page acc w
      = (Ok (acc ++ people_through pages page (S j))%list, w')
      /\ clock w' = (clock w + S j)%nat.
Proof.
  induction j as [|j IH]; intros fuel page acc w Hfuel Hflag Hgo Hstop;
    (destruct fuel as [|fuel]; [lia|]);
    (assert (Hflag0 : stop_flag E (clock w) = false)
      by (rewrite <- (Nat.add_0_r (clock w)); apply Hflag; lia));
    destruct (answers (server w) page) as (s' & status & Hanswer);
    rewrite (people_pages_one_page fuel page acc w s' status _
               Hflag0 Hanswer); cbv zeta.
  - replace (page + Z.of_nat 0) with page in Hstop by lia.
    rewrite people_through_cons, people_through_nil, app_nil_r in Hstop |- *.
    rewrite Hstop. eexists. split; [reflexivity|]. cbn [clock]. lia.
  - pose proof (Hgo 0%nat ltac:(lia)) as Hfirst.
    replace (page + Z.of_nat 0) with page in Hfirst by lia.
    rewrite people_through_cons, people_through_nil, app_nil_r in Hfirst.
    rewrite Hfirst.
    match goal with
    | |- exists w', people_pages _ _ _ _ _ _ ?w1 = _ /\ _ =>
        destruct (IH fuel (page + 1) (acc ++ page_people (pages page))%list
                     w1)
          as (w' & Hrun & Hclock)
    end.
    + lia.
    + intros i Hi. cbn [clock].
      replace (S (clock w) + i)%nat with (clock w + S i)%nat by lia.
      apply Hflag. lia.
    + intros i Hi.
      replace (page + 1 + Z.of_nat i) with (page + Z.of_nat (S i)) by lia.
      rewrite <- app_assoc, <- people_through_cons. apply Hgo. lia.
    + replace (page + 1 + Z.of_nat j) with (page + Z.of_nat (S j)) by lia.
      rewrite <- app_assoc, <- people_through_cons. exact Hstop.
    + exists w'. rewrite Hrun. split.
      * rewrite <- app_assoc, <- people_through_cons. reflexivity.
      * cbn [clock] in Hclock. lia.
Qed.

(** X25.  The people listing asks for pages 1, 2, 3, ... of 1000 people
    and stops with the first page that is empty, says [hasNextPage] is
    false, reaches the announced [total], or is short while
    [hasNextPage] is absent.  When page [k] is the first such page, it
    makes exactly [k] requests and returns the people of pages 1 to [k]
    in order, provided the cancellation flag stays unset until the last
    request and the fuel covers [k] pages. *)
Theorem get_all_people_collects_pages (fuel k : nat) (w : world E) :
  (0 < k <= fuel)%nat ->
  (forall i, (i < k)%nat -> stop_flag E (clock w + i) = false) ->
  (forall j, (0 < j < k)%nat ->
             listing_continues
               (pages (Z.of_nat j))
               (Z.of_nat (length (people_through pages 1 j)))
             = true) ->
  listing_continues (pages (Z.of_nat k))
                    (Z.of_nat (length (people_through pages 1 k)))
  = false ->
  exists w',
    get_all_people list_people fuel with_hidden w
    = (Ok (people_through pages 1 k), w')
    /\ clock w' = (clock w + k)%nat.
Proof.
  intros Hk Hflag Hgo Hstop.
  destruct k as [|j]; [lia|].
  unfold get_all_people.
  apply (people_pages_collects j fuel 1 [] w).
  - lia.
  - intros i Hi. apply Hflag. lia.
  - intros i Hi. cbn [app].
    replace (1 + Z.of_nat i) with (Z.of_nat (S i)) by lia.
    apply Hgo. lia.
  - cbn [app]. replace (1 + Z.of_nat j) with (Z.of_nat (S j)) by lia.
    exact Hstop.
Qed.

Lemma people_pages_cancelled (j : nat) :
  forall (fuel : nat) (page : Z) (acc : list person) (w : world E),
    (j <= fuel)%nat ->
    (forall i, (i < j)%nat -> stop_flag E (clock w + i) = false) ->
    stop_flag E (clock w + j) = true ->
    (forall i, (i < j)%nat ->
               listing_continues
                 (pages (page + Z.of_nat i))
                 (Z.of_nat (length (acc ++ people_through pages page (S i))%list))
               = true) ->
    exists w',
      people_pages list_people fuel with_hidden 1000 page acc w
      = (Ok [], w')
      /\ clock w' = (clock w + j)%nat.
Proof.
  induction j as [|j IH]; intros fuel page acc w Hfuel Hflag Hset Hgo.
  - exists w. rewrite Nat.add_0_r in Hset |- *. split; [|reflexivity].
    destruct fuel; cbn [people_pages]; unfold bind, stop_event_is_set;
      rewrite Hset; reflexivity.
  - destruct fuel as [|fuel]; [lia|].
    assert (Hflag0 : stop_flag E (clock w) = false)
      by (rewrite <- (Nat.add_0_r (clock w)); apply Hflag; lia).
    destruct (answers (server w) page) as (s' & status & Hanswer).
    rewrite (people_pages_one_page fuel page acc w s' status _
               Hflag0 Hanswer). cbv zeta.
    pose proof (Hgo 0%nat ltac:(lia)) as Hfirst.
    replace (page + Z.of_nat 0) with page in Hfirst by lia.
    rewrite people_through_cons, people_through_nil, app_nil_r in Hfirst.
    rewrite Hfirst.
    match goal with
    | |- exists w', people_pages _ _ _ _ _ _ ?w1 = _ /\ _ =>
        destruct (IH fuel (page + 1) (acc ++ page_people (pages page))%list
                     w1)
          as (w' & Hrun & Hclock)
    end.
    + lia.
    + intros i Hi. cbn [clock].
      replace (S (clock w) + i)%nat with (clock w + S i)%nat by lia.
      apply Hflag. lia.
    + cbn [clock].
      replace (S (clock w) + j)%nat with (clock w + S j)%nat by lia.
      exact Hset.
    + intros i Hi.
      replace (page + 1 + Z.of_nat i) with (page + Z.of_nat (S i)) by lia.
      rewrite <- app_assoc, <- people_through_cons. apply Hgo. lia.
    + exists w'. split; [exact Hrun|]. cbn [clock] in Hclock. lia.
Qed.

(** X26.  When the cancellation flag is found set after [k] pages were
    fetched and the listing was to go on, [get_all_people] returns the
    empty list, not the people of these pages, and requests nothing
    more. *)
Theorem get_all_people_cancelled_returns_nothing (fuel k : nat)
    (w : world E) :
  (k <= fuel)%nat ->
  (forall i, (i < k)%nat -> stop_flag E (clock w + i) = false) ->
  stop_flag E (clock w + k) = true ->
  (forall j, (0 < j <= k)%nat ->
             listing_continues
               (pages (Z.of_nat j))
               (Z.of_nat (length (people_through pages 1 j)))
             = true) ->
  exists w',
    get_all_people list_people fuel with_hidden w = (Ok [], w')
    /\ clock w' = (clock w + k)%nat.
Proof.
  intros Hk Hflag Hset Hgo. unfold get_all_people.
  apply (people_pages_cancelled k fuel 1 [] w); try assumption.
  intros i Hi. cbn [app].
  replace (1 + Z.of_nat i) with (Z.of_nat (S i)) by lia.
  apply Hgo. lia.
Qed.

End PeopleListing.

Lemma get_all_people_collects_pages_witness :
  let E := example_env (fun _ => false) in
  let w : world E := mk_world (E := E) tt 0%nat [] in
  let ann := mk_person (Some "p-ann") (Some "Ann") in
  let bob := mk_person (Some "p-bob") (Some "Bob") in
  let cat := mk_person (Some "p-cat") (Some "Cat") in
  let pages := fun p : Z =>
    if p =? 1 then mk_people_page [ann; bob] (Some true) None
    else if p =? 2 then mk_people_page [cat] (Some false) (Some 3)
    else mk_people_page [] None None in
  let list_people :=
    fun (s : srv E) (page size : Z) (hidden : bool) =>
      (s, HttpOk 200 (pages page)) in
  exists w',
    get_all_people list_people 5 false w = (Ok [ann; bob; cat], w')
    /\ clock w' = 2%nat.
Proof.
  intros E w ann bob cat pages list_people.
  destruct (get_all_people_collects_pages
              (E := E) list_people false pages
              (fun s page => ex_intro _ s (ex_intro _ 200 eq_refl)) 5 2 w)
    as (w' & Hrun & Hclock).
  - lia.
  - intros i _. reflexivity.
  - intros j Hj. assert (j = 1%nat) as -> by lia. reflexivity.
  - reflexivity.
  - exists w'. split; [exact Hrun|exact Hclock].
Defined.

Lemma get_all_people_cancelled_returns_nothing_witness :
  let E := example_env (fun n => (1 <=? n)%nat) in
  let w : world E := mk_world (E := E) tt 0%nat [] in
  let ann := mk_person (Some "p-ann") (Some "Ann") in
  let pages := fun p : Z => mk_people_page [ann] (Some true) None in
  let list_people :=
    fun (s : srv E) (page size : Z) (hidden : bool) =>
      (s, HttpOk 200 (pages page)) in
  exists w',
    get_all_people list_people 5 false w = (Ok [], w') /\ clock w' = 1%nat.
Proof.
  intros E w ann pages list_people.
  destruct (get_all_people_cancelled_returns_nothing
              (E := E) list_people false pages
              (fun s page => ex_intro _ s (ex_intro _ 200 eq_refl)) 5 1 w)
    as (w' & Hrun & Hclock).
  - lia.
  - intros i Hi. assert (i = 0%nat) as -> by lia. reflexivity.
  - reflexivity.
  - intros j Hj. reflexivity.
  - exists w'. split; [exact Hrun|exact Hclock].
Defined.
